(** * Glosario interactivo: a shallow embedding of the three [app.js] scripts

    The repository ships three versions of the same single-page glossary:

    - [AppJs]  : [src/assets/js/app.js];
    - [PartA]  : the first script of [src/unnamed/part_000] (lines 1-537);
    - [PartB]  : the second script of [src/unnamed/part_000] (lines 538-1004).

    Each script is an IIFE over module-level mutable variables and the DOM.
    The embedding below passes that state explicitly.  Asynchronous platform
    operations (the [fetch] of [data/glossary.json], the HEAD probe of an
    image) take the outcome the network delivers as an argument, and the
    state records that the request was made.

    A string is well-formed Unicode text, held as the bytes of its UTF-8
    encoding: equality, [includes] and concatenation of such texts are those
    of their encodings.  The functions of the platform that depend on the
    Unicode tables or on the UTF-16 code units of a string
    ([toLowerCase], [trim], [length], [substring]) are not defined here:
    the scripts are embedded over any [JS.Platform] that provides them, and
    the statements hold for every such platform.  The closed examples run on
    [JS.asciiPlatform], which gives these functions on ASCII text, where
    they agree with those of every browser. *)

From Stdlib Require Import Ascii String List Bool Arith ZArith Lia DecimalString.
From stdpp Require Import gmap strings.

Import ListNotations.
Local Open Scope list_scope.

(* ===================================================================== *)
(** * Platform functions on strings *)
(* ===================================================================== *)

Module JS.

(** The double quote character, and a string wrapped in a pair of them. *)
Definition dq : string := String (ascii_of_nat 34) EmptyString.
Definition quoted (s : string) : string := dq +:+ s +:+ dq.

Definition isUpper (c : ascii) : bool :=
  (65 <=? nat_of_ascii c) && (nat_of_ascii c <=? 90).

Definition lowerChar (c : ascii) : ascii :=
  if isUpper c then ascii_of_nat (nat_of_ascii c + 32) else c.

(** ASCII lowercase: the letters A to Z are mapped, every other byte is
    kept.  This is what [setAttribute] applies to an attribute name, and
    [String.prototype.toLowerCase] on ASCII text. *)
Fixpoint asciiLowerCase (s : string) : string :=
  match s with
  | EmptyString => EmptyString
  | String c r => String (lowerChar c) (asciiLowerCase r)
  end.

(** ASCII white space of the DOM standard, which separates the tokens of a
    [class] attribute: TAB, LF, FF, CR and SPACE. *)
Definition isWhiteSpace (c : ascii) : bool :=
  let n := nat_of_ascii c in (n =? 9) || (n =? 10) || (n =? 12) || (n =? 13) || (n =? 32).

(** The ASCII characters [String.prototype.trim] removes: TAB, LF, VT, FF,
    CR and SPACE. *)
Definition isTrimmed (c : ascii) : bool :=
  let n := nat_of_ascii c in ((9 <=? n) && (n <=? 13)) || (n =? 32).

Fixpoint trimStart (s : string) : string :=
  match s with
  | EmptyString => EmptyString
  | String c r => if isTrimmed c then trimStart r else s
  end.

Fixpoint trimEnd (s : string) : string :=
  match s with
  | EmptyString => EmptyString
  | String c r =>
      match trimEnd r with
      | EmptyString => if isTrimmed c then EmptyString else String c EmptyString
      | r' => String c r'
      end
  end.

(** [String.prototype.trim] on ASCII text. *)
Definition asciiTrim (s : string) : string := trimEnd (trimStart s).

(** Truthiness of a string value: only the empty string is falsy. *)
Definition truthy (s : string) : bool :=
  match s with EmptyString => false | _ => true end.

(** The functions of the platform the scripts call on strings and could
    not be written down here in full:

    - [toLowerCase]: [String.prototype.toLowerCase], the Unicode lower-case
      mapping with its special cases;
    - [trim]: [String.prototype.trim], which removes the Unicode white
      space and line terminators at both ends;
    - [stringLength]: [s.length], the number of UTF-16 code units;
    - [substring0 n]: [s.substring(0, n)], the first [n] UTF-16 code units;
    - [nativeFunctionText name]: the text a built-in function of that name
      converts to, whose layout the engine chooses; it is never empty. *)
Class Platform := {
  toLowerCase : string -> string;
  trim : string -> string;
  stringLength : string -> nat;
  substring0 : nat -> string -> string;
  nativeFunctionText : string -> string;
  nativeFunctionText_truthy : forall name, truthy (nativeFunctionText name) = true }.

(** These functions on ASCII text, the text of a built-in function laid out
    as V8 does.  The closed examples are run with them. *)
Definition asciiPlatform : Platform := {|
  toLowerCase := asciiLowerCase;
  trim := asciiTrim;
  stringLength := String.length;
  substring0 := fun n s => String.substring 0 n s;
  nativeFunctionText := fun name => "function " +:+ name +:+ "() { [native code] }";
  nativeFunctionText_truthy := fun name => eq_refl |}.

Fixpoint startsWith (s p : string) {struct p} : bool :=
  match p, s with
  | EmptyString, _ => true
  | String _ _, EmptyString => false
  | String a p', String b s' => Ascii.eqb a b && startsWith s' p'
  end.

(** [String.prototype.includes]: [sub] occurs somewhere in [s]. *)
Fixpoint includes (s sub : string) : bool :=
  startsWith s sub ||
  match s with
  | EmptyString => false
  | String _ r => includes r sub
  end.

(** [Array.prototype.includes] on an array of strings. *)
Definition arrayIncludes (l : list string) (x : string) : bool :=
  existsb (String.eqb x) l.

(** [Array.prototype.join]. *)
Definition join (sep : string) (l : list string) : string := String.concat sep l.

Definition hexDigit (upper : bool) (n : nat) : ascii :=
  if n <? 10 then ascii_of_nat (48 + n)
  else ascii_of_nat ((if upper then 55 else 87) + n).

Definition hex2 (upper : bool) (c : ascii) : string :=
  let n := nat_of_ascii c in
  String (hexDigit upper (n / 16)) (String (hexDigit upper (n mod 16)) EmptyString).

(** The escape [JSON.stringify] applies to one character of a string. *)
Definition jsonEscapeChar (c : ascii) : string :=
  let n := nat_of_ascii c in
  if n =? 34 then "\" +:+ dq
  else if n =? 92 then "\\"
  else if n =? 8 then "\b"
  else if n =? 9 then "\t"
  else if n =? 10 then "\n"
  else if n =? 12 then "\f"
  else if n =? 13 then "\r"
  else if n <? 32 then "\u00" +:+ hex2 false c
  else String c EmptyString.

Fixpoint jsonEscape (s : string) : string :=
  match s with
  | EmptyString => EmptyString
  | String c r => jsonEscapeChar c +:+ jsonEscape r
  end.

(** [JSON.stringify] of a string value. *)
Definition jsonString (s : string) : string := quoted (jsonEscape s).

(** [JSON.stringify] of an array whose elements are already serialised. *)
Definition jsonArray (l : list string) : string := "[" +:+ join "," l +:+ "]".

(** [JSON.stringify] of an object given as serialised key and value pairs. *)
Definition jsonObject (fields : list (string * string)) : string :=
  "{" +:+ join "," (map (fun kv => jsonString (fst kv) +:+ ":" +:+ snd kv) fields) +:+ "}".

Definition isUnreserved (c : ascii) : bool :=
  let n := nat_of_ascii c in
  ((65 <=? n) && (n <=? 90)) || ((97 <=? n) && (n <=? 122)) ||
  ((48 <=? n) && (n <=? 57)) ||
  existsb (Nat.eqb n) [45; 95; 46; 33; 126; 42; 39; 40; 41].

(** [encodeURIComponent]. *)
Fixpoint encodeURIComponent (s : string) : string :=
  match s with
  | EmptyString => EmptyString
  | String c r =>
      (if isUnreserved c then String c EmptyString else "%" +:+ hex2 true c)
      +:+ encodeURIComponent r
  end.

End JS.

(* ===================================================================== *)
(** * Data model: the glossary document read from [data/glossary.json] *)
(* ===================================================================== *)

Record Card := mkCard {
  c_id : string; c_es : string; c_en : string;
  c_def_es : string; c_def_en : string; c_img : string }.

Record Group := mkGroup {
  g_id : string; g_title : string; g_members : list string; g_cards : list Card }.

Record Window := mkWindow {
  w_id : string; w_title : string; w_groups : list string }.

(** [s_windows] is [None] when the subject object has no [windows] key. *)
Record Subject := mkSubject {
  s_id : string; s_code : string; s_title : string; s_description : string;
  s_groups : list Group; s_windows : option (list Window) }.

Definition GlossaryDocument := list Subject.

(** [JSON.stringify] of the records, keys in the order of the input file. *)
Module Json.
Import JS.

Definition card (c : Card) : string :=
  jsonObject [("id", jsonString (c_id c)); ("es", jsonString (c_es c));
              ("en", jsonString (c_en c)); ("def_es", jsonString (c_def_es c));
              ("def_en", jsonString (c_def_en c)); ("img", jsonString (c_img c))].

Definition group (g : Group) : string :=
  jsonObject [("id", jsonString (g_id g)); ("title", jsonString (g_title g));
              ("members", jsonArray (map jsonString (g_members g)));
              ("cards", jsonArray (map card (g_cards g)))].

Definition window (w : Window) : string :=
  jsonObject [("id", jsonString (w_id w)); ("title", jsonString (w_title w));
              ("groups", jsonArray (map jsonString (w_groups w)))].

Definition subject (s : Subject) : string :=
  jsonObject ([("id", jsonString (s_id s)); ("code", jsonString (s_code s));
               ("title", jsonString (s_title s));
               ("description", jsonString (s_description s));
               ("groups", jsonArray (map group (s_groups s)))] ++
              match s_windows s with
              | Some ws => [("windows", jsonArray (map window ws))]
              | None => []
              end).
End Json.

(* ===================================================================== *)
(** * Shared model of the page *)
(* ===================================================================== *)

(** A DOM subtree.  [Html] is markup assigned through [innerHTML], which the
    browser parses; the scripts never read it back. *)
#[warnings="-register-all"]
Inductive node :=
| Text (data : string)
| Html (markup : string)
| Elem (tag : string) (attrs : list (string * string)) (children : list node).

(** A request that leaves the page: a [fetch] with method GET or HEAD, or the
    load an [Image] object starts when its [src] is assigned. *)
Inductive request :=
| GET (url : string)
| HEAD (url : string)
| IMG (url : string).

(** What a [fetch] of the glossary delivers: the promise rejects, the status
    is not ok, the body is not JSON, or the body parses to a document. *)
Inductive loadFailure := NetworkError | HttpNotOk | MalformedBody.
Inductive fetchOutcome :=
| FetchFails (why : loadFailure)
| FetchOk (body : GlossaryDocument).

(** What a HEAD probe of an image delivers. *)
Inductive probeOutcome := ProbeOk | ProbeNotOk | ProbeRejects.

(** How a call of a function of the scripts ends. *)
Inductive completion (S : Type) :=
| Normal (st : S)
| Throw (error : string) (st : S).
Arguments Normal {S} st.
Arguments Throw {S} error st.

(** [array.forEach(x => body)] over an accumulated state. *)
Definition forEach {A S : Type} (l : list A) (body : A -> S -> S) (s : S) : S :=
  fold_left (fun acc x => body x acc) l s.

(** [array.push(x)]. *)
Definition push {A : Type} (x : A) (l : list A) : list A := l ++ [x].

(** [array.slice(0, n)]. *)
Definition slice0 {A : Type} (n : nat) (l : list A) : list A := firstn n l.

(** [array.find(pred)]. *)
Definition arrayFind {A : Type} (pred : A -> bool) (l : list A) : option A := List.find pred l.

(** Decimal rendering of an index or a length inside a template literal. *)
Definition natToString (n : nat) : string :=
  DecimalString.NilZero.string_of_uint (Nat.to_uint n).

(** A JS [Map] keyed by strings: insertion ordered, [set] on a present key
    replaces the value where the key already stands. *)
Module JsMap.
Section Store.
Context {V : Type}.

Fixpoint set (k : string) (v : V) (m : list (string * V)) : list (string * V) :=
  match m with
  | [] => [(k, v)]
  | (k', v') :: r =>
      if String.eqb k k' then (k, v) :: r else (k', v') :: set k v r
  end.

(** [new Map(entries)]. *)
Definition ofEntries (entries : list (string * V)) : list (string * V) :=
  forEach entries (fun kv m => set (fst kv) (snd kv) m) [].

(** [[...map.values()]]. *)
Definition values (m : list (string * V)) : list V := map snd m.
End Store.
End JsMap.

(** ** Attributes and observers of a DOM subtree *)

Definition getAttribute (name : string) (attrs : list (string * string)) : option string :=
  option_map snd (List.find (fun kv => String.eqb (fst kv) name) attrs).

(** [el.setAttribute(name, value)]: replaces the value in place or appends. *)
Fixpoint setAttribute (name value : string) (attrs : list (string * string))
  : list (string * string) :=
  match attrs with
  | [] => [(name, value)]
  | (k, v) :: r =>
      if String.eqb k name then (k, value) :: r else (k, v) :: setAttribute name value r
  end.

(** The tokens of a [class] attribute, separated by white space. *)
Fixpoint tokensFrom (current : string) (s : string) : list string :=
  match s with
  | EmptyString => if JS.truthy current then [current] else []
  | String c r =>
      if JS.isWhiteSpace c
      then (if JS.truthy current then [current] else []) ++ tokensFrom EmptyString r
      else tokensFrom (current +:+ String c EmptyString) r
  end.

Definition classList (attrs : list (string * string)) : list string :=
  match getAttribute "class" attrs with
  | Some v => tokensFrom EmptyString v
  | None => []
  end.

Definition hasClass (cls : string) (attrs : list (string * string)) : bool :=
  JS.arrayIncludes (classList attrs) cls.

Section Observers.
(** The browser's HTML parser, seen through the two observations used
    below: the text content of the parsed markup and the number of
    elements of the parsed markup a selector matches. *)
Variable htmlText : string -> string.
Variable selector : list (string * string) -> bool.
Variable htmlCount : string -> nat.

(** [node.textContent]. *)
Fixpoint textContent (n : node) : string :=
  match n with
  | Text s => s
  | Html m => htmlText m
  | Elem _ _ children => String.concat EmptyString (map textContent children)
  end.

(** Number of elements of the subtree whose attributes [selector]
    accepts: the length of [querySelectorAll], the root included. *)
Fixpoint countElements (n : node) : nat :=
  match n with
  | Text _ => 0
  | Html m => htmlCount m
  | Elem _ attrs children =>
      (if selector attrs then 1 else 0) + list_sum (map countElements children)
  end.

Definition textContentOf (children : list node) : string :=
  String.concat EmptyString (map textContent children).

Definition countElementsOf (children : list node) : nat :=
  list_sum (map countElements children).
End Observers.

(** The selectors [.card] and [[role=tabpanel]]. *)
Definition isCard (attrs : list (string * string)) : bool := hasClass "card" attrs.
Definition isTabPanel (attrs : list (string * string)) : bool :=
  match getAttribute "role" attrs with
  | Some r => String.eqb r "tabpanel"
  | None => false
  end.

(** [ attr="value"] inside a tag of a template literal. *)
Definition attr (name value : string) : string :=
  " " +:+ name +:+ "=" +:+ JS.quoted value.

(** [parent.appendChild(child)]. *)
Definition appendChild (child : node) (parent : node) : node :=
  match parent with
  | Elem tag attrs children => Elem tag attrs (children ++ [child])
  | other => other
  end.

(** Assignment to the [src] property of an image element. *)
Definition setSrc (url : string) (img : node) : node :=
  match img with
  | Elem tag attrs children => Elem tag (setAttribute "src" url attrs) children
  | other => other
  end.

(** The [src] attribute of an image element ([undefined] read as empty). *)
Definition srcAttribute (img : node) : string :=
  match img with
  | Elem _ attrs _ =>
      match getAttribute "src" attrs with
      | Some v => v
      | None => EmptyString
      end
  | _ => EmptyString
  end.

(** ** [classList]: the token list of the [class] attribute *)

(** The ordered set of a list of tokens: each token once, where it first
    stands. *)
Fixpoint orderedSet (l : list string) : list string :=
  match l with
  | [] => []
  | x :: r => x :: List.filter (fun y => negb (String.eqb y x)) (orderedSet r)
  end.

Definition tokenSet (attrs : list (string * string)) : list string :=
  orderedSet (classList attrs).

(** The update steps of a token list: the attribute becomes the tokens
    joined by single spaces; nothing is written when there is neither an
    attribute nor a token. *)
Definition updateClass (tokens : list string) (attrs : list (string * string))
  : list (string * string) :=
  match getAttribute "class" attrs, tokens with
  | None, [] => attrs
  | _, _ => setAttribute "class" (JS.join " " tokens) attrs
  end.

(** [classList.add(token)] and [classList.remove(token)]. *)
Definition classListAdd (token : string) (attrs : list (string * string))
  : list (string * string) :=
  let tokens := tokenSet attrs in
  updateClass (if JS.arrayIncludes tokens token then tokens else tokens ++ [token]) attrs.

Definition classListRemove (token : string) (attrs : list (string * string))
  : list (string * string) :=
  updateClass (List.filter (fun t => negb (String.eqb t token)) (tokenSet attrs)) attrs.

(** [classList.toggle(token)] and [classList.toggle(token, force)]. *)
Definition classListToggle (token : string) (attrs : list (string * string))
  : list (string * string) :=
  if JS.arrayIncludes (tokenSet attrs) token
  then classListRemove token attrs
  else classListAdd token attrs.

Definition classListToggleForce (token : string) (force : bool)
           (attrs : list (string * string)) : list (string * string) :=
  if force then classListAdd token attrs else classListRemove token attrs.

(** An operation on the attributes of an element, applied to a node. *)
Definition onAttributes (f : list (string * string) -> list (string * string)) (n : node)
  : node :=
  match n with
  | Elem tag attrs children => Elem tag (f attrs) children
  | other => other
  end.

Definition attributesOf (n : node) : list (string * string) :=
  match n with
  | Elem _ attrs _ => attrs
  | _ => []
  end.

(** [array.findIndex(pred)]: the index of the first element accepted, -1
    when there is none. *)
Fixpoint findIndex {A : Type} (pred : A -> bool) (l : list A) : Z :=
  match l with
  | [] => (-1)%Z
  | x :: r =>
      if pred x then 0%Z
      else let i := findIndex pred r in if (i <? 0)%Z then (-1)%Z else (i + 1)%Z
  end.

(** [array[i]] for a JS number [i]: [undefined] out of range. *)
Definition at_ {A : Type} (l : list A) (i : Z) : option A :=
  if (i <? 0)%Z then None else nth_error l (Z.to_nat i).

(** ** [decodeURIComponent] and [JSON.parse] *)

(** Both are partial: [None] stands for the URIError or SyntaxError the
    platform raises.  Bytes above 127 are taken as they are.  [JSON.parse]
    is modelled on the objects the scripts pass to it, whose members are
    all strings; an escape above [ÿ] is outside the model. *)
Module Decode.

Definition hexValue (c : ascii) : option nat :=
  let n := nat_of_ascii c in
  if (48 <=? n) && (n <=? 57) then Some (n - 48)
  else if (65 <=? n) && (n <=? 70) then Some (n - 55)
  else if (97 <=? n) && (n <=? 102) then Some (n - 87)
  else None.

(** [decodeURIComponent]. *)
Fixpoint decodeURIComponent (s : string) : option string :=
  match s with
  | EmptyString => Some EmptyString
  | String c r =>
      if Ascii.eqb c "%" then
        match r with
        | String h1 (String h2 r') =>
            match hexValue h1, hexValue h2 with
            | Some a, Some b =>
                option_map (String (ascii_of_nat (16 * a + b))) (decodeURIComponent r')
            | _, _ => None
            end
        | _ => None
        end
      else option_map (String c) (decodeURIComponent r)
  end.

(** White space between the tokens of a JSON text. *)
Fixpoint skipWs (s : string) : string :=
  match s with
  | EmptyString => EmptyString
  | String c r =>
      let n := nat_of_ascii c in
      if (n =? 32) || (n =? 9) || (n =? 10) || (n =? 13) then skipWs r else s
  end.

(** The characters of a string literal after its opening quote: the value
    and what follows the closing quote. *)
Fixpoint readString (s : string) : option (string * string) :=
  match s with
  | EmptyString => None
  | String c r =>
      let n := nat_of_ascii c in
      if n =? 34 then Some (EmptyString, r)
      else if n =? 92 then
        match r with
        | EmptyString => None
        | String e r' =>
            let k := nat_of_ascii e in
            let plain (x : nat) :=
              match readString r' with
              | Some (v, rest) => Some (String (ascii_of_nat x) v, rest)
              | None => None
              end in
            if k =? 34 then plain 34
            else if k =? 92 then plain 92
            else if k =? 47 then plain 47
            else if k =? 98 then plain 8
            else if k =? 102 then plain 12
            else if k =? 110 then plain 10
            else if k =? 114 then plain 13
            else if k =? 116 then plain 9
            else if k =? 117 then
              match r' with
              | String h1 (String h2 (String h3 (String h4 r''))) =>
                  match hexValue h1, hexValue h2, hexValue h3, hexValue h4 with
                  | Some a, Some b, Some c', Some d =>
                      if (a =? 0) && (b =? 0) then
                        match readString r'' with
                        | Some (v, rest) => Some (String (ascii_of_nat (16 * c' + d)) v, rest)
                        | None => None
                        end
                      else None
                  | _, _, _, _ => None
                  end
              | _ => None
              end
            else None
        end
      else if n <? 32 then None
      else
        match readString r with
        | Some (v, rest) => Some (String c v, rest)
        | None => None
        end
  end.

(** The members of an object after its opening brace or after a comma, up
    to the closing brace; [fuel] bounds the number of members. *)
Fixpoint readMembers (fuel : nat) (s : string) : option (list (string * string) * string) :=
  match fuel with
  | 0 => None
  | S fuel' =>
      match skipWs s with
      | String q r =>
          if negb (nat_of_ascii q =? 34) then None else
          match readString r with
          | None => None
          | Some (key, r1) =>
              match skipWs r1 with
              | String colon r2 =>
                  if negb (nat_of_ascii colon =? 58) then None else
                  match skipWs r2 with
                  | String q' r3 =>
                      if negb (nat_of_ascii q' =? 34) then None else
                      match readString r3 with
                      | None => None
                      | Some (value, r4) =>
                          match skipWs r4 with
                          | String sep r5 =>
                              if nat_of_ascii sep =? 125 then Some ([(key, value)], r5)
                              else if nat_of_ascii sep =? 44 then
                                match readMembers fuel' r5 with
                                | Some (members, rest) => Some ((key, value) :: members, rest)
                                | None => None
                                end
                              else None
                          | EmptyString => None
                          end
                      end
                  | EmptyString => None
                  end
              | EmptyString => None
              end
          end
      | EmptyString => None
      end
  end.

(** [JSON.parse] of the text of an object with string members: the members
    in the order of the text. *)
Definition parseObject (s : string) : option (list (string * string)) :=
  match skipWs s with
  | String brace r =>
      if negb (nat_of_ascii brace =? 123) then None else
      match skipWs r with
      | String c r' =>
          if nat_of_ascii c =? 125
          then (match skipWs r' with EmptyString => Some [] | _ => None end)
          else
            match readMembers (String.length s) r with
            | Some (members, rest) =>
                match skipWs rest with EmptyString => Some members | _ => None end
            | None => None
            end
      | EmptyString => None
      end
  | EmptyString => None
  end.

(** [object[key]] inside a template literal: the last member of that name
    wins, a missing one reads [undefined]. *)
Definition property (members : list (string * string)) (key : string) : string :=
  match List.find (fun kv => String.eqb (fst kv) key) (rev members) with
  | Some kv => snd kv
  | None => "undefined"
  end.

(** The card object [JSON.parse] returns, through the properties the
    scripts read. *)
Definition cardOf (members : list (string * string)) : Card :=
  mkCard (property members "id") (property members "es") (property members "en")
         (property members "def_es") (property members "def_en") (property members "img").

(** [JSON.parse(text)] read as a card. *)
Definition parseCard (text : string) : option Card :=
  option_map cardOf (parseObject text).

End Decode.

(** ** Markup as the HTML parser reads it *)

(** The value the parser gives an attribute written between apostrophes,
    from the markup that follows the opening one: the text up to the next
    apostrophe.  The texts this is applied to hold no ampersand, which
    would start a character reference. *)
Fixpoint singleQuotedValue (markup : string) : string :=
  match markup with
  | EmptyString => EmptyString
  | String c r =>
      if Ascii.eqb c "'" then EmptyString else String c (singleQuotedValue r)
  end.

(* ===================================================================== *)
(** * [src/assets/js/app.js] *)
(* ===================================================================== *)

Module AppJs.
Import JS.

(** The objects pushed on [results] by [handleSearch] (lines 376-386). *)
Inductive result :=
| SubjectResult (data : Subject)
| GroupResult (data : Group) (subjectId : string)
| CardResult (data : Card) (subjectId groupId : string).

(** Module variables (lines 15-27) and the parts of the page they reach.
    [imageCache] maps a property name to what [imageCache[name]] gives, for
    the properties the object inherits as for those the script stores; a
    name it does not map reads [undefined].  [requests] lists what the
    script itself sends, by [fetch] or through an [Image] object it
    creates; the loads the browser starts for the images of the page are
    not listed.  [baseURI] is the address against which the [src] property
    of an image resolves its attribute. *)
Record state := mkState {
  glossaryData : GlossaryDocument;
  currentSubjectId : option string;
  imageCache : gmap string string;
  subjectArea : list node;
  autocompleteList : list node;
  listHidden : bool;
  inputAriaExpanded : option bool;
  requests : list request;
  console : list string;
  baseURI : string }.

Definition withGlossaryData (v : GlossaryDocument) (st : state) : state :=
  mkState v (currentSubjectId st) (imageCache st) (subjectArea st) (autocompleteList st)
          (listHidden st) (inputAriaExpanded st) (requests st) (console st) (baseURI st).
Definition withCurrentSubjectId (v : option string) (st : state) : state :=
  mkState (glossaryData st) v (imageCache st) (subjectArea st) (autocompleteList st)
          (listHidden st) (inputAriaExpanded st) (requests st) (console st) (baseURI st).
Definition withImageCache (v : gmap string string) (st : state) : state :=
  mkState (glossaryData st) (currentSubjectId st) v (subjectArea st) (autocompleteList st)
          (listHidden st) (inputAriaExpanded st) (requests st) (console st) (baseURI st).
Definition withSubjectArea (v : list node) (st : state) : state :=
  mkState (glossaryData st) (currentSubjectId st) (imageCache st) v (autocompleteList st)
          (listHidden st) (inputAriaExpanded st) (requests st) (console st) (baseURI st).
Definition withAutocompleteList (v : list node) (st : state) : state :=
  mkState (glossaryData st) (currentSubjectId st) (imageCache st) (subjectArea st) v
          (listHidden st) (inputAriaExpanded st) (requests st) (console st) (baseURI st).
Definition withListHidden (v : bool) (st : state) : state :=
  mkState (glossaryData st) (currentSubjectId st) (imageCache st) (subjectArea st)
          (autocompleteList st) v (inputAriaExpanded st) (requests st) (console st) (baseURI st).
Definition withInputAriaExpanded (v : option bool) (st : state) : state :=
  mkState (glossaryData st) (currentSubjectId st) (imageCache st) (subjectArea st)
          (autocompleteList st) (listHidden st) v (requests st) (console st) (baseURI st).
Definition logRequest (r : request) (st : state) : state :=
  mkState (glossaryData st) (currentSubjectId st) (imageCache st) (subjectArea st)
          (autocompleteList st) (listHidden st) (inputAriaExpanded st)
          (requests st ++ [r]) (console st) (baseURI st).
Definition consoleError (msg : string) (st : state) : state :=
  mkState (glossaryData st) (currentSubjectId st) (imageCache st) (subjectArea st)
          (autocompleteList st) (listHidden st) (inputAriaExpanded st)
          (requests st) (console st ++ [msg]) (baseURI st).

(** What the object literal of line 27 inherits from [Object.prototype]:
    [imageCache[name]] is defined for these names before anything is
    stored.  All are built-in functions but [__proto__], which is
    [Object.prototype] itself.  A value of the cache is held as the string
    it converts to where the script uses it, as the [src] of an image. *)
Definition objectPrototype {platform : Platform} : list (string * string) :=
  [("constructor", nativeFunctionText "Object");
   ("__defineGetter__", nativeFunctionText "__defineGetter__");
   ("__defineSetter__", nativeFunctionText "__defineSetter__");
   ("hasOwnProperty", nativeFunctionText "hasOwnProperty");
   ("__lookupGetter__", nativeFunctionText "__lookupGetter__");
   ("__lookupSetter__", nativeFunctionText "__lookupSetter__");
   ("isPrototypeOf", nativeFunctionText "isPrototypeOf");
   ("propertyIsEnumerable", nativeFunctionText "propertyIsEnumerable");
   ("toString", nativeFunctionText "toString");
   ("valueOf", nativeFunctionText "valueOf");
   ("__proto__", "[object Object]");
   ("toLocaleString", nativeFunctionText "toLocaleString")].

(** The module as it stands when the script has been evaluated, on a page
    whose containers are empty. *)
Definition initial {platform : Platform} (base : string) : state :=
  mkState [] None (list_to_map objectPrototype) [] [] true None [] [] base.

(** [createEl] (lines 44-54).  An option left out is passed as the empty
    string: the guards treat [undefined] and the empty string alike. *)
Definition createEl (tag className id textContent : string)
           (attributes : list (string * string)) (children : list node) : node :=
  Elem tag
       ((if truthy className then [("class", className)] else []) ++
        (if truthy id then [("id", id)] else []) ++
        attributes)
       ((if truthy textContent then [Text textContent] else []) ++ children).

Definition placeholder : string := "assets/images/placeholder.png".

(** [safeImageUrl] (lines 89-107) as a call that nothing interleaves
    with; [probe] is what the HEAD request delivers when the function gets
    to issue it.  The returned pair is the value the promise resolves to
    and the state once it has. *)
Definition safeImageUrl (path : string) (probe : probeOutcome) (st : state)
  : string * state :=
  match imageCache st !! path with
  | Some cached => (cached, st)
  | None =>
      let st := logRequest (HEAD path) st in
      match probe with
      | ProbeOk => (path, withImageCache (<[path := path]> (imageCache st)) st)
      | ProbeNotOk | ProbeRejects =>
          (placeholder, withImageCache (<[path := placeholder]> (imageCache st)) st)
      end
  end.

(** The two halves of [safeImageUrl] around the [await] of line 97: up to
    the request (the cached value, or [None] once the HEAD request is
    issued), and from its answer on.  Between the two, other calls can
    run. *)
Definition safeImageUrlStart (path : string) (st : state) : option string * state :=
  match imageCache st !! path with
  | Some cached => (Some cached, st)
  | None => (None, logRequest (HEAD path) st)
  end.

Definition safeImageUrlSettle (path : string) (probe : probeOutcome) (st : state)
  : string * state :=
  match probe with
  | ProbeOk => (path, withImageCache (<[path := path]> (imageCache st)) st)
  | ProbeNotOk | ProbeRejects =>
      (placeholder, withImageCache (<[path := placeholder]> (imageCache st)) st)
  end.

Definition loadErrorMarkup : string :=
  "<p" +:+ attr "class" "error-message" +:+
  ">Error al cargar el contenido. Por favor, inténtelo de nuevo más tarde.</p>".

(** [loadData] (lines 117-131): the value the promise resolves to and the
    state once it has. *)
Definition loadData (response : fetchOutcome) (st : state) : GlossaryDocument * state :=
  let st := logRequest (GET "data/glossary.json") st in
  match response with
  | FetchOk data => (data, withGlossaryData data st)
  | FetchFails _ =>
      let st := consoleError "Error al cargar los datos del glosario:" st in
      ([], withSubjectArea [Html loadErrorMarkup] st)
  end.

(** [preloadImages] (lines 137-145). *)
Definition preloadImages (imagePaths : list string) (st : state) : state :=
  forEach imagePaths (fun path st =>
    if negb (match imageCache st !! path with Some v => truthy v | None => false end)
    then
      let st := logRequest (IMG path) st in
      withImageCache (<[path := path]> (imageCache st)) st
    else st) st.

(** [renderCard] (lines 215-262) together with the continuation of the
    promise it starts at line 229 and does not wait for: the card is given
    with its image as it stands once that promise has settled, and [probe]
    tells what the HEAD request for an address delivers.  The call and its
    continuation are taken as one step, with no other call of
    [safeImageUrl] between the request and its answer; what overlapping
    calls do to the cache is told by [safeImageUrlStart] and
    [safeImageUrlSettle].  The address the [src] property reads is the
    attribute appended to [baseURI], as the URL parser resolves a relative
    path that needs no escaping against the address of a directory. *)
Definition renderCard (probe : string -> probeOutcome) (cardData : Card) (st : state)
  : node * state :=
  let cardEl := createEl "div" "card" "" ""
                  [("tabindex", "0"); ("role", "button");
                   ("aria-label", "Tarjeta de " +:+ c_es cardData)] [] in
  let inner := createEl "div" "card__inner" "" "" [] [] in
  let front := createEl "div" "card__face card__face--front" "" "" [] [] in
  let wordFront := createEl "h4" "card__word" "" (c_es cardData) [] [] in
  let imageFront := createEl "img" "card__image" "" ""
                      [("src", "assets/images/" +:+ c_img cardData);
                       ("alt", c_es cardData)] [] in
  let imageSrc := baseURI st +:+ srcAttribute imageFront in
  let '(url, st) := safeImageUrl imageSrc (probe imageSrc) st in
  let imageFront := setSrc url imageFront in
  let front := appendChild wordFront front in
  let front := appendChild imageFront front in
  let inner := appendChild front inner in
  let back := createEl "div" "card__face card__face--back" "" "" [] [] in
  let wordBack := createEl "h4" "card__word" "" (c_en cardData) [] [] in
  let defEs := createEl "p" "card__definition" "" ("ES: " +:+ c_def_es cardData) [] [] in
  let defEn := createEl "p" "card__definition" "" ("EN: " +:+ c_def_en cardData) [] [] in
  let actions := createEl "div" "card__actions" "" "" [] [] in
  let expandBtn := createEl "button" "card__button" "" "Expandir"
                     [("aria-label", "Expandir la tarjeta de " +:+ c_es cardData)] [] in
  let actions := appendChild expandBtn actions in
  let back := appendChild wordBack back in
  let back := appendChild defEs back in
  let back := appendChild defEn back in
  let back := appendChild actions back in
  let inner := appendChild back inner in
  let cardEl := appendChild inner cardEl in
  (cardEl, st).

(** [renderGroup] (lines 191-208). *)
Definition renderGroup (probe : string -> probeOutcome) (group : Group) (st : state)
  : node * state :=
  let groupEl := createEl "section" "group" (g_id group) "" [] [] in
  let groupEl := appendChild (createEl "h3" "group__title" "" (g_title group) [] []) groupEl in
  let groupEl :=
    if 0 <? length (g_members group) then
      let membersList := createEl "p" "group__members" ""
                           ("Miembros: " +:+ join ", " (g_members group)) [] [] in
      appendChild membersList groupEl
    else groupEl in
  let cardsGrid := createEl "div" "cards-grid" "" "" [] [] in
  let '(cardsGrid, st) :=
    forEach (g_cards group) (fun card '(cardsGrid, st) =>
      let '(cardEl, st) := renderCard probe card st in
      (appendChild cardEl cardsGrid, st)) (cardsGrid, st) in
  let groupEl := appendChild cardsGrid groupEl in
  (groupEl, st).

(** [renderMateria] (lines 156-184). *)
Definition renderMateria (probe : string -> probeOutcome) (subjectId : string) (st : state)
  : state :=
  match arrayFind (fun s => String.eqb (s_id s) subjectId) (glossaryData st) with
  | None => consoleError ("Materia no encontrada: " +:+ subjectId) st
  | Some subject =>
      let st := withCurrentSubjectId (Some subjectId) st in
      let st := withSubjectArea [] st in
      let subjectContainer := createEl "div" "subject" "" "" [] [] in
      let header := createEl "div" "subject__header" "" "" [] [] in
      let header :=
        appendChild (createEl "h2" "subject__title" ""
                       (s_code subject +:+ " - " +:+ s_title subject) [] []) header in
      let header :=
        if truthy (s_description subject)
        then appendChild (createEl "p" "subject__description" ""
                            (s_description subject) [] []) header
        else header in
      let subjectContainer := appendChild header subjectContainer in
      let groupsContainer := createEl "div" "groups-container" "" "" [] [] in
      let '(groupsContainer, st) :=
        forEach (s_groups subject) (fun group '(groupsContainer, st) =>
          let '(groupEl, st) := renderGroup probe group st in
          (appendChild groupEl groupsContainer, st)) (groupsContainer, st) in
      let subjectContainer := appendChild groupsContainer subjectContainer in
      withSubjectArea (subjectArea st ++ [subjectContainer]) st
  end.

(** [JSON.stringify(item)], the key of line 393. *)
Definition stringify (item : result) : string :=
  match item with
  | SubjectResult data =>
      jsonObject [("type", jsonString "subject"); ("data", Json.subject data)]
  | GroupResult data subjectId =>
      jsonObject [("type", jsonString "group"); ("data", Json.group data);
                  ("subjectId", jsonString subjectId)]
  | CardResult data subjectId groupId =>
      jsonObject [("type", jsonString "card"); ("data", Json.card data);
                  ("subjectId", jsonString subjectId); ("groupId", jsonString groupId)]
  end.

(** The scan of lines 372-390. *)
Definition collectResults {platform : Platform} (query : string) (doc : GlossaryDocument)
  : list result :=
  forEach doc (fun subject results =>
    let results :=
      if includes (toLowerCase (s_title subject)) query
         || includes (toLowerCase (s_code subject)) query
      then push (SubjectResult subject) results else results in
    forEach (s_groups subject) (fun group results =>
      let results :=
        if includes (toLowerCase (g_title group)) query
        then push (GroupResult group (s_id subject)) results else results in
      forEach (g_cards group) (fun card results =>
        if includes (toLowerCase (c_es card)) query
           || includes (toLowerCase (c_en card)) query
        then push (CardResult card (s_id subject) (g_id group)) results
        else results) results) results) [].

(** Line 393: [[...new Map(results.map(item => [JSON.stringify(item), item])).values()]]. *)
Definition uniqueResults (results : list result) : list result :=
  JsMap.values (JsMap.ofEntries (map (fun item => (stringify item, item)) results)).

(** [item.data.title || item.data.es || item.data.en] (lines 400, 404).
    Where the chain ends on [undefined] the text is empty: [createEl]
    sets no text for either. *)
Definition displayText (item : result) : string :=
  match item with
  | SubjectResult data => s_title data
  | GroupResult data _ => g_title data
  | CardResult data _ _ => if truthy (c_es data) then c_es data else c_en data
  end.

(** The matches [handleSearch] shows for the value of the search box. *)
Definition search {platform : Platform} (inputValue : string) (doc : GlossaryDocument)
  : list result :=
  let query := toLowerCase inputValue in
  if stringLength query =? 0 then []
  else uniqueResults (collectResults query doc).

(** The body of the debounced [handleSearch] (lines 363-427). *)
Definition handleSearch {platform : Platform} (inputValue : string) (st : state) : state :=
  let query := toLowerCase inputValue in
  let st := withAutocompleteList [] st in
  if stringLength query =? 0 then withListHidden true st
  else
    let results := collectResults query (glossaryData st) in
    let uniqueResults := uniqueResults results in
    if 0 <? length uniqueResults then
      let st :=
        forEach uniqueResults (fun item st =>
          let listItem := createEl "li" "autocomplete__item" "" (displayText item)
                            [("role", "option")] [] in
          withAutocompleteList (autocompleteList st ++ [listItem]) st) st in
      let st := withListHidden false st in
      withInputAriaExpanded (Some true) st
    else
      let st := withListHidden true st in
      withInputAriaExpanded (Some false) st.

(** [init] (lines 470-489), listeners left out. *)
Definition init (response : fetchOutcome) (probe : string -> probeOutcome) (st : state)
  : state :=
  let '(_, st) := loadData response st in
  match glossaryData st with
  | first :: _ => renderMateria probe (s_id first) st
  | [] => st
  end.

(** [debounce] (lines 76-82) over a clock that counts milliseconds: the
    closure keeps the pending timer, here the time it is due at and the
    arguments it will pass; [calls] lists the arguments [fn] was applied to. *)
Record debounced (A : Type) := mkDebounced {
  now : nat;
  timer : option (nat * A);
  calls : list A }.
Arguments mkDebounced {A} now timer calls.
Arguments now {A} d.
Arguments timer {A} d.
Arguments calls {A} d.

(** A call of the function [debounce] returns: [clearTimeout] drops the
    pending timer and [setTimeout] sets a new one, due [ms] from now. *)
Definition debouncedCall {A : Type} (ms : nat) (args : A) (d : debounced A) : debounced A :=
  mkDebounced (now d) (Some (now d + ms, args)) (calls d).

(** The clock advances by [dt]; a timer that has come due runs [fn]. *)
Definition elapse {A : Type} (dt : nat) (d : debounced A) : debounced A :=
  match timer d with
  | Some (due, args) =>
      if due <=? now d + dt
      then mkDebounced (now d + dt) None (calls d ++ [args])
      else mkDebounced (now d + dt) (timer d) (calls d)
  | None => mkDebounced (now d + dt) None (calls d)
  end.

(** [handleFlip] (lines 333-335). *)
Definition handleFlip (cardEl : node) : node :=
  onAttributes (classListToggle "card--flipped") cardEl.

(** [el.removeAttribute(name)]. *)
Definition removeAttribute (name : string) (attrs : list (string * string))
  : list (string * string) :=
  List.filter (fun kv => negb (String.eqb (fst kv) name)) attrs.

(** The modal of the page: the attributes of [elements.cardModal], the
    children of [elements.modalBody], and whether the modal holds the
    focus. *)
Record modal := mkModal {
  cardModal : list (string * string);
  modalBody : list node;
  modalFocused : bool }.

(** The children [renderModalContent] appends (lines 271-313), the image
    with the source [url] the promise of line 279 resolved to. *)
Definition modalContent (url : string) (cardData : Card) : list node :=
  let modalImage := createEl "img" "modal__image" "" ""
                      [("src", "assets/images/" +:+ c_img cardData);
                       ("alt", "Imagen para la palabra " +:+ c_es cardData)] [] in
  let modalImage := setSrc url modalImage in
  let wordEs := createEl "p" "modal__word-es" "" ("ES: " +:+ c_es cardData) [] [] in
  let wordEn := createEl "p" "modal__word-en" "" ("EN: " +:+ c_en cardData) [] [] in
  let defEs := createEl "p" "modal__definition-es" "" (c_def_es cardData) [] [] in
  let defEn := createEl "p" "modal__definition-en" "" (c_def_en cardData) [] [] in
  let actions := createEl "div" "modal__actions" "" "" [] [] in
  let copyEsBtn := createEl "button" "card__button" "" "Copiar ES"
                     [("aria-label", "Copiar palabra y definición en español")] [] in
  let copyEnBtn := createEl "button" "card__button" "" "Copiar EN"
                     [("aria-label", "Copiar palabra y definición en inglés")] [] in
  let ttsBtn := createEl "button" "card__button" "" "Pronunciar"
                  [("aria-label", "Pronunciar palabra en ambos idiomas")] [] in
  let actions := appendChild copyEsBtn actions in
  let actions := appendChild copyEnBtn actions in
  let actions := appendChild ttsBtn actions in
  [modalImage; wordEs; wordEn; defEs; defEn; actions].

(** [renderModalContent] (lines 268-322) around the [await] of line 279:
    the body is emptied before the wait and filled after it. *)
Definition renderModalContentStart (m : modal) : modal :=
  mkModal (cardModal m) [] (modalFocused m).

Definition renderModalContentFinish (url : string) (cardData : Card) (m : modal) : modal :=
  mkModal (cardModal m) (modalBody m ++ modalContent url cardData) (modalFocused m).

(** [handleExpand] (lines 341-346) when nothing runs between the two halves
    of [renderModalContent]; [probe] is what the HEAD request for the image
    delivers. *)
Definition handleExpand (probe : string -> probeOutcome) (cardData : Card)
           (st : state) (m : modal) : state * modal :=
  let m := renderModalContentStart m in
  let imageSrc := baseURI st +:+ "assets/images/" +:+ c_img cardData in
  let '(url, st) := safeImageUrl imageSrc (probe imageSrc) st in
  let m := renderModalContentFinish url cardData m in
  let m := mkModal (classListAdd "modal--visible" (cardModal m)) (modalBody m) (modalFocused m) in
  let m := mkModal (removeAttribute "hidden" (cardModal m)) (modalBody m) (modalFocused m) in
  (st, mkModal (cardModal m) (modalBody m) true).

(** [handleModalClose] (lines 351-354). *)
Definition handleModalClose (m : modal) : modal :=
  let m := mkModal (classListRemove "modal--visible" (cardModal m)) (modalBody m)
                   (modalFocused m) in
  mkModal (setAttribute "hidden" "" (cardModal m)) (modalBody m) (modalFocused m).

(** The [keydown] listener of the window (lines 484-488). *)
Definition onWindowKeydown (key : string) (m : modal) : modal :=
  if String.eqb key "Escape" && hasClass "modal--visible" (cardModal m)
  then handleModalClose m else m.


(** Whether a list item carries the class of the active item. *)
Definition isActive (item : node) : bool :=
  hasClass "autocomplete__item--active" (attributesOf item).

(** What the [keydown] listener of the search box does (lines 433-456):
    nothing when the list is empty, a click on the active item for Enter
    (none when no item is active), otherwise the items with their classes
    and [aria-selected] rewritten and the value of [aria-activedescendant]. *)
Inductive keydownEffect :=
| NoItems
| EnterClicks (index : option nat)
| Rewritten (items : list node) (activedescendant : string).

Definition idOf (item : option node) : string :=
  match item with
  | Some el => match getAttribute "id" (attributesOf el) with Some v => v | None => "" end
  | None => ""
  end.

Definition onSearchKeydown (key : string) (items : list node) : keydownEffect :=
  let n := Z.of_nat (length items) in
  if (n =? 0)%Z then NoItems
  else
    let activeIndex := findIndex isActive items in
    if String.eqb key "Enter" then
      EnterClicks (match at_ items activeIndex with
                   | Some _ => Some (Z.to_nat activeIndex)
                   | None => None
                   end)
    else
      let activeIndex :=
        if String.eqb key "ArrowDown" then Z.rem (activeIndex + 1) n
        else if String.eqb key "ArrowUp" then Z.rem (activeIndex - 1 + n) n
        else activeIndex in
      Rewritten
        (map (fun '(index, item) =>
                let on := (Z.of_nat index =? activeIndex)%Z in
                let item :=
                  onAttributes (classListToggleForce "autocomplete__item--active" on) item in
                onAttributes (setAttribute "aria-selected" (if on then "true" else "false"))
                             item)
             (combine (seq 0 (length items)) items))
        (idOf (at_ items activeIndex)).

End AppJs.

(** [array.forEach((x, index) => body)]: the elements with their indices. *)
Definition indexed {A : Type} (l : list A) : list (nat * A) :=
  combine (seq 0 (length l)) l.

(* ===================================================================== *)
(** * First script of [src/unnamed/part_000] (lines 1-537) *)
(* ===================================================================== *)

(** Layout white space between the tags of a template literal is left out
    of the markup strings below. *)

Module PartA.
Import JS.

(** The objects pushed on [results] by [searchGlossary] (lines 406-428). *)
Record result := mkResult { r_type : string; r_id : string; r_text : string }.

(** Module variables (lines 18-19) and the parts of the page they reach.
    [metaContent] holds the [content] of the meta elements by the name or
    property the script selects them with; the page is taken to have them. *)
Record state := mkState {
  glossaryData : GlossaryDocument;
  currentMateria : option Subject;
  dynamicContent : list node;
  autocompleteList : list node;
  listAriaExpanded : option bool;
  autocompleteAttached : bool;
  documentTitle : string;
  metaContent : list (string * string);
  requests : list request;
  console : list string }.

Definition withGlossaryData (v : GlossaryDocument) (st : state) : state :=
  mkState v (currentMateria st) (dynamicContent st) (autocompleteList st)
          (listAriaExpanded st) (autocompleteAttached st) (documentTitle st)
          (metaContent st) (requests st) (console st).
Definition withCurrentMateria (v : option Subject) (st : state) : state :=
  mkState (glossaryData st) v (dynamicContent st) (autocompleteList st)
          (listAriaExpanded st) (autocompleteAttached st) (documentTitle st)
          (metaContent st) (requests st) (console st).
Definition withDynamicContent (v : list node) (st : state) : state :=
  mkState (glossaryData st) (currentMateria st) v (autocompleteList st)
          (listAriaExpanded st) (autocompleteAttached st) (documentTitle st)
          (metaContent st) (requests st) (console st).
Definition withAutocompleteList (v : list node) (st : state) : state :=
  mkState (glossaryData st) (currentMateria st) (dynamicContent st) v
          (listAriaExpanded st) (autocompleteAttached st) (documentTitle st)
          (metaContent st) (requests st) (console st).
Definition withListAriaExpanded (v : option bool) (st : state) : state :=
  mkState (glossaryData st) (currentMateria st) (dynamicContent st) (autocompleteList st)
          v (autocompleteAttached st) (documentTitle st)
          (metaContent st) (requests st) (console st).
Definition withAutocompleteAttached (v : bool) (st : state) : state :=
  mkState (glossaryData st) (currentMateria st) (dynamicContent st) (autocompleteList st)
          (listAriaExpanded st) v (documentTitle st)
          (metaContent st) (requests st) (console st).
Definition withDocumentTitle (v : string) (st : state) : state :=
  mkState (glossaryData st) (currentMateria st) (dynamicContent st) (autocompleteList st)
          (listAriaExpanded st) (autocompleteAttached st) v
          (metaContent st) (requests st) (console st).
Definition withMetaContent (v : list (string * string)) (st : state) : state :=
  mkState (glossaryData st) (currentMateria st) (dynamicContent st) (autocompleteList st)
          (listAriaExpanded st) (autocompleteAttached st) (documentTitle st)
          v (requests st) (console st).
Definition logRequest (r : request) (st : state) : state :=
  mkState (glossaryData st) (currentMateria st) (dynamicContent st) (autocompleteList st)
          (listAriaExpanded st) (autocompleteAttached st) (documentTitle st)
          (metaContent st) (requests st ++ [r]) (console st).
Definition consoleLog (msg : string) (st : state) : state :=
  mkState (glossaryData st) (currentMateria st) (dynamicContent st) (autocompleteList st)
          (listAriaExpanded st) (autocompleteAttached st) (documentTitle st)
          (metaContent st) (requests st) (console st ++ [msg]).

Definition initial : state := mkState [] None [] [] None false EmptyString [] [] [].

(** [createEl] (lines 40-58).  This script passes string (or numeric)
    options only, so the [children] and [dataset] branches are not taken;
    [setAttribute] on an HTML element lower-cases the name. *)
Definition createEl (tag : string) (options : list (string * string)) : node :=
  forEach options (fun '(key, value) el =>
    match el with
    | Elem t attrs children =>
        if String.eqb key "textContent"
        then Elem t attrs (if truthy value then [Text value] else [])
        else if String.eqb key "className"
        then Elem t (setAttribute "class" value attrs) children
        else Elem t (setAttribute (asciiLowerCase key) value attrs) children
    | other => other
    end) (Elem tag [] []).

(** [el.innerHTML = markup]. *)
Definition setInnerHTML (markup : string) (el : node) : node :=
  match el with
  | Elem t attrs _ => Elem t attrs (if truthy markup then [Html markup] else [])
  | other => other
  end.

(** [safeImageUrl] (lines 95-104): no request is made. *)
Definition safeImageUrl (path : string) : string :=
  let basePath := "assets/images/" in
  basePath +:+ path.

(** [updatePageMetadata] (lines 110-117). *)
Definition updatePageMetadata (title description : string) (st : state) : state :=
  let st := withDocumentTitle title st in
  let st := withMetaContent (setAttribute "description" description (metaContent st)) st in
  let st := withMetaContent (setAttribute "og:title" title (metaContent st)) st in
  let st := withMetaContent (setAttribute "og:description" description (metaContent st)) st in
  let st := withMetaContent (setAttribute "twitter:title" title (metaContent st)) st in
  withMetaContent (setAttribute "twitter:description" description (metaContent st)) st.

Definition loadErrorMarkup : string :=
  "<p>Error al cargar el contenido. Por favor, revisa la consola para más detalles.</p>".

(** [loadData] (lines 126-139): the state once the promise has settled. *)
Definition loadData (response : fetchOutcome) (st : state) : state :=
  let st := logRequest (GET "data/glossary.json") st in
  match response with
  | FetchOk data =>
      let st := withGlossaryData data st in
      let st := consoleLog "Datos del glosario cargados correctamente." st in
      withAutocompleteAttached true st
  | FetchFails _ =>
      let st := consoleLog "Error al cargar los datos:" st in
      withDynamicContent [Html loadErrorMarkup] st
  end.

Definition controlsMarkup (flipLabel : string) : string :=
  "<div" +:+ attr "class" "card__controls" +:+ ">" +:+
  "<button" +:+ attr "class" "card__btn js-flip-btn" +:+ attr "aria-label" flipLabel +:+
  ">Girar</button>" +:+
  "<button" +:+ attr "class" "card__btn js-expand-btn" +:+
  attr "aria-label" "Ampliar información" +:+ ">Ampliar</button>" +:+
  "</div>".

(** [renderCard] (lines 151-183). *)
Definition renderCard (card : Card) (slug : string) : node :=
  let cardEl := createEl "div" [("className", "card"); ("tabIndex", "0")] in
  let cardFront := createEl "div" [("className", "card-face card-front")] in
  let cardFront :=
    setInnerHTML
      ("<h4" +:+ attr "class" "card-front__word" +:+ ">" +:+ c_es card +:+ "</h4>" +:+
       "<img" +:+ attr "class" "card-front__thumbnail" +:+
       attr "src" ("assets/images/" +:+ c_img card) +:+ attr "alt" (c_es card) +:+ ">" +:+
       controlsMarkup "Girar tarjeta") cardFront in
  let cardBack := createEl "div" [("className", "card-face card-back")] in
  let cardBack :=
    setInnerHTML
      ("<h4" +:+ attr "class" "card-back__word" +:+ ">" +:+ c_en card +:+ "</h4>" +:+
       "<img" +:+ attr "class" "card-back__image" +:+
       attr "src" ("assets/images/" +:+ c_img card) +:+ attr "alt" (c_es card) +:+ ">" +:+
       "<p" +:+ attr "class" "card-back__def-es" +:+ ">" +:+ c_def_es card +:+ "</p>" +:+
       "<p" +:+ attr "class" "card-back__def-en" +:+ ">" +:+ c_def_en card +:+ "</p>" +:+
       controlsMarkup "Girar de nuevo") cardBack in
  let cardEl := appendChild cardFront cardEl in
  let cardEl := appendChild cardBack cardEl in
  match cardEl with
  | Elem t attrs children =>
      Elem t (setAttribute "data-card-data" (Json.card card) attrs) children
  | other => other
  end.

(** [renderGroup] (lines 191-204). *)
Definition renderGroup (group : Group) (slug : string) : node :=
  let groupSection := createEl "section" [("className", "group-section")] in
  let header := createEl "div" [("className", "group-section__header")] in
  let header :=
    setInnerHTML ("<h3>" +:+ g_title group +:+ "</h3><span>Grupo: " +:+
                  join ", " (g_members group) +:+ "</span>") header in
  let cardsContainer := createEl "div" [("className", "group-section__cards")] in
  let cardsContainer :=
    forEach (g_cards group) (fun card cardsContainer =>
      appendChild (renderCard card slug) cardsContainer) cardsContainer in
  let groupSection := appendChild header groupSection in
  let groupSection := appendChild cardsContainer groupSection in
  groupSection.

(** [renderWindow] (lines 212-227). *)
Definition renderWindow (windowData : Window) (materiaData : Subject) : node :=
  let windowEl := createEl "div" [("id", "window-" +:+ w_id windowData);
                                  ("className", "materia__tab-content");
                                  ("role", "tabpanel")] in
  forEach (w_groups windowData) (fun groupId windowEl =>
    match arrayFind (fun g => String.eqb (g_id g) groupId) (s_groups materiaData) with
    | Some group => appendChild (renderGroup group (s_id materiaData)) windowEl
    | None => windowEl
    end) windowEl.

Definition notFoundMarkup : string :=
  "<p>Lo sentimos, la materia no fue encontrada.</p>".

(** Line 278: [querySelector] finds the first element of the class in
    document order, which is the first panel appended to the container;
    elements are shared by reference, so the attribute shows in the
    container wherever it is attached. *)
Definition showFirstPanel (windowsContainer : node) : node :=
  match windowsContainer with
  | Elem t attrs (Elem pt pattrs pchildren :: rest) =>
      Elem t attrs (Elem pt (setAttribute "aria-hidden" "false" pattrs) pchildren :: rest)
  | other => other
  end.

(** [renderMateria] (lines 233-289); the listeners of [attachTabEvents]
    and [attachCardEvents] hold no state of their own and are left out. *)
Definition renderMateria (materiaId : string) (st : state) : state :=
  match arrayFind (fun m => String.eqb (s_id m) materiaId) (glossaryData st) with
  | None =>
      let st := consoleLog ("Materia no encontrada: " +:+ materiaId) st in
      withDynamicContent [Html notFoundMarkup] st
  | Some materia =>
      let st := withCurrentMateria (Some materia) st in
      let st := withDynamicContent [] st in
      let st := updatePageMetadata (s_title materia +:+ " | Portal Académico")
                                   (s_description materia) st in
      let materiaContainer := createEl "div" [("className", "materia-container")] in
      let header := createEl "header" [("className", "materia-header")] in
      let header :=
        setInnerHTML ("<h1>" +:+ s_code materia +:+ " - " +:+ s_title materia +:+ "</h1>" +:+
                      "<p>" +:+ s_description materia +:+ "</p>") header in
      let materiaContainer := appendChild header materiaContainer in
      let materiaContainer :=
        match s_windows materia with
        | Some ((_ :: _) as windows) =>
            let tabsContainer :=
              createEl "div" [("className", "materia__tabs"); ("role", "tablist")] in
            let windowsContainer := createEl "div" [("className", "materia__windows")] in
            let '(tabsContainer, windowsContainer) :=
              forEach (indexed windows) (fun '(index, windowData) '(tabs, wins) =>
                let tabBtn :=
                  createEl "button"
                    [("className", "materia__tab-button"); ("role", "tab");
                     ("id", "tab-" +:+ w_id windowData);
                     ("aria-controls", "window-" +:+ w_id windowData);
                     ("aria-selected", if index =? 0 then "true" else "false");
                     ("textContent", w_title windowData)] in
                (appendChild tabBtn tabs,
                 appendChild (renderWindow windowData materia) wins))
                (tabsContainer, windowsContainer) in
            let windowsContainer := showFirstPanel windowsContainer in
            let materiaContainer := appendChild tabsContainer materiaContainer in
            appendChild windowsContainer materiaContainer
        | _ =>
            forEach (s_groups materia) (fun group materiaContainer =>
              appendChild (renderGroup group (s_id materia)) materiaContainer)
              materiaContainer
        end in
      withDynamicContent (dynamicContent st ++ [materiaContainer]) st
  end.

(** The scan of [searchGlossary] (lines 399-432). *)
Definition collectResults {platform : JS.Platform}
           (lowerQuery : string) (doc : GlossaryDocument) : list result :=
  forEach doc (fun materia results =>
    let results :=
      if includes (toLowerCase (s_code materia)) lowerQuery
         || includes (toLowerCase (s_title materia)) lowerQuery
      then push (mkResult "materia" (s_id materia)
                          (s_code materia +:+ " - " +:+ s_title materia)) results
      else results in
    forEach (s_groups materia) (fun group results =>
      let results :=
        if includes (toLowerCase (g_title group)) lowerQuery
        then push (mkResult "grupo" (s_id materia)
                            ("Grupo: " +:+ quoted (g_title group) +:+ " en " +:+
                             s_code materia)) results
        else results in
      forEach (g_cards group) (fun card results =>
        if includes (toLowerCase (c_es card)) lowerQuery
           || includes (toLowerCase (c_en card)) lowerQuery
        then push (mkResult "tarjeta" (s_id materia)
                            ("Término: " +:+ quoted (c_es card) +:+ " en " +:+
                             s_code materia)) results
        else results) results) results) [].

(** [searchGlossary] (lines 399-436), over the cached document. *)
Definition searchGlossary {platform : JS.Platform}
           (query : string) (doc : GlossaryDocument) : list result :=
  let lowerQuery := toLowerCase query in
  slice0 10 (collectResults lowerQuery doc).

(** [updateAutocompleteList] (lines 442-459). *)
Definition updateAutocompleteList (results : list result) (st : state) : state :=
  let st := withAutocompleteList [] st in
  if length results =? 0 then withListAriaExpanded (Some false) st
  else
    let st := withListAriaExpanded (Some true) st in
    forEach (indexed results) (fun '(index, result) st =>
      let li := createEl "li" [("role", "option");
                               ("id", "result-" +:+ natToString index);
                               ("textContent", r_text result);
                               ("data-id", r_id result)] in
      withAutocompleteList (autocompleteList st ++ [li]) st) st.

(** The matches the input handler shows for the value of the search box. *)
Definition search {platform : JS.Platform}
           (inputValue : string) (doc : GlossaryDocument) : list result :=
  let query := trim inputValue in
  if 2 <? stringLength query then searchGlossary query doc else [].

(** The body of [debouncedSearch] (lines 465-473). *)
Definition debouncedSearch {platform : JS.Platform} (inputValue : string) (st : state) : state :=
  let query := trim inputValue in
  if 2 <? stringLength query then
    let results := searchGlossary query (glossaryData st) in
    updateAutocompleteList results st
  else updateAutocompleteList [] st.

(** The modal of the page: the attributes of [DOMElements.modal], the
    markup of [DOMElements.modalBody], and whether the modal holds the
    focus. *)
Record modal := mkModal {
  modalAttrs : list (string * string);
  modalBody : string;
  modalFocused : bool }.

(** The markup [showModal] writes (lines 355-369). *)
Definition modalMarkup (card : Card) : string :=
  "<img" +:+ attr "class" "modal-body__img" +:+ attr "src" ("assets/images/" +:+ c_img card) +:+
  attr "alt" (c_es card) +:+ ">" +:+
  "<h3" +:+ attr "class" "modal-body__word-es" +:+ ">" +:+ c_es card +:+ "</h3>" +:+
  "<h4" +:+ attr "class" "modal-body__word-en" +:+ ">" +:+ c_en card +:+ "</h4>" +:+
  "<div" +:+ attr "class" "modal-body__def" +:+ ">" +:+
  "<p><strong>Español:</strong> " +:+ c_def_es card +:+ "</p>" +:+
  "<p><strong>English:</strong> " +:+ c_def_en card +:+ "</p>" +:+
  "</div>" +:+
  "<div" +:+ attr "class" "modal-body__controls" +:+ ">" +:+
  "<button" +:+ attr "class" "modal-body__btn js-copy-es" +:+ ">Copiar ES</button>" +:+
  "<button" +:+ attr "class" "modal-body__btn js-copy-en" +:+ ">Copiar EN</button>" +:+
  "<button" +:+ attr "class" "modal-body__btn js-speak" +:+
  attr "aria-label" "Pronunciar en español" +:+ ">🔊 ES</button>" +:+
  "<button" +:+ attr "class" "modal-body__btn js-speak-en" +:+
  attr "aria-label" "Pronunciar en inglés" +:+ ">🔊 EN</button>" +:+
  "</div>".

(** [showModal] (lines 354-381), listeners left out. *)
Definition showModal (card : Card) (m : modal) : modal :=
  mkModal (classListAdd "modal--open" (modalAttrs m)) (modalMarkup card) true.

(** [hideModal] (lines 386-388). *)
Definition hideModal (m : modal) : modal :=
  mkModal (classListRemove "modal--open" (modalAttrs m)) (modalBody m) (modalFocused m).

(** Where a click on a card lands, as the [closest] calls of lines 301-309
    tell it apart: on a flip button, on an expand button, elsewhere on a
    face, or on the card outside its faces. *)
Inductive clickTarget := OnFlipButton | OnExpandButton | OnFace | OnCardItself.

(** The [click] listener [attachCardEvents] puts on a card (lines 300-313).
    [JSON.parse] raises a SyntaxError on a text that is not JSON. *)
Definition onCardClick (target : clickTarget) (card : node) (m : modal)
  : completion (node * modal) :=
  match target with
  | OnFlipButton | OnFace => Normal (onAttributes (classListToggle "card--flipped") card, m)
  | OnExpandButton =>
      let text := match getAttribute "data-card-data" (attributesOf card) with
                  | Some v => v
                  | None => "undefined"
                  end in
      match Decode.parseCard text with
      | Some cardData => Normal (card, showModal cardData m)
      | None => Throw "SyntaxError: JSON.parse" (card, m)
      end
  | OnCardItself => Normal (card, m)
  end.

(** The [mousedown] listener of the list (lines 491-499) for the list item
    under the pointer, given by its attributes and its text: the value
    written to the search box and the state.  A list item without [data-id]
    passes [undefined], which no subject has for id. *)
Definition onListMousedown (itemAttrs : list (string * string)) (itemText : string)
           (st : state) : string * state :=
  let st :=
    match getAttribute "data-id" itemAttrs with
    | Some materiaId => renderMateria materiaId st
    | None =>
        let st := consoleLog "Materia no encontrada: undefined" st in
        withDynamicContent [Html notFoundMarkup] st
    end in
  let st := withListAriaExpanded (Some false) st in
  (itemText, st).

End PartA.

(* ===================================================================== *)
(** * Second script of [src/unnamed/part_000] (lines 538-1004) *)
(* ===================================================================== *)

Module PartB.
Import JS.

(** The objects pushed on [results] by [handleSearch] (lines 789-798);
    a key the object literal does not have is [None]. *)
Record result := mkResult {
  r_type : string; r_text : string;
  r_id : option string; r_materiaId : option string;
  r_groupId : option string; r_cardId : option string }.

(** The module variable [glossaryData] (line 554, [null] at first) and the
    parts of the page the script writes.  The containers are written
    through [innerHTML] only, so they are held as markup. *)
Record state := mkState {
  glossaryData : option GlossaryDocument;
  searchResults : string;
  comboboxAriaExpanded : option bool;
  searchLiveRegion : string;
  dynamicContentArea : string;
  documentTitle : string;
  metaDescription : string;
  listenersAttached : bool;
  requests : list request;
  console : list string }.

Definition withGlossaryData (v : option GlossaryDocument) (st : state) : state :=
  mkState v (searchResults st) (comboboxAriaExpanded st) (searchLiveRegion st)
          (dynamicContentArea st) (documentTitle st) (metaDescription st)
          (listenersAttached st) (requests st) (console st).
Definition withSearchResults (v : string) (st : state) : state :=
  mkState (glossaryData st) v (comboboxAriaExpanded st) (searchLiveRegion st)
          (dynamicContentArea st) (documentTitle st) (metaDescription st)
          (listenersAttached st) (requests st) (console st).
Definition withComboboxAriaExpanded (v : option bool) (st : state) : state :=
  mkState (glossaryData st) (searchResults st) v (searchLiveRegion st)
          (dynamicContentArea st) (documentTitle st) (metaDescription st)
          (listenersAttached st) (requests st) (console st).
Definition withSearchLiveRegion (v : string) (st : state) : state :=
  mkState (glossaryData st) (searchResults st) (comboboxAriaExpanded st) v
          (dynamicContentArea st) (documentTitle st) (metaDescription st)
          (listenersAttached st) (requests st) (console st).
Definition withDynamicContentArea (v : string) (st : state) : state :=
  mkState (glossaryData st) (searchResults st) (comboboxAriaExpanded st)
          (searchLiveRegion st) v (documentTitle st) (metaDescription st)
          (listenersAttached st) (requests st) (console st).
Definition withDocumentTitle (v : string) (st : state) : state :=
  mkState (glossaryData st) (searchResults st) (comboboxAriaExpanded st)
          (searchLiveRegion st) (dynamicContentArea st) v (metaDescription st)
          (listenersAttached st) (requests st) (console st).
Definition withMetaDescription (v : string) (st : state) : state :=
  mkState (glossaryData st) (searchResults st) (comboboxAriaExpanded st)
          (searchLiveRegion st) (dynamicContentArea st) (documentTitle st) v
          (listenersAttached st) (requests st) (console st).
Definition withListenersAttached (v : bool) (st : state) : state :=
  mkState (glossaryData st) (searchResults st) (comboboxAriaExpanded st)
          (searchLiveRegion st) (dynamicContentArea st) (documentTitle st)
          (metaDescription st) v (requests st) (console st).
Definition logRequest (r : request) (st : state) : state :=
  mkState (glossaryData st) (searchResults st) (comboboxAriaExpanded st)
          (searchLiveRegion st) (dynamicContentArea st) (documentTitle st)
          (metaDescription st) (listenersAttached st) (requests st ++ [r]) (console st).
Definition consoleError (msg : string) (st : state) : state :=
  mkState (glossaryData st) (searchResults st) (comboboxAriaExpanded st)
          (searchLiveRegion st) (dynamicContentArea st) (documentTitle st)
          (metaDescription st) (listenersAttached st) (requests st) (console st ++ [msg]).

Definition initial : state :=
  mkState None EmptyString None EmptyString EmptyString EmptyString EmptyString
          false [] [].

Definition loadErrorMarkup : string :=
  "<p" +:+ attr "class" "error" +:+
  ">No se pudo cargar el contenido. Por favor, intente de nuevo más tarde.</p>".

(** [loadData] (lines 575-591): the value the promise resolves to and the
    state once it has.  An array, empty or not, is truthy at line 576. *)
Definition loadData (response : fetchOutcome) (st : state) : GlossaryDocument * state :=
  match glossaryData st with
  | Some cached => (cached, st)
  | None =>
      let st := logRequest (GET "data/glossary.json") st in
      match response with
      | FetchOk data => (data, withGlossaryData (Some data) st)
      | FetchFails _ =>
          let st := consoleError "Error al cargar el glosario:" st in
          ([], withDynamicContentArea loadErrorMarkup st)
      end
  end.

Definition placeholder : string := "assets/images/placeholder.png".

(** The inline handler of lines 683 and 711. *)
Definition onerrorHandler : string :=
  "this.src='" +:+ placeholder +:+ "'; this.onerror=null;".

(** An image element of the card markup: its source and whether the
    [onerror] handler is still set. *)
Record image := mkImage { image_src : string; image_onerror : bool }.

(** What the handler does when the browser fires [error] on the image. *)
Definition errorEvent (img : image) : image :=
  if image_onerror img then mkImage placeholder false else img.

(** The thumbnail of [renderCard] (lines 673, 683) as the parser builds it. *)
Definition thumbnail (card : Card) : image :=
  mkImage ("assets/images/" +:+ c_img card) true.

Definition actionsMarkup (cardData : string) : string :=
  "<div" +:+ attr "class" "card__actions" +:+ ">" +:+
  "<button" +:+ attr "class" "card__btn js-flip-btn" +:+ attr "aria-label" "Girar tarjeta" +:+
  ">Girar</button>" +:+
  "<button" +:+ attr "class" "card__btn js-expand-btn" +:+
  attr "aria-label" "Ampliar tarjeta" +:+ " data-card='" +:+ cardData +:+ "'>Ampliar</button>" +:+
  "</div>".

(** [button.dataset.card] of an expand button as the parser reads it from
    [actionsMarkup cardData] (lines 686, 695): the attribute is written
    between apostrophes, so the value stops at the first apostrophe of the
    text. *)
Definition datasetCard (cardData : string) : string :=
  singleQuotedValue (cardData +:+ "'>Ampliar</button>" +:+ "</div>").

(** [renderCard] (lines 672-701). *)
Definition renderCard {platform : JS.Platform} (card : Card) (group : Group) : string :=
  let imgPath := "assets/images/" +:+ c_img card in
  let cardData := encodeURIComponent (Json.card card) in
  "<div" +:+ attr "class" "card" +:+ attr "role" "region" +:+
  attr "aria-label" ("Tarjeta de estudio para " +:+ c_es card) +:+ ">" +:+
  "<div" +:+ attr "class" "card__inner" +:+ ">" +:+
  "<div" +:+ attr "class" "card__front" +:+ ">" +:+
  "<h4" +:+ attr "class" "card__term" +:+ ">" +:+ c_es card +:+ "</h4>" +:+
  "<img" +:+ attr "src" imgPath +:+ attr "alt" (c_es card) +:+
  attr "class" "card__thumbnail" +:+ attr "loading" "lazy" +:+
  attr "onerror" onerrorHandler +:+ ">" +:+
  actionsMarkup cardData +:+
  "</div>" +:+
  "<div" +:+ attr "class" "card__back" +:+ ">" +:+
  "<h4" +:+ attr "class" "card__term card__term--en" +:+ ">" +:+ c_en card +:+ "</h4>" +:+
  "<p" +:+ attr "class" "card__def" +:+ "><strong>ES:</strong> " +:+
  substring0 50 (c_def_es card) +:+ "...</p>" +:+
  "<p" +:+ attr "class" "card__def" +:+ "><strong>EN:</strong> " +:+
  substring0 50 (c_def_en card) +:+ "...</p>" +:+
  actionsMarkup cardData +:+
  "</div>" +:+
  "</div>" +:+
  "</div>".

(** [renderGroup] (lines 654-664). *)
Definition renderGroup {platform : JS.Platform} (group : Group) : string :=
  let cardsHTML := join "" (map (fun card => renderCard card group) (g_cards group)) in
  "<section" +:+ attr "class" "materia__group" +:+ attr "id" (g_id group) +:+ ">" +:+
  "<h3" +:+ attr "class" "materia__group-title" +:+ ">" +:+ g_title group +:+ "</h3>" +:+
  "<div" +:+ attr "class" "cards-grid" +:+ ">" +:+ cardsHTML +:+ "</div>" +:+
  "</section>".

(** Line 621: the groups of the subject a window names, in the order of
    the subject. *)
Definition groupsInWindow (materia : Subject) (window : Window) : list Group :=
  List.filter (fun g => arrayIncludes (w_groups window) (g_id g)) (s_groups materia).

(** One tab button of [windowsHTML] (lines 614-618). *)
Definition tabMarkup (index : nat) (window : Window) : string :=
  "<button" +:+
  attr "class" ("materia__tab " +:+ (if index =? 0 then "materia__tab--active" else "")) +:+
  attr "role" "tab" +:+
  attr "aria-selected" (if index =? 0 then "true" else "false") +:+
  attr "aria-controls" ("window-" +:+ w_id window) +:+
  attr "data-target" ("window-" +:+ w_id window) +:+ ">" +:+
  w_title window +:+ "</button>".

(** One panel of [contentHTML] (lines 620-628). *)
Definition panelMarkup {platform : JS.Platform}
           (materia : Subject) (index : nat) (window : Window) : string :=
  let groupsHTML := join "" (map renderGroup (groupsInWindow materia window)) in
  "<div" +:+ attr "id" ("window-" +:+ w_id window) +:+
  attr "class" ("materia__window " +:+
                (if index =? 0 then "materia__window--active" else "")) +:+
  attr "role" "tabpanel" +:+ ">" +:+ groupsHTML +:+ "</div>".

Definition materiaMarkup {platform : JS.Platform}
           (materia : Subject) (windows : list Window) : string :=
  let windowsHTML :=
    join "" (map (fun '(index, window) => tabMarkup index window) (indexed windows)) in
  let contentHTML :=
    join "" (map (fun '(index, window) => panelMarkup materia index window)
                 (indexed windows)) in
  "<article" +:+ attr "class" "materia" +:+ attr "id" (s_id materia) +:+ ">" +:+
  "<header" +:+ attr "class" "materia__header" +:+ ">" +:+
  "<span" +:+ attr "class" "materia__code" +:+ ">" +:+ s_code materia +:+ "</span>" +:+
  "<h2" +:+ attr "class" "materia__title" +:+ ">" +:+ s_title materia +:+ "</h2>" +:+
  "<p" +:+ attr "class" "materia__description" +:+ ">" +:+ s_description materia +:+ "</p>" +:+
  "</header>" +:+
  "<div" +:+ attr "class" "materia__tabs" +:+ attr "role" "tablist" +:+ ">" +:+
  windowsHTML +:+ "</div>" +:+
  "<div" +:+ attr "class" "materia__content" +:+ ">" +:+ contentHTML +:+ "</div>" +:+
  "</article>".

(** [renderMateria] (lines 601-647).  Reading [find] of [null] and [map]
    of [undefined] raise a TypeError. *)
Definition renderMateria {platform : JS.Platform}
           (materiaId : string) (st : state) : completion state :=
  match glossaryData st with
  | None => Throw "TypeError: Cannot read properties of null (reading 'find')" st
  | Some doc =>
      match arrayFind (fun m => String.eqb (s_id m) materiaId) doc with
      | None =>
          Normal (consoleError ("Materia con id " +:+ quoted materiaId +:+
                                " no encontrada.") st)
      | Some materia =>
          let st := withDocumentTitle (s_title materia +:+ " | Portal Académico") st in
          let st := withMetaDescription (s_description materia) st in
          match s_windows materia with
          | None =>
              Throw "TypeError: Cannot read properties of undefined (reading 'map')" st
          | Some windows =>
              Normal (withDynamicContentArea (materiaMarkup materia windows) st)
          end
      end
  end.

(** [clearSearchResults] (lines 931-934). *)
Definition clearSearchResults (st : state) : state :=
  let st := withSearchResults EmptyString st in
  withComboboxAriaExpanded (Some false) st.

(** [a || b] on two optional strings inside a template literal. *)
Definition orElse (a b : option string) : string :=
  let other := match b with Some s => s | None => "undefined" end in
  match a with
  | Some s => if truthy s then s else other
  | None => other
  end.

Definition noResultsMarkup : string :=
  "<li" +:+ attr "class" "search-combobox__result-item--no-results" +:+
  ">No se encontraron resultados.</li>".

Definition resultMarkup (r : result) : string :=
  "<li" +:+ attr "class" "search-combobox__result-item" +:+ attr "role" "option" +:+
  attr "data-materia-id" (orElse (r_materiaId r) (r_id r)) +:+
  attr "data-group-id" (orElse (r_groupId r) (Some EmptyString)) +:+ ">" +:+
  r_text r +:+ "</li>".

(** [renderSearchResults] (lines 940-952). *)
Definition renderSearchResults (results : list result) (st : state) : state :=
  let st :=
    if length results =? 0 then withSearchResults noResultsMarkup st
    else withSearchResults (join EmptyString (map resultMarkup results)) st in
  let st := withComboboxAriaExpanded (Some true) st in
  withSearchLiveRegion (natToString (length results) +:+ " resultados encontrados.") st.

(** The scan of [handleSearch] (lines 785-802). *)
Definition collectResults {platform : JS.Platform}
           (query : string) (doc : GlossaryDocument) : list result :=
  forEach doc (fun materia results =>
    let results :=
      if includes (toLowerCase (s_title materia)) query
         || includes (toLowerCase (s_code materia)) query
      then push (mkResult "materia" (s_code materia +:+ " - " +:+ s_title materia)
                          (Some (s_id materia)) None None None) results
      else results in
    forEach (s_groups materia) (fun group results =>
      let results :=
        if includes (toLowerCase (g_title group)) query
           && negb (existsb (fun r => String.eqb (r_text r) (g_title group)) results)
        then push (mkResult "grupo" (g_title group +:+ " (en " +:+ s_title materia +:+ ")")
                            None (Some (s_id materia)) (Some (g_id group)) None) results
        else results in
      forEach (g_cards group) (fun card results =>
        if (includes (toLowerCase (c_es card)) query
            || includes (toLowerCase (c_en card)) query)
           && negb (existsb (fun r => String.eqb (r_text r) (c_es card)) results)
        then push (mkResult "tarjeta" (c_es card +:+ " / " +:+ c_en card)
                            None (Some (s_id materia)) (Some (g_id group))
                            (Some (c_id card))) results
        else results) results) results) [].

(** The matches [handleSearch] shows for the value of the search box. *)
Definition search {platform : JS.Platform}
           (inputValue : string) (doc : GlossaryDocument) : list result :=
  let query := trim (toLowerCase inputValue) in
  if stringLength query <? 2 then []
  else slice0 10 (collectResults query doc).

(** [handleSearch] (lines 778-805), the function the input listener
    debounces.  [forEach] of [null] raises a TypeError. *)
Definition handleSearch {platform : JS.Platform}
           (inputValue : string) (st : state) : completion state :=
  let query := trim (toLowerCase inputValue) in
  if stringLength query <? 2 then Normal (clearSearchResults st)
  else
    match glossaryData st with
    | None => Throw "TypeError: Cannot read properties of null (reading 'forEach')" st
    | Some doc =>
        let results := collectResults query doc in
        Normal (renderSearchResults (slice0 10 results) st)
    end.

(** [init] (lines 997-1000). *)
Definition init (response : fetchOutcome) (st : state) : state :=
  let '(_, st) := loadData response st in
  withListenersAttached true st.

(** A list item of the search results as the handlers read it: its
    [aria-selected] attribute and the two entries of its [dataset]. *)
Record listItem := mkListItem {
  li_ariaSelected : option string;
  li_materiaId : option string;
  li_groupId : option string }.

(** [renderMateria(item.dataset.materiaId)]: a list item without the
    attribute passes [undefined], which no subject has for id. *)
Definition renderMateriaOf {platform : JS.Platform}
           (materiaId : option string) (st : state) : completion state :=
  match materiaId with
  | Some id => renderMateria id st
  | None =>
      match glossaryData st with
      | None => Throw "TypeError: Cannot read properties of null (reading 'find')" st
      | Some _ => Normal (consoleError ("Materia con id " +:+ quoted "undefined" +:+
                                        " no encontrada.") st)
      end
  end.

(** [handleSearchResultClick] (lines 842-859) for the list item clicked: the
    id looked up 100 ms later to scroll to, if any, and the state; the
    search box is emptied at the end.  An error raised by [renderMateria]
    ends the handler there. *)
Definition handleSearchResultClick {platform : JS.Platform} (item : listItem) (st : state)
  : completion (option string * state) :=
  match renderMateriaOf (li_materiaId item) st with
  | Throw error st' => Throw error (None, st')
  | Normal st' =>
      let scroll := match li_groupId item with
                    | Some g => if truthy g then Some g else None
                    | None => None
                    end in
      Normal (scroll, clearSearchResults st')
  end.

(** The index line 813-817 ends on: that of the last item whose
    [aria-selected] is [true], -1 when there is none. *)
Definition selectedIndex (items : list listItem) : Z :=
  forEach (combine (seq 0 (length items)) items)
          (fun '(index, item) activeIndex =>
             match li_ariaSelected item with
             | Some v => if String.eqb v "true" then Z.of_nat index else activeIndex
             | None => activeIndex
             end) (-1)%Z.

(** The [click] listener of the document (lines 747-751) for a click
    whose target is not inside the search box. *)
Definition onDocumentClick (st : state) : state := clearSearchResults st.

(** [handleSearchKeystrokes] (lines 808-839): the list items and the state
    it leaves.  Enter clicks the selected item: the click runs
    [handleSearchResultClick] and then, the item being outside the search
    box, the listener of the document, which empties the list; an error the
    first listener raises is reported by the browser and is the completion
    here.  Escape empties the list too. *)
Definition handleSearchKeystrokes {platform : JS.Platform}
           (key : string) (items : list listItem) (st : state)
  : completion (list listItem * state) :=
  let n := Z.of_nat (length items) in
  if (n =? 0)%Z then Normal (items, st)
  else
    let activeIndex := selectedIndex items in
    if String.eqb key "ArrowDown" || String.eqb key "ArrowUp" then
      let activeIndex :=
        if String.eqb key "ArrowDown" then Z.rem (activeIndex + 1) n
        else Z.rem (activeIndex - 1 + n) n in
      Normal (map (fun '(index, item) =>
                     mkListItem (Some (if (Z.of_nat index =? activeIndex)%Z
                                       then "true" else "false"))
                                (li_materiaId item) (li_groupId item))
                  (combine (seq 0 (length items)) items), st)
    else if String.eqb key "Enter" then
      if (-1 <? activeIndex)%Z then
        match at_ items activeIndex with
        | Some item =>
            match handleSearchResultClick item st with
            | Normal (_, st') => Normal ([], onDocumentClick st')
            | Throw error (_, st') => Throw error ([], onDocumentClick st')
            end
        | None => Throw "TypeError: Cannot read properties of undefined (reading 'click')"
                        (items, st)
        end
      else Normal (items, st)
    else if String.eqb key "Escape" then Normal ([], clearSearchResults st)
    else Normal (items, st).

(** The list items the browser builds from the markup of
    [renderSearchResults] (lines 940-952), for results whose ids hold no
    double quote or ampersand, which would end the attribute or start a
    character reference, and whose text holds no markup. *)
Definition listItemsOf (results : list result) : list listItem :=
  if length results =? 0 then [mkListItem None None None]
  else map (fun r => mkListItem None (Some (orElse (r_materiaId r) (r_id r)))
                                (Some (orElse (r_groupId r) (Some EmptyString)))) results.

(** [handleFlip] (lines 862-865) on the attributes of the card the button
    stands in. *)
Definition handleFlip (cardAttrs : list (string * string)) : list (string * string) :=
  classListToggle "card--flipped" cardAttrs.

(** The modal of the page: its [hidden] property, the markup of its body,
    and whether the close button holds the focus. *)
Record modal := mkModal {
  modalHidden : bool;
  modalBody : string;
  closeBtnFocused : bool }.

(** The markup [renderModal] writes (lines 707-732). *)
Definition modalMarkup (card : Card) : string :=
  let imgPath := "assets/images/" +:+ c_img card in
  "<div" +:+ attr "class" "modal-card" +:+ ">" +:+
  "<img" +:+ attr "src" imgPath +:+ attr "alt" (c_es card) +:+
  attr "class" "modal-card__image" +:+ attr "onerror" onerrorHandler +:+ ">" +:+
  "<div" +:+ attr "class" "modal-card__details" +:+ ">" +:+
  "<h3" +:+ attr "id" "modal-title" +:+ attr "class" "modal-card__term" +:+ ">" +:+
  c_es card +:+ "</h3>" +:+
  "<p" +:+ attr "class" "modal-card__term--en" +:+ ">" +:+ c_en card +:+ "</p>" +:+
  "<div" +:+ attr "class" "modal-card__def" +:+ ">" +:+
  "<h4>Definición (ES)</h4>" +:+ "<p>" +:+ c_def_es card +:+ "</p>" +:+ "</div>" +:+
  "<div" +:+ attr "class" "modal-card__def" +:+ ">" +:+
  "<h4>Definition (EN)</h4>" +:+ "<p>" +:+ c_def_en card +:+ "</p>" +:+ "</div>" +:+
  "</div>" +:+
  "<div" +:+ attr "class" "modal-card__controls" +:+ ">" +:+
  "<button" +:+ attr "class" "modal-card__btn" +:+
  attr "data-clipboard-text" (c_es card) +:+ ">Copiar ES</button>" +:+
  "<button" +:+ attr "class" "modal-card__btn" +:+
  attr "data-clipboard-text" (c_en card) +:+ ">Copiar EN</button>" +:+
  "<button" +:+ attr "class" "modal-card__btn" +:+
  attr "title" "Función de pronunciación no implementada aún." +:+ ">Pronunciación</button>" +:+
  "</div>" +:+
  "</div>".

(** [handleExpand] (lines 868-872) with [renderModal] and [openModal], for
    the [dataset.card] of the button; a missing entry passes [undefined]. *)
Definition handleExpand (datasetCard : option string) (m : modal) : completion modal :=
  let encoded := match datasetCard with Some v => v | None => "undefined" end in
  match Decode.decodeURIComponent encoded with
  | None => Throw "URIError: URI malformed" m
  | Some text =>
      match Decode.parseCard text with
      | None => Throw "SyntaxError: JSON.parse" m
      | Some cardData => Normal (mkModal false (modalMarkup cardData) true)
      end
  end.

(** [closeModal] (lines 961-963). *)
Definition closeModal (m : modal) : modal :=
  mkModal true (modalBody m) (closeBtnFocused m).

End PartB.

(* ===================================================================== *)
(** * Vocabulary of the statements *)
(* ===================================================================== *)

(** [q] occurs in [field] as a contiguous run of characters. *)
Definition occursIn (q field : string) : Prop :=
  exists pre post, field = pre +:+ q +:+ post.

(** The entity of the document a match stands for. *)
Inductive source :=
| FromSubject (s : Subject)
| FromGroup (s : Subject) (g : Group)
| FromCard (s : Subject) (g : Group) (c : Card).

Definition sourceIn (doc : GlossaryDocument) (src : source) : Prop :=
  match src with
  | FromSubject s => In s doc
  | FromGroup s g => In s doc /\ In g (s_groups s)
  | FromCard s g c => In s doc /\ In g (s_groups s) /\ In c (g_cards g)
  end.

(** The query [q] occurs in a lower-cased source field of the entity:
    subject title or code, group title, either term of the card. *)
Definition sourceMatches {platform : JS.Platform} (q : string) (src : source) : Prop :=
  match src with
  | FromSubject s =>
      occursIn q (JS.toLowerCase (s_title s)) \/ occursIn q (JS.toLowerCase (s_code s))
  | FromGroup _ g => occursIn q (JS.toLowerCase (g_title g))
  | FromCard _ _ c =>
      occursIn q (JS.toLowerCase (c_es c)) \/ occursIn q (JS.toLowerCase (c_en c))
  end.

(** The match each script builds for an entity. *)
Definition AppJs_resultOf (src : source) : AppJs.result :=
  match src with
  | FromSubject s => AppJs.SubjectResult s
  | FromGroup s g => AppJs.GroupResult g (s_id s)
  | FromCard s g c => AppJs.CardResult c (s_id s) (g_id g)
  end.

Definition PartA_resultOf (src : source) : PartA.result :=
  match src with
  | FromSubject s =>
      PartA.mkResult "materia" (s_id s) (s_code s +:+ " - " +:+ s_title s)
  | FromGroup s g =>
      PartA.mkResult "grupo" (s_id s)
                     ("Grupo: " +:+ JS.quoted (g_title g) +:+ " en " +:+ s_code s)
  | FromCard s g c =>
      PartA.mkResult "tarjeta" (s_id s)
                     ("Término: " +:+ JS.quoted (c_es c) +:+ " en " +:+ s_code s)
  end.

Definition PartB_resultOf (src : source) : PartB.result :=
  match src with
  | FromSubject s =>
      PartB.mkResult "materia" (s_code s +:+ " - " +:+ s_title s)
                     (Some (s_id s)) None None None
  | FromGroup s g =>
      PartB.mkResult "grupo" (g_title g +:+ " (en " +:+ s_title s +:+ ")")
                     None (Some (s_id s)) (Some (g_id g)) None
  | FromCard s g c =>
      PartB.mkResult "tarjeta" (c_es c +:+ " / " +:+ c_en c)
                     None (Some (s_id s)) (Some (g_id g)) (Some (c_id c))
  end.

(** A match is justified when it is the match of an entity of the document
    one of whose source fields contains the query. *)
Definition justified {platform : JS.Platform} {R : Type} (resultOf : source -> R) (q : string)
           (doc : GlossaryDocument) (r : R) : Prop :=
  exists src, sourceIn doc src /\ r = resultOf src /\ sourceMatches q src.

Definition exampleCard : Card := mkCard "c1" "hola" "hello" "saludo" "greeting" "c1.png".
Definition exampleGroup : Group := mkGroup "G1" "Basics" [] [exampleCard].
Definition exampleSubject : Subject :=
  mkSubject "S1" "101" "Intro" EmptyString [exampleGroup] None.

(** The document of the examples of the specification. *)
Definition exampleDoc : GlossaryDocument := [exampleSubject].

(** The same subject with a second group that holds the same card. *)
Definition repeatedCardDoc : GlossaryDocument :=
  [mkSubject "S1" "101" "Intro" EmptyString
             [exampleGroup; mkGroup "G2" "More" [] [exampleCard]] None].

(** Eleven subjects, all titled alike. *)
Definition elevenSubjectsDoc : GlossaryDocument :=
  map (fun n => mkSubject ("S" +:+ natToString n) ("10" +:+ natToString n) "Redes"
                          EmptyString [] None) (seq 0 11).

(** C1 as stated, read on app.js with the smallest minimum the claim names:
    an input of fewer than two characters yields no match and an empty
    list. *)
Definition short_query_clears_AppJs {platform : JS.Platform} : Prop :=
  forall (v : string) (st : AppJs.state),
    JS.stringLength v < 2 ->
    AppJs.search v (AppJs.glossaryData st) = [] /\
    AppJs.autocompleteList (AppJs.handleSearch v st) = [].

(** C2 as stated, for a script whose matches are shown with [display]. *)
Definition capped_and_distinct {R : Type} (search : string -> GlossaryDocument -> list R)
           (display : R -> string) : Prop :=
  forall (v : string) (doc : GlossaryDocument),
    length (search v doc) <= 10 /\ List.NoDup (map display (search v doc)).

Definition glossaryUrl : string := "data/glossary.json".

(** The state a call leaves, whether it returned or raised. *)
Definition stateOf {S : Type} (c : completion S) : S :=
  match c with Normal st => st | Throw _ st => st end.

(** C4 as stated, read on app.js: after a successful call, a second call
    returns the same document and makes no request. *)
Definition load_memoized_AppJs : Prop :=
  forall (st : AppJs.state) (d : GlossaryDocument) (second : fetchOutcome),
    let '(d1, st1) := AppJs.loadData (FetchOk d) st in
    let '(d2, st2) := AppJs.loadData second st1 in
    d2 = d1 /\ AppJs.requests st2 = AppJs.requests st1.

(** C5 as stated: an unknown id is signalled to the caller, read on the
    second script of part_000, whose [renderMateria] can raise; and a
    placeholder takes the place of the subject content, read on app.js. *)
Definition unknown_id_signalled_PartB {platform : JS.Platform} : Prop :=
  forall (id : string) (doc : GlossaryDocument) (st : PartB.state),
    PartB.glossaryData st = Some doc -> ~ In id (map s_id doc) ->
    exists error st', PartB.renderMateria id st = Throw error st'.

Definition unknown_id_placeholder_AppJs : Prop :=
  forall (probe : string -> probeOutcome) (id : string) (st : AppJs.state),
    ~ In id (map s_id (AppJs.glossaryData st)) ->
    exists markup, AppJs.subjectArea (AppJs.renderMateria probe id st) = [Html markup].

(** The state of app.js once the example document is loaded and its first
    subject rendered, every image being found. *)
Definition AppJs_exampleRendered {platform : JS.Platform} : AppJs.state :=
  AppJs.init (FetchOk exampleDoc) (fun _ => ProbeOk) (AppJs.initial "http://localhost/").

(** Every entry of the cache maps a path to itself or to the placeholder,
    or is one of those the object inherits. *)
Definition cacheSound {platform : JS.Platform} (cache : gmap string string) : Prop :=
  forall path v, cache !! path = Some v ->
    v = path \/ v = AppJs.placeholder \/ In (path, v) AppJs.objectPrototype.

(** [cache'] is sound and still holds every entry of [cache]. *)
Definition cacheGrows {platform : JS.Platform} (cache cache' : gmap string string) : Prop :=
  cacheSound cache' /\ forall path v, cache !! path = Some v -> cache' !! path = Some v.

(** The calls that can change the state of app.js, and a run of them. *)
Inductive operation :=
| OpLoad (response : fetchOutcome)
| OpPreload (paths : list string)
| OpResolve (path : string) (probe : probeOutcome)
| OpRender (probe : string -> probeOutcome) (subjectId : string)
| OpSearch (inputValue : string).

Definition runOp {platform : JS.Platform} (op : operation) (st : AppJs.state) : AppJs.state :=
  match op with
  | OpLoad response => snd (AppJs.loadData response st)
  | OpPreload paths => AppJs.preloadImages paths st
  | OpResolve path probe => snd (AppJs.safeImageUrl path probe st)
  | OpRender probe subjectId => AppJs.renderMateria probe subjectId st
  | OpSearch inputValue => AppJs.handleSearch inputValue st
  end.

Definition run {platform : JS.Platform} (ops : list operation) (st : AppJs.state) : AppJs.state :=
  forEach ops runOp st.

(** A HEAD request for [path] is among the requests sent. *)
Definition headSent (path : string) (st : AppJs.state) : bool :=
  existsb (fun r => match r with HEAD url => String.eqb url path | _ => false end)
          (AppJs.requests st).

(** What can happen to the state of app.js when calls of [safeImageUrl]
    overlap: a whole call, the first half of a [safeImageUrl], or the answer
    to a HEAD request, on which the second half of the call that sent it
    runs.  An answer comes for a request that was sent only. *)
Inductive event :=
| Call (op : operation)
| ProbeStarts (path : string)
| ProbeAnswers (path : string) (probe : probeOutcome).

Definition runEvent {platform : JS.Platform} (e : event) (st : AppJs.state) : AppJs.state :=
  match e with
  | Call op => runOp op st
  | ProbeStarts path => snd (AppJs.safeImageUrlStart path st)
  | ProbeAnswers path probe =>
      if headSent path st then snd (AppJs.safeImageUrlSettle path probe st) else st
  end.

Definition runEvents {platform : JS.Platform}
           (events : list event) (st : AppJs.state) : AppJs.state :=
  forEach events runEvent st.

(** The entries the cache object inherits are as they were, and no HEAD
    request was sent for their names. *)
Definition inheritedKept {platform : JS.Platform} (st : AppJs.state) : Prop :=
  forall name v, In (name, v) AppJs.objectPrototype ->
    AppJs.imageCache st !! name = Some v /\ headSent name st = false.

(** The image resolution as claimed: whatever the path, [safeImageUrl]
    returns that path or the placeholder. *)
Definition resolves_to_path_or_placeholder {platform : JS.Platform} : Prop :=
  forall (base path : string) (probe : probeOutcome),
    fst (AppJs.safeImageUrl path probe (AppJs.initial base)) = path \/
    fst (AppJs.safeImageUrl path probe (AppJs.initial base)) = AppJs.placeholder.

(** And as claimed: once a value is cached for a path, that value is what
    every later call for the path returns. *)
Definition cached_value_is_final {platform : JS.Platform} : Prop :=
  forall (base path v : string) (before later : list event) (probe : probeOutcome),
    AppJs.imageCache (runEvents before (AppJs.initial base)) !! path = Some v ->
    fst (AppJs.safeImageUrl path probe
           (runEvents later (runEvents before (AppJs.initial base)))) = v.

(** [render] applied to the elements of [l] in order, the state threaded
    through: the nodes produced and the state left. *)
Fixpoint renderAll {A : Type} (render : A -> AppJs.state -> node * AppJs.state)
         (l : list A) (st : AppJs.state) : list node * AppJs.state :=
  match l with
  | [] => ([], st)
  | x :: rest =>
      let '(n, st1) := render x st in
      let '(ns, st2) := renderAll render rest st1 in
      (n :: ns, st2)
  end.

(** The selector of the elements whose [src] attribute is [url]. *)
Definition srcIs (url : string) (attrs : list (string * string)) : bool :=
  match getAttribute "src" attrs with
  | Some u => String.eqb u url
  | None => false
  end.

(** The card element around an image whose source is [url]. *)
Definition cardElement (url : string) (c : Card) : node :=
  AppJs.createEl "div" "card" EmptyString EmptyString
    [("tabindex", "0"); ("role", "button"); ("aria-label", "Tarjeta de " +:+ c_es c)]
    [AppJs.createEl "div" "card__inner" EmptyString EmptyString []
       [AppJs.createEl "div" "card__face card__face--front" EmptyString EmptyString []
          [AppJs.createEl "h4" "card__word" EmptyString (c_es c) [] [];
           AppJs.createEl "img" "card__image" EmptyString EmptyString
             [("src", url); ("alt", c_es c)] []];
        AppJs.createEl "div" "card__face card__face--back" EmptyString EmptyString []
          [AppJs.createEl "h4" "card__word" EmptyString (c_en c) [] [];
           AppJs.createEl "p" "card__definition" EmptyString ("ES: " +:+ c_def_es c) [] [];
           AppJs.createEl "p" "card__definition" EmptyString ("EN: " +:+ c_def_en c) [] [];
           AppJs.createEl "div" "card__actions" EmptyString EmptyString []
             [AppJs.createEl "button" "card__button" EmptyString "Expandir"
                [("aria-label", "Expandir la tarjeta de " +:+ c_es c)] []]]]].

(** The text of a card, of a group and of a subject as app.js shows them. *)
Definition cardText (c : Card) : string :=
  c_es c +:+ c_en c +:+ ("ES: " +:+ c_def_es c) +:+ ("EN: " +:+ c_def_en c) +:+ "Expandir".

Definition groupText (g : Group) : string :=
  g_title g +:+
  (if 0 <? length (g_members g) then "Miembros: " +:+ JS.join ", " (g_members g)
   else EmptyString) +:+
  String.concat EmptyString (map cardText (g_cards g)).

Definition subjectText (s : Subject) : string :=
  (s_code s +:+ " - " +:+ s_title s) +:+ s_description s +:+
  String.concat EmptyString (map groupText (s_groups s)).

(** The number of cards of a subject. *)
Definition cardsOf (s : Subject) : nat :=
  list_sum (map (fun g => length (g_cards g)) (s_groups s)).

(** The group element around the rendered cards, and the subject element
    around the rendered groups. *)
Definition groupElement (g : Group) (cards : list node) : node :=
  AppJs.createEl "section" "group" (g_id g) EmptyString []
    ([AppJs.createEl "h3" "group__title" EmptyString (g_title g) [] []] ++
     (if 0 <? length (g_members g)
      then [AppJs.createEl "p" "group__members" EmptyString
              ("Miembros: " +:+ JS.join ", " (g_members g)) [] []]
      else []) ++
     [AppJs.createEl "div" "cards-grid" EmptyString EmptyString [] cards]).

Definition subjectElement (s : Subject) (groups : list node) : node :=
  AppJs.createEl "div" "subject" EmptyString EmptyString []
    [AppJs.createEl "div" "subject__header" EmptyString EmptyString []
       ([AppJs.createEl "h2" "subject__title" EmptyString
           (s_code s +:+ " - " +:+ s_title s) [] []] ++
        (if JS.truthy (s_description s)
         then [AppJs.createEl "p" "subject__description" EmptyString (s_description s) [] []]
         else []));
     AppJs.createEl "div" "groups-container" EmptyString EmptyString [] groups].

(** What a call of the second script's [renderMateria] leaves in the
    content area when it returns; [None] when it raises. *)
Definition renderedMarkup (c : completion PartB.state) : option string :=
  match c with
  | Normal st => Some (PartB.dynamicContentArea st)
  | Throw _ _ => None
  end.

(** C8 as stated, read on the first script of part_000: whatever images
    exist, a missing one resolves to the placeholder. *)
Definition missing_image_falls_back_PartA : Prop :=
  forall (available : string -> bool) (path : string),
    available ("assets/images/" +:+ path) = false ->
    PartA.safeImageUrl path = "assets/images/placeholder.png".

(** The groups a window of the first script of part_000 shows: for each id
    the window lists, in that order, the first group of the subject with
    that id, if any. *)
Definition panelGroups (m : Subject) (w : Window) : list Group :=
  flat_map (fun groupId =>
              match arrayFind (fun g => String.eqb (g_id g) groupId) (s_groups m) with
              | Some g => [g]
              | None => []
              end) (w_groups w).

(** The tab button, the panel and the header the first script of part_000
    builds; the panel of index 0 is the one marked as not hidden. *)
Definition PartA_tab (index : nat) (w : Window) : node :=
  Elem "button"
       [("class", "materia__tab-button"); ("role", "tab"); ("id", "tab-" +:+ w_id w);
        ("aria-controls", "window-" +:+ w_id w);
        ("aria-selected", if index =? 0 then "true" else "false")]
       (if JS.truthy (w_title w) then [Text (w_title w)] else []).

Definition PartA_panel (m : Subject) (index : nat) (w : Window) : node :=
  Elem "div"
       ([("id", "window-" +:+ w_id w); ("class", "materia__tab-content");
         ("role", "tabpanel")] ++
        (if index =? 0 then [("aria-hidden", "false")] else []))
       (map (fun g => PartA.renderGroup g (s_id m)) (panelGroups m w)).

Definition PartA_header (m : Subject) : node :=
  Elem "header" [("class", "materia-header")]
       [Html ("<h1>" +:+ s_code m +:+ " - " +:+ s_title m +:+ "</h1>" +:+
              "<p>" +:+ s_description m +:+ "</p>")].

(** C6 as stated, read on app.js: a subject with windows is rendered with
    one tab panel per window. *)
Definition panel_per_window_AppJs : Prop :=
  forall (probe : string -> probeOutcome) (id : string) (s : Subject) (ws : list Window)
         (st : AppJs.state),
    arrayFind (fun x => String.eqb (s_id x) id) (AppJs.glossaryData st) = Some s ->
    s_windows s = Some ws ->
    countElementsOf isTabPanel (fun _ => 0)
                    (AppJs.subjectArea (AppJs.renderMateria probe id st)) = length ws.

(** The example subject with its one group placed in the first of two
    windows. *)
Definition firstWindow : Window := mkWindow "w1" "Unidad 1" ["G1"].
Definition secondWindow : Window := mkWindow "w2" "Unidad 2" [].
Definition windowedSubject : Subject :=
  mkSubject "S1" "101" "Intro" EmptyString [exampleGroup] (Some [firstWindow; secondWindow]).
Definition windowedDoc : GlossaryDocument := [windowedSubject].

(** A string without white space, and a token of a [class] attribute: a
    non-empty string without white space. *)
Fixpoint noWhiteSpace (s : string) : bool :=
  match s with
  | EmptyString => true
  | String c r => negb (JS.isWhiteSpace c) && noWhiteSpace r
  end.

Definition isToken (s : string) : bool := JS.truthy s && noWhiteSpace s.

(** An element node, as [querySelectorAll] returns them. *)
Definition isElement (n : node) : Prop :=
  match n with
  | Elem _ _ _ => True
  | _ => False
  end.

(** The index an arrow key moves the active item to in a list of [n] items
    whose active index is [a], -1 when none is active: one step down or up,
    wrapping around; with no active item, down lands on the first item and
    up on the last but one (on the only item when there is just one). *)
Definition arrowTarget (down : bool) (a n : Z) : Z :=
  if down then (if (a =? n - 1)%Z then 0 else a + 1)%Z
  else if (a =? -1)%Z then (if (n =? 1)%Z then 0 else n - 2)%Z
  else if (a =? 0)%Z then (n - 1)%Z
  else (a - 1)%Z.

(** A burst of calls of a debounced function: each call passes its
    arguments and is followed by a wait. *)
Definition burst {A : Type} (ms : nat) (steps : list (A * nat)) (d : AppJs.debounced A)
  : AppJs.debounced A :=
  forEach steps (fun '(args, gap) d => AppJs.elapse gap (AppJs.debouncedCall ms args d)) d.

(** The text the duplicate guards of the second script of part_000 compare
    with (lines 791 and 796): the title of the group, the Spanish term of
    the card; the subjects have no guard. *)
Definition guardText (src : source) : option string :=
  match src with
  | FromSubject _ => None
  | FromGroup _ g => Some (g_title g)
  | FromCard _ _ c => Some (c_es c)
  end.

(** [src] is listed in [results], or a result whose text is the text its
    guard compares with. *)
Definition listedOrGuarded (src : source) (results : list PartB.result) : Prop :=
  In (PartB_resultOf src) results \/
  exists (text : string) (r : PartB.result),
    guardText src = Some text /\ In r results /\ PartB.r_text r = text.

(** The subject an entity of the document belongs to. *)
Definition subjectOf (src : source) : Subject :=
  match src with
  | FromSubject s => s
  | FromGroup s _ => s
  | FromCard s _ _ => s
  end.


(** A list item of the second script of part_000 carries a result when its
    [dataset] holds the two ids [renderSearchResults] writes for it
    (line 945). *)
Definition carries (r : PartB.result) (item : PartB.listItem) : Prop :=
  PartB.li_materiaId item = Some (PartB.orElse (PartB.r_materiaId r) (PartB.r_id r)) /\
  PartB.li_groupId item = Some (PartB.orElse (PartB.r_groupId r) (Some EmptyString)).


(** The list item [updateAutocompleteList] of the first script of part_000
    builds for the result of index [index] (lines 451-456). *)
Definition PartA_listItem (index : nat) (r : PartA.result) : node :=
  PartA.createEl "li" [("role", "option");
                       ("id", "result-" +:+ natToString index);
                       ("textContent", PartA.r_text r);
                       ("data-id", PartA.r_id r)].

(** The text of the members of an object after its opening brace, as
    [JSON.stringify] writes it. *)
Fixpoint membersText (members : list (string * string)) : string :=
  match members with
  | [] => "}"
  | kv :: rest =>
      JS.jsonString (fst kv) +:+ ":" +:+ JS.jsonString (snd kv) +:+
      match rest with
      | [] => "}"
      | _ :: _ => "," +:+ membersText rest
      end
  end.

(** Every image of the subject has an entry in the cache under the address
    its element resolves to, as is the case once the probes of an earlier
    rendering of the subject have all been answered. *)
Definition imagesResolved (s : Subject) (st : AppJs.state) : Prop :=
  forall (g : Group) (c : Card), In g (s_groups s) -> In c (g_cards g) ->
    is_Some (AppJs.imageCache st !! (AppJs.baseURI st +:+ "assets/images/" +:+ c_img c)).

(** The state of app.js once the example document is loaded and the probe
    of the image of its card has been sent and answered. *)
Definition AppJs_exampleResolved {platform : JS.Platform} : AppJs.state :=
  runEvents [Call (OpLoad (FetchOk exampleDoc));
             ProbeStarts "http://localhost/assets/images/c1.png";
             ProbeAnswers "http://localhost/assets/images/c1.png" ProbeNotOk]
            (AppJs.initial "http://localhost/").

(** A card whose English term holds an apostrophe. *)
Definition apostropheCard : Card :=
  mkCard "c2" "algoritmo de Dijkstra" "Dijkstra's algorithm"
         "camino de menor coste" "path of least cost" "c2.png".

(** From here on a statement without a platform of its own is read on
    [JS.asciiPlatform]: these are the examples, on ASCII text. *)
#[global] Existing Instance JS.asciiPlatform.

(* ===================================================================== *)
(** * Facts about the platform functions *)
(* ===================================================================== *)

Example json_card_example :
  Json.card (mkCard "c1" "hola" "hello" "saludo" "greeting" "c1.png") =
  "{" +:+ JS.quoted "id" +:+ ":" +:+ JS.quoted "c1" +:+ "," +:+
  JS.quoted "es" +:+ ":" +:+ JS.quoted "hola" +:+ "," +:+
  JS.quoted "en" +:+ ":" +:+ JS.quoted "hello" +:+ "," +:+
  JS.quoted "def_es" +:+ ":" +:+ JS.quoted "saludo" +:+ "," +:+
  JS.quoted "def_en" +:+ ":" +:+ JS.quoted "greeting" +:+ "," +:+
  JS.quoted "img" +:+ ":" +:+ JS.quoted "c1.png" +:+ "}".
Proof. vm_compute. reflexivity. Qed.

Example trim_lower_example : JS.trim (JS.toLowerCase "  Ho La ") = "ho la".
Proof. vm_compute. reflexivity. Qed.

Example includes_example :
  JS.includes "intro" "tr" = true /\ JS.includes "intro" "ti" = false /\
  JS.includes "intro" "" = true.
Proof. vm_compute. auto. Qed.

Lemma forEach_ind {A S : Type} (P : S -> Prop) (body : A -> S -> S) (l : list A) :
  forall s, P s -> (forall x acc, In x l -> P acc -> P (body x acc)) ->
            P (forEach l body s).
Proof.
  unfold forEach. induction l as [|a l IH]; intros s Hs Hstep; simpl.
  - exact Hs.
  - apply IH.
    + apply Hstep; [now left | exact Hs].
    + intros x acc Hx. apply Hstep. now right.
Qed.

Lemma forEach_cons {A S : Type} (body : A -> S -> S) (a : A) (l : list A) (s : S) :
  forEach (a :: l) body s = forEach l body (body a s).
Proof. reflexivity. Qed.

Lemma startsWith_spec (p s : string) :
  JS.startsWith s p = true <-> exists post, s = p +:+ post.
Proof.
  revert s. induction p as [|a p IH]; intros s; simpl.
  - split; [intros _; now exists s | reflexivity].
  - destruct s as [|b s]; simpl.
    + split; [discriminate | intros [post H]; discriminate].
    + rewrite andb_true_iff, IH. split.
      * intros [Hab [post ->]]. apply Ascii.eqb_eq in Hab. subst. now exists post.
      * intros [post H]. injection H as -> ->. split; [apply Ascii.eqb_refl | now exists post].
Qed.

Lemma includes_spec (s sub : string) :
  JS.includes s sub = true <-> occursIn sub s.
Proof.
  unfold occursIn. induction s as [|c r IH].
  - cbn [JS.includes]. rewrite orb_false_r, startsWith_spec. split.
    + intros [post H]. now exists EmptyString, post.
    + intros [pre [post H]]. destruct pre; [now exists post | discriminate].
  - cbn [JS.includes]. rewrite orb_true_iff, startsWith_spec, IH. split.
    + intros [[post H] | [pre [post H]]].
      * now exists EmptyString, post.
      * exists (String c pre), post. simpl. now rewrite H.
    + intros [pre [post H]]. destruct pre as [|c' pre].
      * left. now exists post.
      * right. injection H as -> ->. now exists pre, post.
Qed.

(* ===================================================================== *)
(** * Facts about the insertion-ordered map *)
(* ===================================================================== *)

Section JsMapFacts.
Context {V : Type}.
Implicit Types (m : list (string * V)) (k : string) (v : V).

Lemma JsMap_set_In m k v k' v' :
  In (k', v') (JsMap.set k v m) -> (k', v') = (k, v) \/ In (k', v') m.
Proof.
  induction m as [|[k0 v0] m IH]; simpl.
  - intros [H | []]. now left.
  - destruct (String.eqb k k0); simpl.
    + intros [H | H]; [now left | right; now right].
    + intros [H | H]; [right; now left |].
      destruct (IH H) as [E | E]; [now left | right; now right].
Qed.

Lemma JsMap_set_key_In m k v k' :
  In k' (map fst (JsMap.set k v m)) <-> k' = k \/ In k' (map fst m).
Proof.
  induction m as [|[k0 v0] m IH]; simpl.
  - intuition.
  - destruct (String.eqb k k0) eqn:E; simpl.
    + apply String.eqb_eq in E. subst k0. intuition.
    + rewrite IH. intuition.
Qed.

Lemma JsMap_set_NoDup m k v :
  List.NoDup (map fst m) -> List.NoDup (map fst (JsMap.set k v m)).
Proof.
  induction m as [|[k0 v0] m IH]; simpl; intros Hnd.
  - constructor; [intros [] | constructor].
  - inversion Hnd as [|? ? Hnotin Hnd']; subst.
    destruct (String.eqb k k0) eqn:E; simpl.
    + apply String.eqb_eq in E. subst k0. now constructor.
    + constructor; [| now apply IH].
      rewrite JsMap_set_key_In. intros [-> | H]; [| now apply Hnotin].
      now rewrite String.eqb_refl in E.
Qed.

Lemma JsMap_ofEntries_NoDup (entries : list (string * V)) :
  List.NoDup (map fst (JsMap.ofEntries entries)).
Proof.
  unfold JsMap.ofEntries. apply forEach_ind.
  - constructor.
  - intros [k v] acc _ H. now apply JsMap_set_NoDup.
Qed.

Lemma JsMap_ofEntries_In (entries : list (string * V)) k v :
  In (k, v) (JsMap.ofEntries entries) -> In (k, v) entries.
Proof.
  unfold JsMap.ofEntries.
  apply (forEach_ind (fun m => In (k, v) m -> In (k, v) entries)).
  - intros [].
  - intros [k0 v0] acc Hin IH H. simpl in H.
    destruct (JsMap_set_In _ _ _ _ _ H) as [E | E]; [now rewrite E | now apply IH].
Qed.

Lemma JsMap_ofEntries_keys (entries : list (string * V)) k :
  In k (map fst (JsMap.ofEntries entries)) <-> In k (map fst entries).
Proof.
  unfold JsMap.ofEntries, forEach. rewrite <- (app_nil_l entries) at 2.
  change (@nil string) with (map fst (@nil (string * V))).
  generalize (@nil (string * V)) as acc.
  induction entries as [|[k0 v0] entries IH]; intros acc; simpl.
  - now rewrite app_nil_r.
  - rewrite IH, !map_app, !in_app_iff, JsMap_set_key_In. simpl. intuition.
Qed.
Lemma filter_twice {A : Type} (P Q R : A -> bool) (l : list A) :
  (forall y, R y = Q y && P y) ->
  List.filter P (List.filter Q l) = List.filter R l.
Proof.
  intros H. induction l as [|y l IH]; simpl; [reflexivity |].
  rewrite H. destruct (Q y); simpl; [destruct (P y) |]; now rewrite IH.
Qed.

Lemma JsMap_set_keys m k v :
  map fst (JsMap.set k v m) =
  if existsb (String.eqb k) (map fst m) then map fst m else map fst m ++ [k].
Proof.
  induction m as [|[k0 v0] m IH]; simpl; [reflexivity |].
  destruct (String.eqb k k0) eqn:E; simpl.
  - apply String.eqb_eq in E. now subst k0.
  - rewrite IH. now destruct (existsb _ _).
Qed.

(** The keys of [new Map(entries)] stand in the order of their first
    occurrence among the entries. *)
Lemma JsMap_ofEntries_order (entries : list (string * V)) :
  map fst (JsMap.ofEntries entries) = orderedSet (map fst entries).
Proof.
  unfold JsMap.ofEntries, forEach.
  enough (H : forall acc : list (string * V),
             map fst (fold_left (fun m kv => JsMap.set (fst kv) (snd kv) m) entries acc) =
             map fst acc ++
             List.filter (fun y => negb (existsb (String.eqb y) (map fst acc)))
                         (orderedSet (map fst entries))).
  { rewrite H. simpl. generalize (orderedSet (map fst entries)) as l.
    induction l as [|y l IHl]; simpl; [reflexivity | now f_equal]. }
  induction entries as [|[k0 v0] entries IH]; intros acc; simpl.
  - now rewrite app_nil_r.
  - rewrite IH, JsMap_set_keys.
    destruct (existsb (String.eqb k0) (map fst acc)) eqn:E; simpl.
    + f_equal. symmetry. apply filter_twice. intros y.
      destruct (existsb (String.eqb y) (map fst acc)) eqn:Ey; simpl;
        [now rewrite andb_false_r |].
      rewrite andb_true_r. destruct (String.eqb_spec y k0) as [-> |]; [congruence | reflexivity].
    + rewrite <- app_assoc. simpl. do 2 f_equal. symmetry. apply filter_twice. intros y.
      rewrite existsb_app. simpl. rewrite orb_false_r, negb_orb. apply andb_comm.
Qed.
End JsMapFacts.

(* ===================================================================== *)
(** * Search: where a match comes from *)
(* ===================================================================== *)

Lemma Forall_push_if {R : Type} (P : R -> Prop) (b : bool) (x : R) (acc : list R) :
  Forall P acc -> (b = true -> P x) -> Forall P (if b then push x acc else acc).
Proof.
  intros Hacc Hx. destruct b; [| exact Hacc].
  unfold push. apply Forall_app. split; [exact Hacc |]. constructor; [now apply Hx | constructor].
Qed.

Lemma includes_or (a b q : string) :
  JS.includes a q || JS.includes b q = true -> occursIn q a \/ occursIn q b.
Proof. rewrite orb_true_iff, !includes_spec. tauto. Qed.

Lemma AppJs_collect_justified {platform : JS.Platform} (q : string) (doc : GlossaryDocument) :
  Forall (justified AppJs_resultOf q doc) (AppJs.collectResults q doc).
Proof.
  unfold AppJs.collectResults. apply forEach_ind; [constructor|].
  intros s acc Hs Hacc. apply forEach_ind.
  - apply Forall_push_if; [exact Hacc|]. intros H.
    exists (FromSubject s). repeat split; [exact Hs | now apply includes_or].
  - intros g acc' Hg Hacc'. apply forEach_ind.
    + apply Forall_push_if; [exact Hacc'|]. intros H.
      exists (FromGroup s g). repeat split; [exact Hs | exact Hg | now apply includes_spec].
    + intros c acc'' Hc Hacc''. apply Forall_push_if; [exact Hacc''|]. intros H.
      exists (FromCard s g c). repeat split; [exact Hs | exact Hg | exact Hc | now apply includes_or].
Qed.

Lemma PartA_collect_justified {platform : JS.Platform} (q : string) (doc : GlossaryDocument) :
  Forall (justified PartA_resultOf q doc) (PartA.collectResults q doc).
Proof.
  unfold PartA.collectResults. apply forEach_ind; [constructor|].
  intros s acc Hs Hacc. apply forEach_ind.
  - apply Forall_push_if; [exact Hacc|]. intros H.
    exists (FromSubject s). repeat split; [exact Hs |].
    apply includes_or in H. simpl. tauto.
  - intros g acc' Hg Hacc'. apply forEach_ind.
    + apply Forall_push_if; [exact Hacc'|]. intros H.
      exists (FromGroup s g). repeat split; [exact Hs | exact Hg | now apply includes_spec].
    + intros c acc'' Hc Hacc''. apply Forall_push_if; [exact Hacc''|]. intros H.
      exists (FromCard s g c). repeat split; [exact Hs | exact Hg | exact Hc | now apply includes_or].
Qed.

Lemma PartB_collect_justified {platform : JS.Platform} (q : string) (doc : GlossaryDocument) :
  Forall (justified PartB_resultOf q doc) (PartB.collectResults q doc).
Proof.
  unfold PartB.collectResults. apply forEach_ind; [constructor|].
  intros s acc Hs Hacc. apply forEach_ind.
  - apply Forall_push_if; [exact Hacc|]. intros H.
    exists (FromSubject s). repeat split; [exact Hs | now apply includes_or].
  - intros g acc' Hg Hacc'. apply forEach_ind.
    + apply Forall_push_if; [exact Hacc'|]. intros H.
      apply andb_true_iff in H as [H _].
      exists (FromGroup s g). repeat split; [exact Hs | exact Hg | now apply includes_spec].
    + intros c acc'' Hc Hacc''. apply Forall_push_if; [exact Hacc''|]. intros H.
      apply andb_true_iff in H as [H _].
      exists (FromCard s g c). repeat split; [exact Hs | exact Hg | exact Hc | now apply includes_or].
Qed.

Lemma AppJs_uniqueResults_In (results : list AppJs.result) (r : AppJs.result) :
  In r (AppJs.uniqueResults results) -> In r results.
Proof.
  unfold AppJs.uniqueResults, JsMap.values. rewrite in_map_iff.
  intros [[k v] [E Hin]]. simpl in E. subst v.
  apply JsMap_ofEntries_In in Hin. apply in_map_iff in Hin as [x [E Hx]].
  now injection E as _ ->.
Qed.

Lemma slice0_In {A : Type} (n : nat) (l : list A) (x : A) :
  In x (slice0 n l) -> In x l.
Proof.
  unfold slice0. intros H. rewrite <- (firstn_skipn n l). apply in_or_app. now left.
Qed.

Lemma AppJs_uniqueResults_keys (results : list AppJs.result) :
  map AppJs.stringify (AppJs.uniqueResults results) =
  map fst (JsMap.ofEntries (map (fun item => (AppJs.stringify item, item)) results)).
Proof.
  unfold AppJs.uniqueResults, JsMap.values. rewrite map_map.
  apply map_ext_in. intros [k r] Hin. simpl.
  apply JsMap_ofEntries_In in Hin. apply in_map_iff in Hin as [x [E _]].
  now injection E as <- <-.
Qed.

(** The matches app.js keeps stand where their serialisation first occurs
    in the scan. *)
Lemma AppJs_uniqueResults_order (results : list AppJs.result) :
  map AppJs.stringify (AppJs.uniqueResults results) =
  orderedSet (map AppJs.stringify results).
Proof. now rewrite AppJs_uniqueResults_keys, JsMap_ofEntries_order, map_map. Qed.

(** No two of the matches app.js keeps have the same serialisation. *)
Lemma AppJs_uniqueResults_NoDup (results : list AppJs.result) :
  List.NoDup (map AppJs.stringify (AppJs.uniqueResults results)).
Proof. rewrite AppJs_uniqueResults_keys. apply JsMap_ofEntries_NoDup. Qed.

(** Every scanned match is still represented, by a match of the same
    serialisation: nothing but duplicates is dropped. *)
Lemma AppJs_uniqueResults_complete (results : list AppJs.result) (r : AppJs.result) :
  In r results ->
  exists r', In r' (AppJs.uniqueResults results) /\ AppJs.stringify r' = AppJs.stringify r.
Proof.
  intros Hin.
  assert (Hk : In (AppJs.stringify r) (map AppJs.stringify (AppJs.uniqueResults results))).
  { rewrite AppJs_uniqueResults_keys, JsMap_ofEntries_keys, map_map. simpl.
    apply in_map_iff. now exists r. }
  apply in_map_iff in Hk as [r' [E Hr']]. now exists r'.
Qed.

(** ** The list each handler shows is built from its [search] *)

Lemma AppJs_list_fold (items : list AppJs.result) :
  forall acc : AppJs.state,
    AppJs.autocompleteList
      (forEach items (fun item st =>
                        let listItem :=
                          AppJs.createEl "li" "autocomplete__item" EmptyString
                                         (AppJs.displayText item) [("role", "option")] [] in
                        AppJs.withAutocompleteList (AppJs.autocompleteList st ++ [listItem]) st)
               acc) =
    AppJs.autocompleteList acc ++
    map (fun item => AppJs.createEl "li" "autocomplete__item" EmptyString
                                    (AppJs.displayText item) [("role", "option")] []) items.
Proof.
  induction items as [|item items IH]; intros acc.
  - simpl. now rewrite app_nil_r.
  - rewrite forEach_cons, IH. cbn [AppJs.autocompleteList AppJs.withAutocompleteList map].
    now rewrite <- app_assoc.
Qed.

Lemma AppJs_handleSearch_shows_search {platform : JS.Platform} (v : string) (st : AppJs.state) :
  AppJs.autocompleteList (AppJs.handleSearch v st) =
  map (fun item => AppJs.createEl "li" "autocomplete__item" EmptyString
                                  (AppJs.displayText item) [("role", "option")] [])
      (AppJs.search v (AppJs.glossaryData st)).
Proof.
  unfold AppJs.handleSearch, AppJs.search.
  destruct (JS.stringLength (JS.toLowerCase v) =? 0); [reflexivity|].
  cbn [AppJs.glossaryData AppJs.withAutocompleteList].
  destruct (AppJs.uniqueResults _) as [|r rs] eqn:E; [reflexivity|].
  cbn [length Nat.ltb Nat.leb AppJs.autocompleteList AppJs.withInputAriaExpanded
       AppJs.withListHidden].
  now rewrite AppJs_list_fold.
Qed.

Lemma PartA_debouncedSearch_shows_search {platform : JS.Platform} (v : string) (st : PartA.state) :
  PartA.debouncedSearch v st =
  PartA.updateAutocompleteList (PartA.search v (PartA.glossaryData st)) st.
Proof.
  unfold PartA.debouncedSearch, PartA.search.
  now destruct (2 <? JS.stringLength (JS.trim v)).
Qed.

Lemma PartB_handleSearch_shows_search {platform : JS.Platform} (v : string) (doc : GlossaryDocument)
      (st : PartB.state) :
  PartB.glossaryData st = Some doc ->
  PartB.handleSearch v st =
  Normal (if JS.stringLength (JS.trim (JS.toLowerCase v)) <? 2
          then PartB.clearSearchResults st
          else PartB.renderSearchResults (PartB.search v doc) st).
Proof.
  intros Hdoc. unfold PartB.handleSearch, PartB.search. rewrite Hdoc.
  now destruct (JS.stringLength (JS.trim (JS.toLowerCase v)) <? 2).
Qed.

(** ** The examples of the specification *)

Example spec_example_search_hola :
  AppJs.search "hola" exampleDoc = [AppJs.CardResult exampleCard "S1" "G1"] /\
  PartA.search "hola" exampleDoc =
    [PartA.mkResult "tarjeta" "S1" ("Término: " +:+ JS.quoted "hola" +:+ " en 101")] /\
  PartB.search "hola" exampleDoc =
    [PartB.mkResult "tarjeta" "hola / hello" None (Some "S1") (Some "G1") (Some "c1")].
Proof. vm_compute. auto. Qed.

Example spec_example_search_zz :
  AppJs.search "zz" exampleDoc = [] /\ PartA.search "zzz" exampleDoc = [] /\
  PartB.search "zz" exampleDoc = [].
Proof. vm_compute. auto. Qed.

(* ===================================================================== *)
(** * C3: every match arises from a containment *)
(* ===================================================================== *)

(** C3.  In each of the three scripts, every match the search shows for an
    input is the match of a subject, group or card of the document one of
    whose source fields (subject title or code, group title, card term in
    either language), lower-cased, contains the query the script derives
    from the input: the lower-cased input in app.js, the lower-cased trimmed
    input in the first script of part_000, the trimmed lower-cased input in
    the second.  No match is shown whose source fields all fail to contain
    it, on any platform. *)
Theorem C3_matches_arise_from_containment {platform : JS.Platform}
        (v : string) (doc : GlossaryDocument) :
  (forall r, In r (AppJs.search v doc) ->
     exists src, sourceIn doc src /\ r = AppJs_resultOf src /\
                 sourceMatches (JS.toLowerCase v) src) /\
  (forall r, In r (PartA.search v doc) ->
     exists src, sourceIn doc src /\ r = PartA_resultOf src /\
                 sourceMatches (JS.toLowerCase (JS.trim v)) src) /\
  (forall r, In r (PartB.search v doc) ->
     exists src, sourceIn doc src /\ r = PartB_resultOf src /\
                 sourceMatches (JS.trim (JS.toLowerCase v)) src).
Proof.
  repeat split.
  - intros r. unfold AppJs.search.
    destruct (JS.stringLength (JS.toLowerCase v) =? 0); [intros [] |].
    intros Hin. apply AppJs_uniqueResults_In in Hin.
    pose proof (AppJs_collect_justified (JS.toLowerCase v) doc) as Hall.
    rewrite List.Forall_forall in Hall. exact (Hall r Hin).
  - intros r. unfold PartA.search, PartA.searchGlossary.
    destruct (2 <? JS.stringLength (JS.trim v)); [| intros []].
    intros Hin. apply slice0_In in Hin.
    pose proof (PartA_collect_justified (JS.toLowerCase (JS.trim v)) doc) as Hall.
    rewrite List.Forall_forall in Hall. exact (Hall r Hin).
  - intros r. unfold PartB.search.
    destruct (JS.stringLength (JS.trim (JS.toLowerCase v)) <? 2); [intros [] |].
    intros Hin. apply slice0_In in Hin.
    pose proof (PartB_collect_justified (JS.trim (JS.toLowerCase v)) doc) as Hall.
    rewrite List.Forall_forall in Hall. exact (Hall r Hin).
Qed.

Lemma C3_witness :
  exists src, sourceIn exampleDoc src /\
              AppJs.CardResult exampleCard "S1" "G1" = AppJs_resultOf src /\
              sourceMatches (JS.toLowerCase "HOLA") src.
Proof.
  apply (proj1 (C3_matches_arise_from_containment "HOLA" exampleDoc)).
  vm_compute. left. reflexivity.
Defined.

(* ===================================================================== *)
(** * C1: queries below the minimum length *)
(* ===================================================================== *)

(** app.js searches on a single character: its guard is the empty query. *)
Lemma C1_counterexample : ~ short_query_clears_AppJs.
Proof.
  intros H.
  destruct (H "h" (AppJs.withGlossaryData exampleDoc (AppJs.initial EmptyString)))
    as [Hsearch _]; [simpl; lia |].
  vm_compute in Hsearch. discriminate Hsearch.
Qed.

(** C1, amended.  Each script clears the list instead of searching when the
    query it derives from the input is shorter than its own minimum, counted
    in UTF-16 code units as [length] counts: two units of the lower-cased,
    trimmed input in the second script of part_000, three units of the
    trimmed input in the first, and one unit of the lower-cased input in
    app.js, which therefore clears the list for no query but the empty one.
    At or above its minimum each script shows the matches of its scan. *)
Theorem C1_short_query_clears_list {platform : JS.Platform} :
  (forall (v : string) (st : AppJs.state),
      JS.stringLength (JS.toLowerCase v) < 1 ->
      AppJs.search v (AppJs.glossaryData st) = [] /\
      AppJs.handleSearch v st =
        AppJs.withListHidden true (AppJs.withAutocompleteList [] st)) /\
  (forall (v : string) (st : PartA.state),
      JS.stringLength (JS.trim v) < 3 ->
      PartA.search v (PartA.glossaryData st) = [] /\
      PartA.debouncedSearch v st =
        PartA.withListAriaExpanded (Some false) (PartA.withAutocompleteList [] st)) /\
  (forall (v : string) (st : PartB.state) (doc : GlossaryDocument),
      JS.stringLength (JS.trim (JS.toLowerCase v)) < 2 ->
      PartB.search v doc = [] /\
      PartB.handleSearch v st = Normal (PartB.clearSearchResults st) /\
      PartB.searchResults (PartB.clearSearchResults st) = EmptyString) /\
  (forall (v : string) (doc : GlossaryDocument),
      (1 <= JS.stringLength (JS.toLowerCase v) ->
       AppJs.search v doc =
         AppJs.uniqueResults (AppJs.collectResults (JS.toLowerCase v) doc)) /\
      (3 <= JS.stringLength (JS.trim v) ->
       PartA.search v doc =
         slice0 10 (PartA.collectResults (JS.toLowerCase (JS.trim v)) doc)) /\
      (2 <= JS.stringLength (JS.trim (JS.toLowerCase v)) ->
       PartB.search v doc =
         slice0 10 (PartB.collectResults (JS.trim (JS.toLowerCase v)) doc))).
Proof.
  repeat split.
  - unfold AppJs.search. destruct (JS.stringLength (JS.toLowerCase v)); [reflexivity | lia].
  - unfold AppJs.handleSearch. destruct (JS.stringLength (JS.toLowerCase v)); [reflexivity | lia].
  - unfold PartA.search.
    destruct (Nat.ltb_spec 2 (JS.stringLength (JS.trim v))); [lia | reflexivity].
  - unfold PartA.debouncedSearch.
    destruct (Nat.ltb_spec 2 (JS.stringLength (JS.trim v))); [lia | reflexivity].
  - unfold PartB.search.
    destruct (Nat.ltb_spec (JS.stringLength (JS.trim (JS.toLowerCase v))) 2); [reflexivity | lia].
  - unfold PartB.handleSearch.
    destruct (Nat.ltb_spec (JS.stringLength (JS.trim (JS.toLowerCase v))) 2); [reflexivity | lia].
  - intros H. unfold AppJs.search.
    destruct (Nat.eqb_spec (JS.stringLength (JS.toLowerCase v)) 0); [lia | reflexivity].
  - intros H. unfold PartA.search, PartA.searchGlossary.
    destruct (Nat.ltb_spec 2 (JS.stringLength (JS.trim v))); [reflexivity | lia].
  - intros H. unfold PartB.search.
    destruct (Nat.ltb_spec (JS.stringLength (JS.trim (JS.toLowerCase v))) 2); [lia | reflexivity].
Qed.

Lemma C1_witness :
  (AppJs.search "" exampleDoc = [] /\
   AppJs.handleSearch "" (AppJs.withGlossaryData exampleDoc (AppJs.initial EmptyString)) =
   AppJs.withListHidden true
     (AppJs.withAutocompleteList []
        (AppJs.withGlossaryData exampleDoc (AppJs.initial EmptyString)))) /\
  (PartA.search " ho " exampleDoc = [] /\
   PartA.debouncedSearch " ho " (PartA.withGlossaryData exampleDoc PartA.initial) =
   PartA.withListAriaExpanded (Some false)
     (PartA.withAutocompleteList [] (PartA.withGlossaryData exampleDoc PartA.initial))) /\
  (PartB.search " H " exampleDoc = [] /\
   PartB.handleSearch " H " (PartB.withGlossaryData (Some exampleDoc) PartB.initial) =
   Normal (PartB.clearSearchResults (PartB.withGlossaryData (Some exampleDoc) PartB.initial)) /\
   PartB.searchResults
     (PartB.clearSearchResults (PartB.withGlossaryData (Some exampleDoc) PartB.initial)) =
   EmptyString).
Proof.
  destruct C1_short_query_clears_list as (HA & HB & HC & _).
  split; [| split].
  - apply (HA "" (AppJs.withGlossaryData exampleDoc (AppJs.initial EmptyString))).
    vm_compute. lia.
  - apply (HB " ho " (PartA.withGlossaryData exampleDoc PartA.initial)).
    vm_compute. lia.
  - apply (HC " H " (PartB.withGlossaryData (Some exampleDoc) PartB.initial) exampleDoc).
    vm_compute. lia.
Defined.

(* ===================================================================== *)
(** * C2: the cap and the duplicates *)
(* ===================================================================== *)

(** app.js has no cap (eleven matching subjects give eleven matches), and
    the first script of part_000 has no deduplication (a card held by two
    groups of a subject gives the same match twice). *)
Lemma C2_counterexample :
  ~ capped_and_distinct AppJs.search AppJs.displayText /\
  ~ capped_and_distinct PartA.search PartA.r_text.
Proof.
  split; intros H.
  - destruct (H "redes" elevenSubjectsDoc) as [Hlen _].
    vm_compute in Hlen. lia.
  - destruct (H "hola" repeatedCardDoc) as [_ Hnd].
    vm_compute in Hnd. inversion Hnd as [| x l Hnotin _]. apply Hnotin. now left.
Qed.

(** The checks of lines 793 and 797 of part_000 compare the text of the
    earlier matches with the bare group title or card term, which is not the
    text pushed: the card held by two groups is shown twice there too. *)
Example PartB_repeated_card_shown_twice :
  map PartB.r_text (PartB.search "hola" repeatedCardDoc) = ["hola / hello"; "hola / hello"].
Proof. vm_compute. reflexivity. Qed.

(** C2, amended.  The two scripts of part_000 show at most ten matches, the
    first ten of the scan in document order.  app.js applies no cap: it
    shows the scanned matches with those of equal JSON serialisation
    collapsed, each serialisation once and where it first occurs in the
    scan, so that no two matches shown have the same serialisation, every
    match shown is a scanned one and every scanned match is still
    represented.  The first script of part_000 collapses nothing. *)
Theorem C2_cap_and_duplicates {platform : JS.Platform} (v : string) (doc : GlossaryDocument) :
  (length (PartA.search v doc) <= 10 /\
   ((2 <? JS.stringLength (JS.trim v)) = true ->
    PartA.search v doc =
    firstn 10 (PartA.collectResults (JS.toLowerCase (JS.trim v)) doc))) /\
  (length (PartB.search v doc) <= 10 /\
   ((JS.stringLength (JS.trim (JS.toLowerCase v)) <? 2) = false ->
    PartB.search v doc =
    firstn 10 (PartB.collectResults (JS.trim (JS.toLowerCase v)) doc))) /\
  (List.NoDup (map AppJs.stringify (AppJs.search v doc)) /\
   (forall r, In r (AppJs.search v doc) ->
              In r (AppJs.collectResults (JS.toLowerCase v) doc)) /\
   ((JS.stringLength (JS.toLowerCase v) =? 0) = false ->
    map AppJs.stringify (AppJs.search v doc) =
      orderedSet (map AppJs.stringify (AppJs.collectResults (JS.toLowerCase v) doc)) /\
    forall r, In r (AppJs.collectResults (JS.toLowerCase v) doc) ->
              exists r', In r' (AppJs.search v doc) /\
                         AppJs.stringify r' = AppJs.stringify r)).
Proof.
  repeat split.
  - unfold PartA.search, PartA.searchGlossary, slice0.
    destruct (2 <? JS.stringLength (JS.trim v)); [apply firstn_le_length | simpl; lia].
  - intros H. unfold PartA.search. now rewrite H.
  - unfold PartB.search, slice0.
    destruct (JS.stringLength (JS.trim (JS.toLowerCase v)) <? 2);
      [simpl; lia | apply firstn_le_length].
  - intros H. unfold PartB.search. now rewrite H.
  - unfold AppJs.search. destruct (JS.stringLength (JS.toLowerCase v) =? 0).
    + constructor.
    + apply AppJs_uniqueResults_NoDup.
  - intros r. unfold AppJs.search. destruct (JS.stringLength (JS.toLowerCase v) =? 0).
    + intros [].
    + apply AppJs_uniqueResults_In.
  - unfold AppJs.search. rewrite H. apply AppJs_uniqueResults_order.
  - intros r Hin. unfold AppJs.search. rewrite H.
    now apply AppJs_uniqueResults_complete.
Qed.

Lemma C2_witness :
  PartA.search "hola" repeatedCardDoc =
    firstn 10 (PartA.collectResults (JS.toLowerCase (JS.trim "hola")) repeatedCardDoc) /\
  PartB.search "hola" repeatedCardDoc =
    firstn 10 (PartB.collectResults (JS.trim (JS.toLowerCase "hola")) repeatedCardDoc) /\
  In (AppJs.SubjectResult (mkSubject "S3" "103" "Redes" EmptyString [] None))
     (AppJs.collectResults (JS.toLowerCase "REDES") elevenSubjectsDoc) /\
  map AppJs.stringify (AppJs.search "hola" repeatedCardDoc) =
    orderedSet (map AppJs.stringify
                    (AppJs.collectResults (JS.toLowerCase "hola") repeatedCardDoc)) /\
  exists r', In r' (AppJs.search "REDES" elevenSubjectsDoc) /\
             AppJs.stringify r' =
             AppJs.stringify (AppJs.SubjectResult
                                (mkSubject "S3" "103" "Redes" EmptyString [] None)).
Proof.
  split; [| split; [| split; [| split]]].
  - apply (proj1 (C2_cap_and_duplicates "hola" repeatedCardDoc)). reflexivity.
  - apply (proj1 (proj2 (C2_cap_and_duplicates "hola" repeatedCardDoc))). reflexivity.
  - apply (proj1 (proj2 (proj2 (proj2 (C2_cap_and_duplicates "REDES" elevenSubjectsDoc))))).
    vm_compute. do 3 right. left. reflexivity.
  - apply (proj2 (proj2 (proj2 (proj2 (C2_cap_and_duplicates "hola" repeatedCardDoc))))).
    reflexivity.
  - apply (proj2 (proj2 (proj2 (proj2 (C2_cap_and_duplicates "REDES" elevenSubjectsDoc)))));
      [reflexivity |].
    vm_compute. do 3 right. left. reflexivity.
Defined.

(* ===================================================================== *)
(** * C4: memoization of the loader *)
(* ===================================================================== *)

(** app.js fetches again on the second call and returns what that fetch
    delivers. *)
Lemma C4_counterexample : ~ load_memoized_AppJs.
Proof.
  intros H.
  specialize (H (AppJs.initial EmptyString) exampleDoc (FetchOk [])).
  vm_compute in H. destruct H as [H _]. discriminate H.
Qed.

(** The other functions of the second script of part_000 leave the cached
    document alone. *)
Lemma PartB_handleSearch_keeps_cache {platform : JS.Platform} (v : string) (st : PartB.state) :
  PartB.glossaryData (stateOf (PartB.handleSearch v st)) = PartB.glossaryData st.
Proof.
  unfold PartB.handleSearch.
  destruct (JS.stringLength (JS.trim (JS.toLowerCase v)) <? 2); [reflexivity|].
  destruct (PartB.glossaryData st) eqn:E; simpl; [| exact E].
  unfold PartB.renderSearchResults. now destruct (length _ =? 0).
Qed.

Lemma PartB_renderMateria_keeps_cache {platform : JS.Platform} (id : string) (st : PartB.state) :
  PartB.glossaryData (stateOf (PartB.renderMateria id st)) = PartB.glossaryData st.
Proof.
  unfold PartB.renderMateria.
  destruct (PartB.glossaryData st) as [doc|] eqn:E; simpl; [| exact E].
  destruct (arrayFind _ doc) as [m|]; simpl; [| exact E].
  destruct (s_windows m); simpl; exact E.
Qed.

(** C4, amended.  The loader of the second script of part_000 is memoized:
    a successful first call fetches once, stores the document and returns
    it; from then on every call, whatever the network would deliver, returns
    that document and leaves the state, the request log included, as it is;
    searching and rendering do not touch the cache.  The loaders of app.js
    and of the first script of part_000 are not memoized: every call issues
    a new fetch, and a successful one stores (and in app.js returns) the
    document that fetch delivers. *)
Theorem C4_load_memoized_in_second_script_only {platform : JS.Platform} :
  (forall (st : PartB.state) (d : GlossaryDocument),
      PartB.glossaryData st = None ->
      PartB.loadData (FetchOk d) st =
        (d, PartB.withGlossaryData (Some d) (PartB.logRequest (GET glossaryUrl) st))) /\
  (forall (st : PartB.state) (d : GlossaryDocument) (later : fetchOutcome),
      PartB.glossaryData st = Some d ->
      PartB.loadData later st = (d, st)) /\
  (forall (st : PartB.state) (v id : string),
      PartB.glossaryData (stateOf (PartB.handleSearch v st)) = PartB.glossaryData st /\
      PartB.glossaryData (stateOf (PartB.renderMateria id st)) = PartB.glossaryData st) /\
  (forall (st : AppJs.state) (response : fetchOutcome),
      AppJs.requests (snd (AppJs.loadData response st)) =
        AppJs.requests st ++ [GET glossaryUrl]) /\
  (forall (st : AppJs.state) (d : GlossaryDocument),
      fst (AppJs.loadData (FetchOk d) st) = d /\
      AppJs.glossaryData (snd (AppJs.loadData (FetchOk d) st)) = d) /\
  (forall (st : PartA.state) (response : fetchOutcome),
      PartA.requests (PartA.loadData response st) =
        PartA.requests st ++ [GET glossaryUrl]) /\
  (forall (st : PartA.state) (d : GlossaryDocument),
      PartA.glossaryData (PartA.loadData (FetchOk d) st) = d).
Proof.
  repeat split.
  - intros st d H. unfold PartB.loadData. now rewrite H.
  - intros st d later H. unfold PartB.loadData. now rewrite H.
  - apply PartB_handleSearch_keeps_cache.
  - apply PartB_renderMateria_keeps_cache.
  - intros st [why | d]; reflexivity.
  - intros st [why | d]; reflexivity.
Qed.

Lemma C4_witness :
  PartB.loadData (FetchOk exampleDoc) PartB.initial =
    (exampleDoc,
     PartB.withGlossaryData (Some exampleDoc) (PartB.logRequest (GET glossaryUrl) PartB.initial)) /\
  PartB.loadData (FetchOk [])
    (PartB.withGlossaryData (Some exampleDoc) (PartB.logRequest (GET glossaryUrl) PartB.initial)) =
    (exampleDoc,
     PartB.withGlossaryData (Some exampleDoc) (PartB.logRequest (GET glossaryUrl) PartB.initial)).
Proof.
  destruct C4_load_memoized_in_second_script_only as (H1 & H2 & _).
  split.
  - apply (H1 PartB.initial exampleDoc). reflexivity.
  - apply (H2 _ exampleDoc (FetchOk [])). reflexivity.
Defined.

(* ===================================================================== *)
(** * C9: a load that fails *)
(* ===================================================================== *)

(** app.js: after a failing load at start-up the error message stands in
    the subject area, the document is the empty array, no subject is
    rendered, and searching and rendering find nothing. *)
Lemma AppJs_failed_load {platform : JS.Platform}
      (why : loadFailure) (probe : string -> probeOutcome) (base : string) :
  let st := AppJs.init (FetchFails why) probe (AppJs.initial base) in
  AppJs.subjectArea st = [Html AppJs.loadErrorMarkup] /\
  AppJs.glossaryData st = [] /\
  (forall v, AppJs.search v (AppJs.glossaryData st) = [] /\
             AppJs.autocompleteList (AppJs.handleSearch v st) = []) /\
  (forall id, AppJs.subjectArea (AppJs.renderMateria probe id st) = AppJs.subjectArea st).
Proof.
  repeat split.
  - unfold AppJs.search. simpl. now destruct (JS.stringLength _ =? 0).
  - unfold AppJs.handleSearch. simpl. now destruct (JS.stringLength _ =? 0).
Qed.

(** The first script of part_000: the error message stands in the content
    area, the document stays the empty array and the search is not wired. *)
Lemma PartA_failed_load {platform : JS.Platform} (why : loadFailure) :
  let st := PartA.loadData (FetchFails why) PartA.initial in
  PartA.dynamicContent st = [Html PartA.loadErrorMarkup] /\
  PartA.glossaryData st = [] /\
  PartA.autocompleteAttached st = false /\
  (forall q, PartA.searchGlossary q (PartA.glossaryData st) = []).
Proof. repeat split. Qed.

(** C9 on the second script of part_000.  After a failing load at start-up
    the error message stands in the content area and the listeners are
    attached, but the module variable is still [null]: the empty array of
    line 589 is returned to [init], which drops it.  A search of two or more
    characters and any rendering then raise a TypeError. *)
Theorem C9_failed_load_leaves_null_document (why : loadFailure) :
  let st := PartB.init (FetchFails why) PartB.initial in
  fst (PartB.loadData (FetchFails why) PartB.initial) = [] /\
  PartB.dynamicContentArea st = PartB.loadErrorMarkup /\
  PartB.listenersAttached st = true /\
  PartB.glossaryData st = None /\
  PartB.handleSearch "hola" st =
    Throw "TypeError: Cannot read properties of null (reading 'forEach')" st /\
  PartB.renderMateria "S1" st =
    Throw "TypeError: Cannot read properties of null (reading 'find')" st.
Proof. repeat split. Qed.

(* ===================================================================== *)
(** * C5: rendering an unknown id *)
(* ===================================================================== *)

Lemma find_unknown_id (id : string) (doc : GlossaryDocument) :
  ~ In id (map s_id doc) ->
  arrayFind (fun s => String.eqb (s_id s) id) doc = None.
Proof.
  unfold arrayFind. induction doc as [|s doc IH]; simpl; intros H; [reflexivity|].
  destruct (String.eqb_spec (s_id s) id) as [E | _].
  - exfalso. apply H. now left.
  - apply IH. intros Hin. apply H. now right.
Qed.

Lemma find_known_id (id : string) (doc : GlossaryDocument) :
  In id (map s_id doc) ->
  exists s, arrayFind (fun s => String.eqb (s_id s) id) doc = Some s /\
            In s doc /\ s_id s = id.
Proof.
  unfold arrayFind. induction doc as [|s doc IH]; simpl; intros H; [contradiction|].
  destruct (String.eqb_spec (s_id s) id) as [E | Hne].
  - exists s. auto.
  - destruct H as [H | H]; [contradiction|].
    destruct (IH H) as [s' (Hf & Hin & E)]. exists s'. auto.
Qed.

(** [renderMateria] returns normally on an unknown id, and app.js leaves
    the subject rendered before on the page. *)
Lemma C5_counterexample :
  ~ unknown_id_signalled_PartB /\ ~ unknown_id_placeholder_AppJs.
Proof.
  split; intros H.
  - destruct (H "missing" exampleDoc (PartB.withGlossaryData (Some exampleDoc) PartB.initial))
      as (error & st' & E); [reflexivity | |].
    + simpl. intros [E | []]. discriminate E.
    + vm_compute in E. discriminate E.
  - destruct (H (fun _ => ProbeOk) "missing" AppJs_exampleRendered) as [markup E].
    + simpl. intros [E | []]. discriminate E.
    + vm_compute in E. discriminate E.
Qed.

(** C5, amended.  For an id that no subject of the loaded document has,
    [renderMateria] logs an error on the console and returns normally in
    all three scripts; nothing is raised or returned to the caller.  The
    first script of part_000 replaces the content with a not-found message;
    app.js and the second script of part_000 leave the page as it is. *)
Theorem C5_unknown_id_logged_not_signalled {platform : JS.Platform} :
  (forall (probe : string -> probeOutcome) (id : string) (st : AppJs.state),
      ~ In id (map s_id (AppJs.glossaryData st)) ->
      AppJs.renderMateria probe id st =
        AppJs.consoleError ("Materia no encontrada: " +:+ id) st) /\
  (forall (id : string) (st : PartA.state),
      ~ In id (map s_id (PartA.glossaryData st)) ->
      PartA.renderMateria id st =
        PartA.withDynamicContent [Html PartA.notFoundMarkup]
          (PartA.consoleLog ("Materia no encontrada: " +:+ id) st)) /\
  (forall (id : string) (doc : GlossaryDocument) (st : PartB.state),
      PartB.glossaryData st = Some doc -> ~ In id (map s_id doc) ->
      PartB.renderMateria id st =
        Normal (PartB.consoleError ("Materia con id " +:+ JS.quoted id +:+ " no encontrada.") st)).
Proof.
  repeat split.
  - intros probe id st H. unfold AppJs.renderMateria. now rewrite find_unknown_id.
  - intros id st H. unfold PartA.renderMateria. now rewrite find_unknown_id.
  - intros id doc st E H. unfold PartB.renderMateria. rewrite E. now rewrite find_unknown_id.
Qed.

Lemma C5_witness :
  AppJs.renderMateria (fun _ => ProbeOk) "missing" AppJs_exampleRendered =
    AppJs.consoleError "Materia no encontrada: missing" AppJs_exampleRendered /\
  PartA.renderMateria "missing" (PartA.withGlossaryData exampleDoc PartA.initial) =
    PartA.withDynamicContent [Html PartA.notFoundMarkup]
      (PartA.consoleLog "Materia no encontrada: missing"
                        (PartA.withGlossaryData exampleDoc PartA.initial)) /\
  PartB.renderMateria "missing" (PartB.withGlossaryData (Some exampleDoc) PartB.initial) =
    Normal (PartB.consoleError ("Materia con id " +:+ JS.quoted "missing" +:+ " no encontrada.")
                               (PartB.withGlossaryData (Some exampleDoc) PartB.initial)).
Proof.
  destruct C5_unknown_id_logged_not_signalled as (HA & HB & HC).
  split; [| split].
  - apply (HA (fun _ => ProbeOk) "missing" AppJs_exampleRendered).
    vm_compute. intros [E | []]. discriminate E.
  - apply (HB "missing" (PartA.withGlossaryData exampleDoc PartA.initial)).
    vm_compute. intros [E | []]. discriminate E.
  - apply (HC "missing" exampleDoc (PartB.withGlossaryData (Some exampleDoc) PartB.initial));
      [reflexivity |].
    vm_compute. intros [E | []]. discriminate E.
Defined.

(* ===================================================================== *)
(** * The image cache of app.js *)
(* ===================================================================== *)

Lemma cacheGrows_refl {platform : JS.Platform} (cache : gmap string string) :
  cacheSound cache -> cacheGrows cache cache.
Proof. intros H. split; [exact H | auto]. Qed.

Lemma cacheGrows_trans {platform : JS.Platform} (c1 c2 c3 : gmap string string) :
  cacheGrows c1 c2 -> cacheGrows c2 c3 -> cacheGrows c1 c3.
Proof. intros [_ H12] [S3 H23]. split; [exact S3 | auto]. Qed.

Lemma objectPrototype_truthy {platform : JS.Platform} (name v : string) :
  In (name, v) AppJs.objectPrototype -> JS.truthy v = true.
Proof.
  unfold AppJs.objectPrototype. simpl.
  intros H. repeat (destruct H as [H | H]; [injection H as <- <-|]);
    try contradiction; try apply JS.nativeFunctionText_truthy; reflexivity.
Qed.

(** Before anything is stored, the cache answers for the inherited names
    and for no other. *)
Lemma initial_lookup {platform : JS.Platform} (base name v : string) :
  AppJs.imageCache (AppJs.initial base) !! name = Some v <->
  In (name, v) AppJs.objectPrototype.
Proof.
  unfold AppJs.initial. cbn [AppJs.imageCache].
  rewrite <- list_elem_of_In. symmetry. apply elem_of_list_to_map.
  unfold AppJs.objectPrototype. simpl. apply NoDup_ListNoDup.
  repeat (constructor; [simpl; intuition discriminate |]). constructor.
Qed.

Lemma cacheSound_initial {platform : JS.Platform} (base : string) :
  cacheSound (AppJs.imageCache (AppJs.initial base)).
Proof. intros path v H. right. right. now apply initial_lookup in H. Qed.

Lemma cacheGrows_insert {platform : JS.Platform} (cache : gmap string string) (path x : string) :
  cacheSound cache ->
  cache !! path = None \/ cache !! path = Some x ->
  x = path \/ x = AppJs.placeholder ->
  cacheGrows cache (<[path := x]> cache).
Proof.
  intros Hs Hfree Hx. split.
  - intros p v. destruct (decide (path = p)) as [-> | Hne].
    + rewrite lookup_insert_eq. intros [= <-]. tauto.
    + rewrite lookup_insert_ne by exact Hne. apply Hs.
  - intros p v Hp. destruct (decide (path = p)) as [-> | Hne].
    + rewrite lookup_insert_eq. destruct Hfree as [E | E]; congruence.
    + now rewrite lookup_insert_ne.
Qed.

Lemma safeImageUrl_grows {platform : JS.Platform}
      (path : string) (probe : probeOutcome) (st : AppJs.state) :
  cacheSound (AppJs.imageCache st) ->
  cacheGrows (AppJs.imageCache st) (AppJs.imageCache (snd (AppJs.safeImageUrl path probe st))).
Proof.
  intros Hs. unfold AppJs.safeImageUrl.
  destruct (AppJs.imageCache st !! path) eqn:E; simpl.
  - now apply cacheGrows_refl.
  - destruct probe; simpl; apply cacheGrows_insert; auto.
Qed.

Lemma preloadImages_grows {platform : JS.Platform} (paths : list string) (st : AppJs.state) :
  cacheSound (AppJs.imageCache st) ->
  cacheGrows (AppJs.imageCache st) (AppJs.imageCache (AppJs.preloadImages paths st)).
Proof.
  intros Hs. unfold AppJs.preloadImages.
  apply (forEach_ind (fun s => cacheGrows (AppJs.imageCache st) (AppJs.imageCache s))).
  - now apply cacheGrows_refl.
  - intros path acc _ Hacc.
    destruct (AppJs.imageCache acc !! path) as [v|] eqn:E; simpl.
    + destruct v as [|c v]; simpl; [| exact Hacc].
      eapply cacheGrows_trans; [exact Hacc |].
      apply cacheGrows_insert; [apply Hacc | | now left].
      right. rewrite E. f_equal.
      destruct (proj1 Hacc path EmptyString E) as [<- | [Hp | Hp]];
        [reflexivity | discriminate Hp |].
      apply objectPrototype_truthy in Hp. discriminate Hp.
    + eapply cacheGrows_trans; [exact Hacc |].
      apply cacheGrows_insert; [apply Hacc | now left | now left].
Qed.

(** A property of the image cache and of the requests sent that
    [safeImageUrl] preserves is preserved by the rendering of a subject. *)
Section Preserved.
Variable P : AppJs.state -> Prop.
Hypothesis P_frame : forall st st',
  AppJs.imageCache st' = AppJs.imageCache st -> AppJs.requests st' = AppJs.requests st ->
  P st -> P st'.
Hypothesis P_image : forall path probe st, P st -> P (snd (AppJs.safeImageUrl path probe st)).

Lemma renderCard_preserves (probe : string -> probeOutcome) (c : Card) (st : AppJs.state) :
  P st -> P (snd (AppJs.renderCard probe c st)).
Proof.
  intros Hs. unfold AppJs.renderCard.
  match goal with
  | |- context [AppJs.safeImageUrl ?p ?o st] =>
      pose proof (P_image p o st Hs) as H;
      destruct (AppJs.safeImageUrl p o st) as [url st']
  end.
  exact H.
Qed.

Lemma renderGroup_preserves (probe : string -> probeOutcome) (g : Group) (st : AppJs.state) :
  P st -> P (snd (AppJs.renderGroup probe g st)).
Proof.
  intros Hs. unfold AppJs.renderGroup.
  match goal with
  | |- context [forEach ?l ?body ?init] =>
      assert (H : P (snd (forEach l body init)))
  end.
  { apply (forEach_ind (fun acc => P (snd acc))); [exact Hs|].
    intros c [el acc] _ Hacc. cbn [snd] in Hacc.
    pose proof (renderCard_preserves probe c acc Hacc) as Hc.
    destruct (AppJs.renderCard probe c acc) as [cardEl acc']. exact Hc. }
  match goal with
  | H : context [forEach ?l ?body ?init] |- _ => destruct (forEach l body init) as [grid st']
  end.
  exact H.
Qed.

Lemma renderMateria_preserves (probe : string -> probeOutcome) (id : string)
      (st : AppJs.state) :
  P st -> P (AppJs.renderMateria probe id st).
Proof.
  intros Hs. unfold AppJs.renderMateria.
  destruct (arrayFind _ (AppJs.glossaryData st)) as [subject|];
    [| now apply (P_frame st)].
  match goal with
  | |- context [forEach ?l ?body ?init] =>
      assert (H : P (snd (forEach l body init)))
  end.
  { apply (forEach_ind (fun acc => P (snd acc))); [now apply (P_frame st)|].
    intros g [el acc] _ Hacc. cbn [snd] in Hacc.
    pose proof (renderGroup_preserves probe g acc Hacc) as Hg.
    destruct (AppJs.renderGroup probe g acc) as [groupEl acc']. exact Hg. }
  match goal with
  | H : context [forEach ?l ?body ?init] |- _ => destruct (forEach l body init) as [container st']
  end.
  now apply (P_frame st').
Qed.
End Preserved.

Lemma renderMateria_grows {platform : JS.Platform}
      (probe : string -> probeOutcome) (id : string) (st : AppJs.state) :
  cacheSound (AppJs.imageCache st) ->
  cacheGrows (AppJs.imageCache st) (AppJs.imageCache (AppJs.renderMateria probe id st)).
Proof.
  intros Hs.
  apply (renderMateria_preserves
           (fun st' => cacheGrows (AppJs.imageCache st) (AppJs.imageCache st'))).
  - intros st1 st2 E _. now rewrite E.
  - intros path p st1 H1. eapply cacheGrows_trans; [exact H1 |].
    apply safeImageUrl_grows, H1.
  - now apply cacheGrows_refl.
Qed.

Lemma handleSearch_imageCache {platform : JS.Platform} (v : string) (st : AppJs.state) :
  AppJs.imageCache (AppJs.handleSearch v st) = AppJs.imageCache st.
Proof.
  unfold AppJs.handleSearch.
  destruct (JS.stringLength (JS.toLowerCase v) =? 0); [reflexivity|].
  destruct (0 <? length _); [| reflexivity]. simpl.
  apply (forEach_ind (fun s => AppJs.imageCache s = AppJs.imageCache st)); [reflexivity|].
  intros item acc _ H. exact H.
Qed.

Lemma handleSearch_requests {platform : JS.Platform} (v : string) (st : AppJs.state) :
  AppJs.requests (AppJs.handleSearch v st) = AppJs.requests st.
Proof.
  unfold AppJs.handleSearch.
  destruct (JS.stringLength (JS.toLowerCase v) =? 0); [reflexivity|].
  destruct (0 <? length _); [| reflexivity]. simpl.
  apply (forEach_ind (fun s => AppJs.requests s = AppJs.requests st)); [reflexivity|].
  intros item acc _ H. exact H.
Qed.

Lemma runOp_grows {platform : JS.Platform} (op : operation) (st : AppJs.state) :
  cacheSound (AppJs.imageCache st) ->
  cacheGrows (AppJs.imageCache st) (AppJs.imageCache (runOp op st)).
Proof.
  intros Hs. destruct op as [response | paths | path probe | probe id | v]; simpl.
  - destruct response; simpl; now apply cacheGrows_refl.
  - now apply preloadImages_grows.
  - now apply safeImageUrl_grows.
  - now apply renderMateria_grows.
  - rewrite handleSearch_imageCache. now apply cacheGrows_refl.
Qed.

Lemma run_grows {platform : JS.Platform} (ops : list operation) (st : AppJs.state) :
  cacheSound (AppJs.imageCache st) ->
  cacheGrows (AppJs.imageCache st) (AppJs.imageCache (run ops st)).
Proof.
  intros Hs. unfold run.
  apply (forEach_ind (fun s => cacheGrows (AppJs.imageCache st) (AppJs.imageCache s))).
  - now apply cacheGrows_refl.
  - intros op acc _ Hacc. eapply cacheGrows_trans; [exact Hacc |].
    apply runOp_grows, Hacc.
Qed.

Lemma safeImageUrl_halves (path : string) (probe : probeOutcome) (st : AppJs.state) :
  AppJs.safeImageUrl path probe st =
  match AppJs.safeImageUrlStart path st with
  | (Some cached, st') => (cached, st')
  | (None, st') => AppJs.safeImageUrlSettle path probe st'
  end.
Proof.
  unfold AppJs.safeImageUrl, AppJs.safeImageUrlStart, AppJs.safeImageUrlSettle.
  destruct (AppJs.imageCache st !! path); [reflexivity|]. now destruct probe.
Qed.

(** ** The inherited entries *)

Lemma objectPrototype_name {platform : JS.Platform} (name v : string) (st : AppJs.state) :
  inheritedKept st -> In (name, v) AppJs.objectPrototype ->
  forall path, AppJs.imageCache st !! path = None \/ headSent path st = true \/
               AppJs.imageCache st !! path = Some EmptyString ->
               path <> name.
Proof.
  intros Hk Hin path Hpath ->. destruct (Hk name v Hin) as [E Hh].
  destruct Hpath as [H | [H | H]]; try congruence.
  rewrite E in H. injection H as ->.
  apply objectPrototype_truthy in Hin. discriminate Hin.
Qed.

Lemma headSent_logRequest (path : string) (r : request) (st : AppJs.state) :
  headSent path (AppJs.logRequest r st) =
  headSent path st || match r with HEAD url => String.eqb url path | _ => false end.
Proof.
  unfold headSent. cbn [AppJs.requests AppJs.logRequest].
  rewrite existsb_app. cbn [existsb]. now rewrite orb_false_r.
Qed.

Lemma inheritedKept_write {platform : JS.Platform} (path x : string) (st : AppJs.state) :
  inheritedKept st ->
  (forall name v, In (name, v) AppJs.objectPrototype -> path <> name) ->
  inheritedKept (AppJs.withImageCache (<[path := x]> (AppJs.imageCache st)) st).
Proof.
  intros Hk Hne name v Hin. destruct (Hk name v Hin) as [E Hh]. split.
  - cbn [AppJs.imageCache AppJs.withImageCache].
    rewrite lookup_insert_ne by exact (Hne name v Hin). exact E.
  - exact Hh.
Qed.

Lemma inheritedKept_head {platform : JS.Platform} (path : string) (st : AppJs.state) :
  inheritedKept st ->
  (forall name v, In (name, v) AppJs.objectPrototype -> path <> name) ->
  inheritedKept (AppJs.logRequest (HEAD path) st).
Proof.
  intros Hk Hne name v Hin. destruct (Hk name v Hin) as [E Hh]. split; [exact E|].
  rewrite headSent_logRequest, Hh. cbn [orb].
  destruct (String.eqb_spec path name) as [Heq | _]; [| reflexivity].
  now destruct (Hne name v Hin).
Qed.

Lemma safeImageUrlStart_inherited {platform : JS.Platform} (path : string) (st : AppJs.state) :
  inheritedKept st -> inheritedKept (snd (AppJs.safeImageUrlStart path st)).
Proof.
  intros Hk. unfold AppJs.safeImageUrlStart.
  destruct (AppJs.imageCache st !! path) eqn:E; [exact Hk|]. cbn [snd].
  apply inheritedKept_head; [exact Hk|].
  intros name v Hin. apply (objectPrototype_name name v st Hk Hin). now left.
Qed.

Lemma safeImageUrlSettle_inherited {platform : JS.Platform}
      (path : string) (probe : probeOutcome) (st : AppJs.state) :
  inheritedKept st ->
  (forall name v, In (name, v) AppJs.objectPrototype -> path <> name) ->
  inheritedKept (snd (AppJs.safeImageUrlSettle path probe st)).
Proof.
  intros Hk Hne. unfold AppJs.safeImageUrlSettle.
  destruct probe; cbn [snd]; now apply inheritedKept_write.
Qed.

Lemma safeImageUrl_inherited {platform : JS.Platform}
      (path : string) (probe : probeOutcome) (st : AppJs.state) :
  inheritedKept st -> inheritedKept (snd (AppJs.safeImageUrl path probe st)).
Proof.
  intros Hk. rewrite safeImageUrl_halves.
  pose proof (safeImageUrlStart_inherited path st Hk) as Hstart.
  unfold AppJs.safeImageUrlStart in *.
  destruct (AppJs.imageCache st !! path) eqn:E; [exact Hk|]. cbn [snd] in Hstart.
  apply safeImageUrlSettle_inherited; [exact Hstart|].
  intros name v Hin. apply (objectPrototype_name name v st Hk Hin). now left.
Qed.

Lemma preloadImages_inherited {platform : JS.Platform} (paths : list string) (st : AppJs.state) :
  inheritedKept st -> inheritedKept (AppJs.preloadImages paths st).
Proof.
  intros Hk. unfold AppJs.preloadImages. apply forEach_ind; [exact Hk|].
  intros path acc _ Hacc.
  assert (Hwrite : (forall name v, In (name, v) AppJs.objectPrototype -> path <> name) ->
                   inheritedKept
                     (AppJs.withImageCache
                        (<[path := path]> (AppJs.imageCache (AppJs.logRequest (IMG path) acc)))
                        (AppJs.logRequest (IMG path) acc))).
  { intros Hne. apply inheritedKept_write; [| exact Hne].
    intros name v Hin. destruct (Hacc name v Hin) as [E Hh]. split; [exact E|].
    rewrite headSent_logRequest, Hh. reflexivity. }
  destruct (AppJs.imageCache acc !! path) as [v|] eqn:E; cbn [negb].
  - destruct v as [|c v]; cbn [JS.truthy negb]; [| exact Hacc].
    apply Hwrite. intros name v Hin.
    apply (objectPrototype_name name v acc Hacc Hin). now right; right.
  - apply Hwrite. intros name v Hin.
    apply (objectPrototype_name name v acc Hacc Hin). now left.
Qed.

Lemma inheritedKept_frame {platform : JS.Platform} (st st' : AppJs.state) :
  AppJs.imageCache st' = AppJs.imageCache st -> AppJs.requests st' = AppJs.requests st ->
  inheritedKept st -> inheritedKept st'.
Proof.
  intros Ec Er Hk name v Hin. destruct (Hk name v Hin) as [E Hh].
  unfold headSent in *. rewrite Ec, Er. now split.
Qed.

Lemma runOp_inherited {platform : JS.Platform} (op : operation) (st : AppJs.state) :
  inheritedKept st -> inheritedKept (runOp op st).
Proof.
  intros Hk. destruct op as [response | paths | path probe | probe id | v]; simpl.
  - intros name w Hin. destruct (Hk name w Hin) as [E Hh].
    destruct response; (split; [exact E|]); unfold headSent in *; cbn; 
      rewrite existsb_app, Hh; reflexivity.
  - now apply preloadImages_inherited.
  - now apply safeImageUrl_inherited.
  - apply (renderMateria_preserves inheritedKept); [| | exact Hk].
    + intros st1 st2 Ec Er. now apply inheritedKept_frame.
    + intros path p st1. apply safeImageUrl_inherited.
  - apply (inheritedKept_frame st); [apply handleSearch_imageCache | | exact Hk].
    apply handleSearch_requests.
Qed.

Lemma initial_inherited {platform : JS.Platform} (base : string) :
  inheritedKept (AppJs.initial base).
Proof. intros name v Hin. split; [now apply initial_lookup | reflexivity]. Qed.

Lemma runEvents_inherited {platform : JS.Platform} (events : list event) (st : AppJs.state) :
  inheritedKept st -> inheritedKept (runEvents events st).
Proof.
  intros Hk. unfold runEvents. apply forEach_ind; [exact Hk|].
  intros e acc _ Hacc. destruct e as [op | path | path probe]; simpl.
  - now apply runOp_inherited.
  - now apply safeImageUrlStart_inherited.
  - destruct (headSent path acc) eqn:Hsent; [| exact Hacc].
    apply safeImageUrlSettle_inherited; [exact Hacc|].
    intros name v Hin. apply (objectPrototype_name name v acc Hacc Hin). now right; left.
Qed.

Lemma cacheSound_insert {platform : JS.Platform} (cache : gmap string string) (path x : string) :
  cacheSound cache -> x = path \/ x = AppJs.placeholder -> cacheSound (<[path := x]> cache).
Proof.
  intros Hs Hx p v. destruct (decide (path = p)) as [-> | Hne].
  - rewrite lookup_insert_eq. intros [= <-]. tauto.
  - rewrite lookup_insert_ne by exact Hne. apply Hs.
Qed.

Lemma runEvents_sound {platform : JS.Platform} (events : list event) (st : AppJs.state) :
  cacheSound (AppJs.imageCache st) -> cacheSound (AppJs.imageCache (runEvents events st)).
Proof.
  intros Hs. unfold runEvents.
  apply (forEach_ind (fun s => cacheSound (AppJs.imageCache s))); [exact Hs|].
  intros e acc _ Hacc. destruct e as [op | path | path probe]; simpl.
  - apply runOp_grows, Hacc.
  - unfold AppJs.safeImageUrlStart. now destruct (AppJs.imageCache acc !! path).
  - destruct (headSent path acc); [| exact Hacc].
    destruct probe; simpl; apply cacheSound_insert; auto.
Qed.

(** An entry of the cache is left as it is by everything but the answer to
    a HEAD request for its own path. *)
Lemma runEvent_keeps {platform : JS.Platform} (e : event) (st : AppJs.state) (path v : string) :
  cacheSound (AppJs.imageCache st) ->
  AppJs.imageCache st !! path = Some v ->
  (forall probe, e <> ProbeAnswers path probe) ->
  AppJs.imageCache (runEvent e st) !! path = Some v.
Proof.
  intros Hs E He. destruct e as [op | path' | path' probe]; simpl.
  - now apply (runOp_grows op st Hs).
  - unfold AppJs.safeImageUrlStart. now destruct (AppJs.imageCache st !! path').
  - destruct (decide (path' = path)) as [-> | Hne]; [now destruct (He probe) |].
    destruct (headSent path' st); [| exact E].
    destruct probe; simpl; now rewrite lookup_insert_ne.
Qed.

(** With overlapping calls the last writer wins: an answer that arrives
    after [preloadImages] has cached the raw path replaces it. *)
Example late_answer_overwrites :
  let st0 := AppJs.initial EmptyString in
  let st1 := runEvents [ProbeStarts "a.png"; Call (OpPreload ["a.png"])] st0 in
  let st2 := runEvents [ProbeAnswers "a.png" ProbeNotOk] st1 in
  AppJs.imageCache st1 !! "a.png" = Some "a.png" /\
  AppJs.imageCache st2 !! "a.png" = Some "assets/images/placeholder.png".
Proof. split; vm_compute; reflexivity. Qed.

(* ===================================================================== *)
(** * C10: the invariant of image resolution in app.js *)
(* ===================================================================== *)

(** [safeImageUrl] does return other values than the path and the
    placeholder: for [constructor], which the cache object inherits, it
    returns the inherited function and sends no request.  And a cached
    value is not final: when two calls for one image overlap, both send
    their request, and the answer to the second replaces what the answer to
    the first has cached. *)
Lemma C10_counterexample : ~ resolves_to_path_or_placeholder /\ ~ cached_value_is_final.
Proof.
  split; intros H.
  - destruct (H EmptyString "constructor" ProbeOk) as [E | E];
      vm_compute in E; discriminate E.
  - specialize (H EmptyString "a.png" "a.png"
                  [ProbeStarts "a.png"; ProbeStarts "a.png"; ProbeAnswers "a.png" ProbeOk]
                  [ProbeAnswers "a.png" ProbeNotOk] ProbeOk).
    vm_compute in H. specialize (H eq_refl). discriminate H.
Qed.

(** C10, amended.  In app.js, in every state reached from the initial one
    by calls of the script, overlapping or not, each cache entry maps a path
    to itself or to the placeholder, or is one of the entries the cache
    object inherits.  So for a path that is not an inherited name
    [safeImageUrl] returns the path it is given or
    [assets/images/placeholder.png]; for an inherited name it returns, in
    every such state, the inherited value and sends no request.  A call for
    a path that has an entry returns that entry and changes nothing.  An
    entry is left as it is by every whole call and by every step of an
    overlapping call but the answer to a HEAD request for that same path,
    which replaces it by the path or the placeholder.  [safeImageUrl]
    caches what it returns; [preloadImages] caches the raw path itself for a
    path not yet cached, with an image load and no HEAD probe.  So for a
    missing image the value depends on who wrote first: the raw path after
    [preloadImages], the placeholder after [safeImageUrl]. *)
Theorem C10_image_resolution_invariant {platform : JS.Platform} :
  (forall (events : list event) (base : string),
      cacheSound (AppJs.imageCache (runEvents events (AppJs.initial base)))) /\
  (forall (st : AppJs.state) (path : string) (probe : probeOutcome),
      cacheSound (AppJs.imageCache st) ->
      ~ In path (map fst AppJs.objectPrototype) ->
      fst (AppJs.safeImageUrl path probe st) = path \/
      fst (AppJs.safeImageUrl path probe st) = "assets/images/placeholder.png") /\
  (forall (base name v : string) (events : list event) (probe : probeOutcome),
      In (name, v) AppJs.objectPrototype ->
      AppJs.safeImageUrl name probe (runEvents events (AppJs.initial base)) =
        (v, runEvents events (AppJs.initial base))) /\
  (forall (st : AppJs.state) (path v : string) (probe : probeOutcome),
      AppJs.imageCache st !! path = Some v ->
      AppJs.safeImageUrl path probe st = (v, st)) /\
  (forall (st : AppJs.state) (path v : string) (ops : list operation) (probe : probeOutcome),
      cacheSound (AppJs.imageCache st) ->
      AppJs.imageCache st !! path = Some v ->
      AppJs.safeImageUrl path probe (run ops st) = (v, run ops st)) /\
  (forall (st : AppJs.state) (path v : string) (e : event),
      cacheSound (AppJs.imageCache st) ->
      AppJs.imageCache st !! path = Some v ->
      (forall probe, e <> ProbeAnswers path probe) ->
      AppJs.imageCache (runEvent e st) !! path = Some v) /\
  (forall (st : AppJs.state) (path : string) (probe : probeOutcome),
      headSent path st = true ->
      AppJs.imageCache (runEvent (ProbeAnswers path probe) st) !! path =
        Some (match probe with
              | ProbeOk => path
              | ProbeNotOk | ProbeRejects => "assets/images/placeholder.png"
              end)) /\
  (forall (st : AppJs.state) (path : string) (probe : probeOutcome),
      AppJs.imageCache (snd (AppJs.safeImageUrl path probe st)) !! path =
        Some (fst (AppJs.safeImageUrl path probe st))) /\
  (forall (st : AppJs.state) (path : string),
      AppJs.imageCache st !! path = None ->
      AppJs.imageCache (AppJs.preloadImages [path] st) !! path = Some path /\
      AppJs.requests (AppJs.preloadImages [path] st) = AppJs.requests st ++ [IMG path]) /\
  (forall (st : AppJs.state) (path : string) (probe : probeOutcome),
      AppJs.imageCache st !! path = None -> probe <> ProbeOk ->
      fst (AppJs.safeImageUrl path probe (AppJs.preloadImages [path] st)) = path /\
      fst (AppJs.safeImageUrl path probe
             (AppJs.preloadImages [path] (snd (AppJs.safeImageUrl path probe st)))) =
        "assets/images/placeholder.png").
Proof.
  split; [| split; [| split; [| split; [| split; [| split; [| split; [| split; [| split]]]]]]]].
  - intros events base. apply runEvents_sound, cacheSound_initial.
  - intros st path probe Hs Hown. unfold AppJs.safeImageUrl.
    destruct (AppJs.imageCache st !! path) as [v|] eqn:E; simpl.
    + destruct (Hs path v E) as [-> | [-> | Hin]]; auto.
      destruct Hown. apply in_map_iff. now exists (path, v).
    + destruct probe; auto.
  - intros base name v events probe Hin.
    destruct (runEvents_inherited events _ (initial_inherited base) name v Hin) as [E _].
    unfold AppJs.safeImageUrl. now rewrite E.
  - intros st path v probe E. unfold AppJs.safeImageUrl. now rewrite E.
  - intros st path v ops probe Hs E.
    destruct (run_grows ops st Hs) as [_ Hkeep].
    unfold AppJs.safeImageUrl. now rewrite (Hkeep path v E).
  - intros st path v e. apply runEvent_keeps.
  - intros st path probe Hsent. simpl. rewrite Hsent.
    destruct probe; simpl; apply lookup_insert_eq.
  - intros st path probe. unfold AppJs.safeImageUrl.
    destruct (AppJs.imageCache st !! path) as [v|] eqn:E; simpl; [exact E|].
    destruct probe; simpl; apply lookup_insert_eq.
  - intros st path E. unfold AppJs.preloadImages. simpl. rewrite E. simpl.
    split; [apply lookup_insert_eq | reflexivity].
  - intros st path probe E Hprobe. split.
    + unfold AppJs.preloadImages. simpl. rewrite E. simpl.
      unfold AppJs.safeImageUrl. simpl. now rewrite lookup_insert_eq.
    + unfold AppJs.safeImageUrl at 2. rewrite E.
      destruct probe; [contradiction | |];
        unfold AppJs.preloadImages; simpl; rewrite lookup_insert_eq; simpl;
        unfold AppJs.safeImageUrl; simpl; now rewrite lookup_insert_eq.
Qed.

Lemma C10_witness :
  (fst (AppJs.safeImageUrl "a.png" ProbeNotOk (AppJs.initial EmptyString)) = "a.png" \/
   fst (AppJs.safeImageUrl "a.png" ProbeNotOk (AppJs.initial EmptyString)) =
     "assets/images/placeholder.png") /\
  (AppJs.safeImageUrl "toString" ProbeNotOk
     (runEvents [Call (OpPreload ["toString"])] (AppJs.initial EmptyString)) =
   (JS.nativeFunctionText "toString",
    runEvents [Call (OpPreload ["toString"])] (AppJs.initial EmptyString))) /\
  (let st := snd (AppJs.safeImageUrl "a.png" ProbeNotOk (AppJs.initial EmptyString)) in
   AppJs.safeImageUrl "a.png" ProbeOk st = ("assets/images/placeholder.png", st) /\
   AppJs.safeImageUrl "a.png" ProbeOk (run [OpPreload ["a.png"; "b.png"]] st) =
     ("assets/images/placeholder.png", run [OpPreload ["a.png"; "b.png"]] st) /\
   AppJs.imageCache (runEvent (ProbeStarts "a.png") st) !! "a.png" =
     Some "assets/images/placeholder.png") /\
  (AppJs.imageCache (AppJs.preloadImages ["a.png"] (AppJs.initial EmptyString)) !! "a.png" =
     Some "a.png" /\
   AppJs.requests (AppJs.preloadImages ["a.png"] (AppJs.initial EmptyString)) =
     AppJs.requests (AppJs.initial EmptyString) ++ [IMG "a.png"]) /\
  (fst (AppJs.safeImageUrl "a.png" ProbeRejects
          (AppJs.preloadImages ["a.png"] (AppJs.initial EmptyString))) = "a.png" /\
   fst (AppJs.safeImageUrl "a.png" ProbeRejects
          (AppJs.preloadImages ["a.png"]
             (snd (AppJs.safeImageUrl "a.png" ProbeRejects (AppJs.initial EmptyString))))) =
     "assets/images/placeholder.png").
Proof.
  destruct C10_image_resolution_invariant
    as (Hinv & Hval & Hinh & Hhit & Hstable & Hkeep & _ & _ & Hpre & Horder).
  split; [| split; [| split; [| split]]].
  - apply Hval; [apply (Hinv [] EmptyString) |].
    simpl. intuition discriminate.
  - apply Hinh. simpl. tauto.
  - split; [| split].
    + apply Hhit. reflexivity.
    + apply Hstable.
      * apply (Hinv [Call (OpResolve "a.png" ProbeNotOk)] EmptyString).
      * reflexivity.
    + apply Hkeep.
      * apply (Hinv [Call (OpResolve "a.png" ProbeNotOk)] EmptyString).
      * reflexivity.
      * discriminate.
  - apply Hpre. reflexivity.
  - apply Horder; [reflexivity | discriminate].
Defined.

(* ===================================================================== *)
(** * The subtree app.js renders *)
(* ===================================================================== *)

Lemma append_nil_r (s : string) : s +:+ EmptyString = s.
Proof.
  induction s as [|c s IH]; [reflexivity|].
  change (String c (s +:+ EmptyString) = String c s). now rewrite IH.
Qed.

Lemma append_assoc (a b c : string) : (a +:+ b) +:+ c = a +:+ b +:+ c.
Proof.
  induction a as [|x a IH]; [reflexivity|].
  change (String x ((a +:+ b) +:+ c) = String x (a +:+ b +:+ c)). now rewrite IH.
Qed.

Lemma concat_cons (x : string) (l : list string) :
  String.concat EmptyString (x :: l) = x +:+ String.concat EmptyString l.
Proof. destruct l; simpl; [rewrite append_nil_r |]; reflexivity. Qed.

Lemma concat_app (l1 l2 : list string) :
  String.concat EmptyString (l1 ++ l2) =
  String.concat EmptyString l1 +:+ String.concat EmptyString l2.
Proof.
  induction l1 as [|x l1 IH]; [reflexivity|].
  rewrite <- app_comm_cons, !concat_cons, IH. now rewrite append_assoc.
Qed.

Lemma list_sum_app (l1 l2 : list nat) : list_sum (l1 ++ l2) = list_sum l1 + list_sum l2.
Proof. induction l1 as [|x l1 IH]; simpl; [reflexivity | rewrite IH; lia]. Qed.

Section CreateElFacts.
Variable htmlText : string -> string.
Variable selector : list (string * string) -> bool.
Variable htmlCount : string -> nat.

Lemma appendChild_createEl (n : node) (tag cls id text : string)
      (attrs : list (string * string)) (children : list node) :
  appendChild n (AppJs.createEl tag cls id text attrs children) =
  AppJs.createEl tag cls id text attrs (children ++ [n]).
Proof. unfold AppJs.createEl, appendChild. now rewrite <- app_assoc. Qed.

Lemma textContent_createEl (tag cls id text : string)
      (attrs : list (string * string)) (children : list node) :
  textContent htmlText (AppJs.createEl tag cls id text attrs children) =
  text +:+ textContentOf htmlText children.
Proof.
  unfold AppJs.createEl, textContentOf. cbn [textContent].
  rewrite map_app, concat_app. destruct text; [reflexivity|].
  reflexivity.
Qed.

Lemma countElements_createEl (tag cls id text : string)
      (attrs : list (string * string)) (children : list node) :
  countElements selector htmlCount (AppJs.createEl tag cls id text attrs children) =
  (if selector ((if JS.truthy cls then [("class", cls)] else []) ++
                (if JS.truthy id then [("id", id)] else []) ++ attrs)
   then 1 else 0) + countElementsOf selector htmlCount children.
Proof.
  unfold AppJs.createEl, countElementsOf. cbn [countElements].
  rewrite map_app, list_sum_app. now destruct text.
Qed.

Lemma textContentOf_cons (n : node) (l : list node) :
  textContentOf htmlText (n :: l) = textContent htmlText n +:+ textContentOf htmlText l.
Proof. unfold textContentOf. cbn [map]. apply concat_cons. Qed.

Lemma textContentOf_app (l1 l2 : list node) :
  textContentOf htmlText (l1 ++ l2) = textContentOf htmlText l1 +:+ textContentOf htmlText l2.
Proof. unfold textContentOf. rewrite map_app. apply concat_app. Qed.

Lemma countElementsOf_cons (n : node) (l : list node) :
  countElementsOf selector htmlCount (n :: l) =
  countElements selector htmlCount n + countElementsOf selector htmlCount l.
Proof. reflexivity. Qed.

Lemma countElementsOf_app (l1 l2 : list node) :
  countElementsOf selector htmlCount (l1 ++ l2) =
  countElementsOf selector htmlCount l1 + countElementsOf selector htmlCount l2.
Proof. unfold countElementsOf. rewrite map_app. apply list_sum_app. Qed.
End CreateElFacts.

Lemma forEach_render_append {A : Type} (render : A -> AppJs.state -> node * AppJs.state)
      (tag cls id text : string) (attrs : list (string * string)) (l : list A) :
  forall (children : list node) (st : AppJs.state),
    forEach l (fun x '(el, st) =>
                 let '(n, st) := render x st in (appendChild n el, st))
            (AppJs.createEl tag cls id text attrs children, st) =
    (AppJs.createEl tag cls id text attrs (children ++ fst (renderAll render l st)),
     snd (renderAll render l st)).
Proof.
  induction l as [|x l IH]; intros children st.
  - simpl. now rewrite app_nil_r.
  - rewrite forEach_cons. cbn [renderAll].
    destruct (render x st) as [n st1]. rewrite appendChild_createEl, IH.
    destruct (renderAll render l st1) as [ns st2]. cbn [fst snd].
    now rewrite <- app_assoc.
Qed.

Lemma renderAll_map {A B : Type} (render : A -> AppJs.state -> node * AppJs.state)
      (observe : node -> B) (expected : A -> B) :
  (forall x st, observe (fst (render x st)) = expected x) ->
  forall l st, map observe (fst (renderAll render l st)) = map expected l.
Proof.
  intros H. induction l as [|x l IH]; intros st; [reflexivity|].
  cbn [renderAll]. specialize (H x st). destruct (render x st) as [n st1].
  specialize (IH st1). destruct (renderAll render l st1) as [ns st2].
  cbn [fst map] in *. now rewrite H, IH.
Qed.

Lemma renderCard_shape (probe : string -> probeOutcome) (c : Card) (st : AppJs.state) :
  AppJs.renderCard probe c st =
  (cardElement
     (fst (AppJs.safeImageUrl (AppJs.baseURI st +:+ "assets/images/" +:+ c_img c)
                              (probe (AppJs.baseURI st +:+ "assets/images/" +:+ c_img c)) st)) c,
   snd (AppJs.safeImageUrl (AppJs.baseURI st +:+ "assets/images/" +:+ c_img c)
                           (probe (AppJs.baseURI st +:+ "assets/images/" +:+ c_img c)) st)).
Proof.
  unfold AppJs.renderCard.
  change (srcAttribute _) with ("assets/images/" +:+ c_img c).
  destruct (AppJs.safeImageUrl _ _ st) as [url st']. reflexivity.
Qed.

Lemma cardElement_text (htmlText : string -> string) (url : string) (c : Card) :
  textContent htmlText (cardElement url c) = cardText c.
Proof.
  unfold cardElement, cardText.
  repeat (rewrite ?textContent_createEl, ?textContentOf_cons).
  unfold textContentOf. cbn [map String.concat].
  repeat (rewrite ?append_nil_r, ?append_assoc). reflexivity.
Qed.

Lemma cardElement_count (htmlCount : string -> nat) (url : string) (c : Card) :
  countElements isCard htmlCount (cardElement url c) = 1.
Proof.
  unfold cardElement.
  repeat (rewrite ?countElements_createEl, ?countElementsOf_cons). reflexivity.
Qed.

Lemma cardElement_placeholder (htmlCount : string -> nat) (c : Card) :
  countElements (srcIs "assets/images/placeholder.png") htmlCount
                (cardElement "assets/images/placeholder.png" c) = 1.
Proof.
  unfold cardElement.
  repeat (rewrite ?countElements_createEl, ?countElementsOf_cons). reflexivity.
Qed.

Lemma renderGroup_shape (probe : string -> probeOutcome) (g : Group) (st : AppJs.state) :
  AppJs.renderGroup probe g st =
  (groupElement g (fst (renderAll (AppJs.renderCard probe) (g_cards g) st)),
   snd (renderAll (AppJs.renderCard probe) (g_cards g) st)).
Proof.
  unfold AppJs.renderGroup. rewrite (forEach_render_append (AppJs.renderCard probe)).
  lazy beta iota zeta. unfold groupElement.
  destruct (0 <? length (g_members g)); rewrite !appendChild_createEl; reflexivity.
Qed.

Lemma renderMateria_shape (probe : string -> probeOutcome) (id : string)
      (s : Subject) (st : AppJs.state) :
  arrayFind (fun x => String.eqb (s_id x) id) (AppJs.glossaryData st) = Some s ->
  let st0 := AppJs.withSubjectArea [] (AppJs.withCurrentSubjectId (Some id) st) in
  AppJs.renderMateria probe id st =
  AppJs.withSubjectArea
    [subjectElement s (fst (renderAll (AppJs.renderGroup probe) (s_groups s) st0))]
    (snd (renderAll (AppJs.renderGroup probe) (s_groups s) st0)).
Proof.
  intros Hfind st0. unfold AppJs.renderMateria. rewrite Hfind. fold st0.
  rewrite (forEach_render_append (AppJs.renderGroup probe)).
  assert (Harea : forall l st', AppJs.subjectArea st' = [] ->
            AppJs.subjectArea (snd (renderAll (AppJs.renderGroup probe) l st')) = []).
  { induction l as [|g l IH]; intros st' H; [exact H|].
    cbn [renderAll]. rewrite renderGroup_shape.
    assert (Hcards : forall cs st'', AppJs.subjectArea st'' = [] ->
              AppJs.subjectArea (snd (renderAll (AppJs.renderCard probe) cs st'')) = []).
    { induction cs as [|c cs IHc]; intros st'' H''; [exact H''|].
      cbn [renderAll]. rewrite renderCard_shape.
      specialize (IHc (snd (AppJs.safeImageUrl
                              (AppJs.baseURI st'' +:+ "assets/images/" +:+ c_img c)
                              (probe (AppJs.baseURI st'' +:+ "assets/images/" +:+ c_img c))
                              st''))).
      destruct (renderAll (AppJs.renderCard probe) cs _) as [ns st3]. apply IHc.
      unfold AppJs.safeImageUrl. destruct (AppJs.imageCache st'' !! _); [exact H''|].
      destruct (probe _); exact H''. }
    specialize (IH (snd (renderAll (AppJs.renderCard probe) (g_cards g) st'))).
    destruct (renderAll (AppJs.renderGroup probe) l _) as [ns st3]. apply IH.
    now apply Hcards. }
  specialize (Harea (s_groups s) st0 eq_refl).
  destruct (renderAll (AppJs.renderGroup probe) (s_groups s) st0) as [groups st1].
  cbn [fst snd] in *. lazy beta iota zeta. rewrite Harea. unfold subjectElement.
  destruct (JS.truthy (s_description s)); rewrite !appendChild_createEl; reflexivity.
Qed.

Lemma list_sum_ones {A : Type} (l : list A) : list_sum (map (fun _ => 1) l) = length l.
Proof. induction l as [|x l IH]; simpl; [reflexivity | now rewrite IH]. Qed.

Section RenderedObservations.
Variable htmlText : string -> string.
Variable htmlCount : string -> nat.
Variable probe : string -> probeOutcome.

Lemma renderCard_text (c : Card) (st : AppJs.state) :
  textContent htmlText (fst (AppJs.renderCard probe c st)) = cardText c.
Proof. rewrite renderCard_shape. apply cardElement_text. Qed.

Lemma renderCard_count (c : Card) (st : AppJs.state) :
  countElements isCard htmlCount (fst (AppJs.renderCard probe c st)) = 1.
Proof. rewrite renderCard_shape. apply cardElement_count. Qed.

Lemma renderGroup_text (g : Group) (st : AppJs.state) :
  textContent htmlText (fst (AppJs.renderGroup probe g st)) = groupText g.
Proof.
  rewrite renderGroup_shape. unfold groupElement, groupText. cbn [fst].
  rewrite textContent_createEl, !textContentOf_app.
  unfold textContentOf at 3. cbn [map]. rewrite concat_cons, textContent_createEl.
  unfold textContentOf at 3.
  rewrite (renderAll_map (AppJs.renderCard probe) (textContent htmlText) cardText renderCard_text).
  destruct (0 <? length (g_members g)); unfold textContentOf; cbn [map String.concat];
    rewrite ?textContent_createEl; unfold textContentOf; cbn [map String.concat];
    repeat (rewrite ?append_nil_r, ?append_assoc); reflexivity.
Qed.

Lemma renderGroup_count (g : Group) (st : AppJs.state) :
  countElements isCard htmlCount (fst (AppJs.renderGroup probe g st)) = length (g_cards g).
Proof.
  rewrite renderGroup_shape. unfold groupElement. cbn [fst].
  rewrite countElements_createEl, !countElementsOf_app.
  unfold countElementsOf at 3. cbn [map list_sum]. rewrite countElements_createEl.
  unfold countElementsOf at 3.
  rewrite (renderAll_map (AppJs.renderCard probe) (countElements isCard htmlCount)
                         (fun _ => 1) renderCard_count), list_sum_ones.
  destruct (0 <? length (g_members g)); unfold countElementsOf; cbn [map list_sum];
    rewrite ?countElements_createEl; unfold countElementsOf; cbn [map list_sum];
    change (isCard _) with false; cbn; lia.
Qed.
End RenderedObservations.

Lemma renderAll_frame {A X : Type} (proj : AppJs.state -> X)
      (render : A -> AppJs.state -> node * AppJs.state) :
  (forall x st, proj (snd (render x st)) = proj st) ->
  forall l st, proj (snd (renderAll render l st)) = proj st.
Proof.
  intros H. induction l as [|x l IH]; intros st; [reflexivity|].
  cbn [renderAll]. specialize (H x st). destruct (render x st) as [n st1].
  specialize (IH st1). destruct (renderAll render l st1) as [ns st2].
  cbn [snd] in *. congruence.
Qed.

Lemma renderMateria_glossaryData (probe : string -> probeOutcome) (id : string)
      (st : AppJs.state) :
  AppJs.glossaryData (AppJs.renderMateria probe id st) = AppJs.glossaryData st.
Proof.
  destruct (arrayFind (fun x => String.eqb (s_id x) id) (AppJs.glossaryData st)) as [s|] eqn:E.
  - rewrite (renderMateria_shape probe id s st E). cbn [AppJs.glossaryData AppJs.withSubjectArea].
    rewrite (renderAll_frame AppJs.glossaryData (AppJs.renderGroup probe)); [reflexivity|].
    intros g st'. rewrite renderGroup_shape. cbn [snd].
    apply (renderAll_frame AppJs.glossaryData (AppJs.renderCard probe)).
    intros c st''. rewrite renderCard_shape. cbn [snd].
    unfold AppJs.safeImageUrl. destruct (AppJs.imageCache st'' !! _); [reflexivity|].
    now destruct (probe _).
  - unfold AppJs.renderMateria. now rewrite E.
Qed.

Lemma renderMateria_observed (htmlText : string -> string) (htmlCount : string -> nat)
      (probe : string -> probeOutcome) (id : string) (s : Subject) (st : AppJs.state) :
  arrayFind (fun x => String.eqb (s_id x) id) (AppJs.glossaryData st) = Some s ->
  textContentOf htmlText (AppJs.subjectArea (AppJs.renderMateria probe id st)) = subjectText s /\
  countElementsOf isCard htmlCount (AppJs.subjectArea (AppJs.renderMateria probe id st)) =
    cardsOf s.
Proof.
  intros E. rewrite (renderMateria_shape probe id s st E).
  cbn [AppJs.subjectArea AppJs.withSubjectArea]. unfold subjectElement. split.
  - unfold textContentOf at 1. cbn [map String.concat].
    rewrite textContent_createEl, !textContentOf_cons, !textContent_createEl.
    rewrite textContentOf_app.
    unfold textContentOf at 3.
    rewrite (renderAll_map (AppJs.renderGroup probe) (textContent htmlText) groupText
                           (renderGroup_text htmlText probe)).
    unfold subjectText.
    destruct (s_description s) as [|a d]; cbn [JS.truthy];
      unfold textContentOf; cbn [map String.concat];
      rewrite ?textContent_createEl; unfold textContentOf; cbn [map String.concat];
      repeat (rewrite ?append_nil_r, ?append_assoc); reflexivity.
  - unfold countElementsOf at 1. cbn [map list_sum].
    rewrite countElements_createEl, !countElementsOf_cons, !countElements_createEl.
    rewrite countElementsOf_app.
    unfold countElementsOf at 3.
    rewrite (renderAll_map (AppJs.renderGroup probe) (countElements isCard htmlCount)
                           (fun g => length (g_cards g)) (renderGroup_count htmlCount probe)).
    unfold cardsOf.
    destruct (JS.truthy (s_description s));
      unfold countElementsOf; cbn [map list_sum];
      rewrite ?countElements_createEl; unfold countElementsOf; cbn [map list_sum];
      change (isCard _) with false; cbn; lia.
Qed.

(* ===================================================================== *)
(** * C7: rendering is deterministic *)
(* ===================================================================== *)

(** C7.  For an id present in the document, what [renderMateria] puts on
    the page depends on the id and the document only.  In app.js the text
    content and the number of card elements of the subject area are those
    of the subject (its text, one card element per card) whatever the page
    showed before, whatever the image cache holds and whatever the image
    probes answer; so two calls, the second from the state the first left,
    agree on both.  In the two scripts of part_000 the content written is
    the same node, or the same markup, from any two states that hold the
    same document; the text content and the card count the browser derives
    from equal markup are equal. *)
Theorem C7_render_deterministic {platform : JS.Platform} :
  (forall (htmlText : string -> string) (htmlCount : string -> nat)
          (probe1 probe2 : string -> probeOutcome) (id : string) (st1 st2 : AppJs.state),
      AppJs.glossaryData st1 = AppJs.glossaryData st2 ->
      In id (map s_id (AppJs.glossaryData st1)) ->
      textContentOf htmlText (AppJs.subjectArea (AppJs.renderMateria probe1 id st1)) =
      textContentOf htmlText (AppJs.subjectArea (AppJs.renderMateria probe2 id st2)) /\
      countElementsOf isCard htmlCount (AppJs.subjectArea (AppJs.renderMateria probe1 id st1)) =
      countElementsOf isCard htmlCount (AppJs.subjectArea (AppJs.renderMateria probe2 id st2))) /\
  (forall (htmlText : string -> string) (htmlCount : string -> nat)
          (probe1 probe2 : string -> probeOutcome) (id : string) (st : AppJs.state),
      In id (map s_id (AppJs.glossaryData st)) ->
      let first := AppJs.renderMateria probe1 id st in
      let second := AppJs.renderMateria probe2 id first in
      textContentOf htmlText (AppJs.subjectArea second) =
      textContentOf htmlText (AppJs.subjectArea first) /\
      countElementsOf isCard htmlCount (AppJs.subjectArea second) =
      countElementsOf isCard htmlCount (AppJs.subjectArea first)) /\
  (forall (id : string) (st1 st2 : PartA.state),
      PartA.glossaryData st1 = PartA.glossaryData st2 ->
      In id (map s_id (PartA.glossaryData st1)) ->
      PartA.dynamicContent (PartA.renderMateria id st1) =
      PartA.dynamicContent (PartA.renderMateria id st2)) /\
  (forall (id : string) (doc : GlossaryDocument) (st1 st2 : PartB.state),
      PartB.glossaryData st1 = Some doc -> PartB.glossaryData st2 = Some doc ->
      In id (map s_id doc) ->
      renderedMarkup (PartB.renderMateria id st1) = renderedMarkup (PartB.renderMateria id st2)) /\
  (forall (id : string) (doc : GlossaryDocument) (st : PartB.state),
      PartB.glossaryData st = Some doc -> In id (map s_id doc) ->
      renderedMarkup (PartB.renderMateria id (stateOf (PartB.renderMateria id st))) =
      renderedMarkup (PartB.renderMateria id st)).
Proof.
  assert (HA : forall (htmlText : string -> string) (htmlCount : string -> nat)
          (probe1 probe2 : string -> probeOutcome) (id : string) (st1 st2 : AppJs.state),
      AppJs.glossaryData st1 = AppJs.glossaryData st2 ->
      In id (map s_id (AppJs.glossaryData st1)) ->
      textContentOf htmlText (AppJs.subjectArea (AppJs.renderMateria probe1 id st1)) =
      textContentOf htmlText (AppJs.subjectArea (AppJs.renderMateria probe2 id st2)) /\
      countElementsOf isCard htmlCount (AppJs.subjectArea (AppJs.renderMateria probe1 id st1)) =
      countElementsOf isCard htmlCount (AppJs.subjectArea (AppJs.renderMateria probe2 id st2))).
  { intros htmlText htmlCount probe1 probe2 id st1 st2 Hdoc Hin.
    destruct (find_known_id id _ Hin) as [s (Hfind & _ & _)].
    destruct (renderMateria_observed htmlText htmlCount probe1 id s st1 Hfind) as [T1 C1].
    rewrite Hdoc in Hfind.
    destruct (renderMateria_observed htmlText htmlCount probe2 id s st2 Hfind) as [T2 C2].
    split; congruence. }
  assert (HB : forall (id : string) (doc : GlossaryDocument) (st1 st2 : PartB.state),
      PartB.glossaryData st1 = Some doc -> PartB.glossaryData st2 = Some doc ->
      In id (map s_id doc) ->
      renderedMarkup (PartB.renderMateria id st1) = renderedMarkup (PartB.renderMateria id st2)).
  { intros id doc st1 st2 H1 H2 Hin.
    destruct (find_known_id id doc Hin) as [s (Hfind & _ & _)].
    unfold PartB.renderMateria. rewrite H1, H2, Hfind.
    now destruct (s_windows s). }
  split; [exact HA | split; [| split; [| split; [exact HB |]]]].
  - intros htmlText htmlCount probe1 probe2 id st Hin first second.
    destruct (HA htmlText htmlCount probe2 probe1 id first st) as [T C].
    + apply renderMateria_glossaryData.
    + unfold first. now rewrite renderMateria_glossaryData.
    + now split.
  - intros id st1 st2 Hdoc Hin.
    destruct (find_known_id id _ Hin) as [s (Hfind & _ & _)].
    unfold PartA.renderMateria. rewrite <- Hdoc, Hfind. reflexivity.
  - intros id doc st Hdoc Hin. apply (HB id doc); [| exact Hdoc | exact Hin].
    now rewrite PartB_renderMateria_keeps_cache.
Qed.

Lemma C7_witness :
  textContentOf (fun m => m)
                (AppJs.subjectArea (AppJs.renderMateria (fun _ => ProbeNotOk) "S1"
                                                        AppJs_exampleRendered)) =
  textContentOf (fun m => m)
                (AppJs.subjectArea
                   (AppJs.renderMateria (fun _ => ProbeOk) "S1"
                      (AppJs.withGlossaryData exampleDoc (AppJs.initial EmptyString)))) /\
  countElementsOf isCard (fun _ => 0)
                  (AppJs.subjectArea (AppJs.renderMateria (fun _ => ProbeNotOk) "S1"
                                                          AppJs_exampleRendered)) =
  countElementsOf isCard (fun _ => 0)
                  (AppJs.subjectArea
                     (AppJs.renderMateria (fun _ => ProbeOk) "S1"
                        (AppJs.withGlossaryData exampleDoc (AppJs.initial EmptyString)))).
Proof.
  apply (proj1 C7_render_deterministic).
  - reflexivity.
  - vm_compute. left. reflexivity.
Defined.

Example spec_example_render_S1 :
  let st := AppJs.renderMateria (fun _ => ProbeOk) "S1"
              (AppJs.withGlossaryData exampleDoc (AppJs.initial EmptyString)) in
  countElementsOf isCard (fun _ => 0) (AppJs.subjectArea st) = 1 /\
  textContentOf (fun m => m) (AppJs.subjectArea st) =
    "101 - IntroBasicsholahelloES: saludoEN: greetingExpandir".
Proof. vm_compute. auto. Qed.

(* ===================================================================== *)
(** * C8: images that cannot be found *)
(* ===================================================================== *)

(** The [safeImageUrl] of the first script of part_000 makes no probe and
    returns the path under the image folder. *)
Lemma C8_counterexample : ~ missing_image_falls_back_PartA.
Proof.
  intros H. specialize (H (fun _ => false) "c1.png" eq_refl).
  vm_compute in H. discriminate H.
Qed.

Lemma occursIn_here (q post : string) : occursIn q (q +:+ post).
Proof. now exists EmptyString, post. Qed.

Lemma occursIn_append_r (q a b : string) : occursIn q b -> occursIn q (a +:+ b).
Proof.
  intros [pre [post ->]]. exists (a +:+ pre), post. now rewrite append_assoc.
Qed.

(** C8, amended.  In app.js a HEAD probe that answers not-ok or rejects
    makes [safeImageUrl] cache and return the placeholder, and the card is
    rendered all the same, its image pointing to the placeholder.  In the
    second script of part_000 the image of a card carries an error handler
    that sets its source to the placeholder once and removes itself.  The
    [safeImageUrl] of the first script of part_000 makes no probe: it
    returns the path under [assets/images/] for every input. *)
Theorem C8_missing_image_falls_back {platform : JS.Platform} :
  (forall (st : AppJs.state) (path : string) (probe : probeOutcome),
      AppJs.imageCache st !! path = None -> probe <> ProbeOk ->
      AppJs.safeImageUrl path probe st =
        ("assets/images/placeholder.png",
         AppJs.withImageCache (<[path := "assets/images/placeholder.png"]> (AppJs.imageCache st))
                              (AppJs.logRequest (HEAD path) st))) /\
  (forall (htmlCount : string -> nat) (probe : string -> probeOutcome) (c : Card)
          (st : AppJs.state),
      let src := AppJs.baseURI st +:+ "assets/images/" +:+ c_img c in
      AppJs.imageCache st !! src = None -> probe src <> ProbeOk ->
      countElements isCard htmlCount (fst (AppJs.renderCard probe c st)) = 1 /\
      countElements (srcIs "assets/images/placeholder.png") htmlCount
                    (fst (AppJs.renderCard probe c st)) = 1) /\
  (forall (c : Card) (g : Group),
      PartB.errorEvent (PartB.thumbnail c) =
        PartB.mkImage "assets/images/placeholder.png" false /\
      PartB.errorEvent (PartB.errorEvent (PartB.thumbnail c)) =
        PartB.errorEvent (PartB.thumbnail c) /\
      occursIn (attr "src" (PartB.image_src (PartB.thumbnail c)) +:+ attr "alt" (c_es c) +:+
                attr "class" "card__thumbnail" +:+ attr "loading" "lazy" +:+
                attr "onerror" "this.src='assets/images/placeholder.png'; this.onerror=null;")
               (PartB.renderCard c g)) /\
  (forall path : string, PartA.safeImageUrl path = "assets/images/" +:+ path).
Proof.
  split; [| split; [| split]].
  - intros st path probe E Hprobe. unfold AppJs.safeImageUrl. rewrite E.
    destruct probe; [contradiction | reflexivity | reflexivity].
  - intros htmlCount probe c st src E Hprobe. rewrite renderCard_shape. fold src.
    unfold AppJs.safeImageUrl. rewrite E. cbn [fst].
    destruct (probe src); [contradiction | |];
      (split; [apply cardElement_count | apply cardElement_placeholder]).
  - intros c g. repeat split.
    unfold PartB.renderCard. cbv zeta. do 17 apply occursIn_append_r.
    exists EmptyString. eexists. rewrite !append_assoc. reflexivity.
  - reflexivity.
Qed.

Lemma C8_witness :
  AppJs.safeImageUrl "http://localhost/assets/images/c1.png" ProbeNotOk
                     (AppJs.initial "http://localhost/") =
    ("assets/images/placeholder.png",
     AppJs.withImageCache
       (<["http://localhost/assets/images/c1.png" := "assets/images/placeholder.png"]>
          (AppJs.imageCache (AppJs.initial "http://localhost/")))
       (AppJs.logRequest (HEAD "http://localhost/assets/images/c1.png")
                         (AppJs.initial "http://localhost/"))) /\
  (countElements isCard (fun _ => 0)
     (fst (AppJs.renderCard (fun _ => ProbeRejects) exampleCard
                            (AppJs.initial "http://localhost/"))) = 1 /\
   countElements (srcIs "assets/images/placeholder.png") (fun _ => 0)
     (fst (AppJs.renderCard (fun _ => ProbeRejects) exampleCard
                            (AppJs.initial "http://localhost/"))) = 1).
Proof.
  destruct C8_missing_image_falls_back as (Hsafe & Hcard & _).
  split.
  - apply Hsafe; [reflexivity | discriminate].
  - apply (Hcard (fun _ => 0) (fun _ => ProbeRejects) exampleCard
                 (AppJs.initial "http://localhost/")); [reflexivity | discriminate].
Defined.

(* ===================================================================== *)
(** * C6: windows and tab panels *)
(* ===================================================================== *)

(** app.js never reads [windows]: no tab panel is built. *)
Lemma C6_counterexample : ~ panel_per_window_AppJs.
Proof.
  intros H.
  specialize (H (fun _ => ProbeOk) "S1" _ _
                (AppJs.withGlossaryData windowedDoc (AppJs.initial EmptyString))
                eq_refl eq_refl).
  vm_compute in H. discriminate H.
Qed.

Lemma PartA_window_fold (m : Subject) (tag : string) (attrs : list (string * string))
      (ids : list string) :
  forall children : list node,
    forEach ids (fun groupId windowEl =>
                   match arrayFind (fun g => String.eqb (g_id g) groupId) (s_groups m) with
                   | Some group => appendChild (PartA.renderGroup group (s_id m)) windowEl
                   | None => windowEl
                   end) (Elem tag attrs children) =
    Elem tag attrs
         (children ++
          map (fun g => PartA.renderGroup g (s_id m))
              (flat_map (fun groupId =>
                           match arrayFind (fun g => String.eqb (g_id g) groupId)
                                           (s_groups m) with
                           | Some g => [g]
                           | None => []
                           end) ids)).
Proof.
  induction ids as [|gid ids IH]; intros children.
  - simpl. now rewrite app_nil_r.
  - rewrite forEach_cons. cbn [flat_map].
    destruct (arrayFind _ (s_groups m)) as [g|]; cbn [appendChild].
    + rewrite IH, map_app, <- app_assoc. reflexivity.
    + rewrite IH. reflexivity.
Qed.

Lemma PartA_renderWindow_shape (w : Window) (m : Subject) :
  PartA.renderWindow w m =
  Elem "div" [("id", "window-" +:+ w_id w); ("class", "materia__tab-content");
              ("role", "tabpanel")]
       (map (fun g => PartA.renderGroup g (s_id m)) (panelGroups m w)).
Proof.
  unfold PartA.renderWindow, panelGroups.
  change (PartA.createEl "div" _)
    with (Elem "div" [("id", "window-" +:+ w_id w); ("class", "materia__tab-content");
                      ("role", "tabpanel")] []).
  now rewrite PartA_window_fold.
Qed.

Lemma PartA_tabs_fold (m : Subject) (t1 t2 : string) (a1 a2 : list (string * string))
      (iws : list (nat * Window)) :
  forall c1 c2 : list node,
    forEach iws (fun '(index, windowData) '(tabs, wins) =>
                   let tabBtn :=
                     PartA.createEl "button"
                       [("className", "materia__tab-button"); ("role", "tab");
                        ("id", "tab-" +:+ w_id windowData);
                        ("aria-controls", "window-" +:+ w_id windowData);
                        ("aria-selected", if index =? 0 then "true" else "false");
                        ("textContent", w_title windowData)] in
                   (appendChild tabBtn tabs,
                    appendChild (PartA.renderWindow windowData m) wins))
            (Elem t1 a1 c1, Elem t2 a2 c2) =
    (Elem t1 a1 (c1 ++ map (fun '(i, w) => PartA_tab i w) iws),
     Elem t2 a2 (c2 ++ map (fun '(i, w) => PartA.renderWindow w m) iws)).
Proof.
  induction iws as [|[i w] iws IH]; intros c1 c2.
  - simpl. now rewrite !app_nil_r.
  - rewrite forEach_cons. cbn [appendChild]. rewrite IH.
    cbn [map]. rewrite <- !app_assoc. reflexivity.
Qed.

Lemma indexed_cons {A : Type} (x : A) (l : list A) :
  indexed (x :: l) = (0, x) :: combine (seq 1 (length l)) l.
Proof. reflexivity. Qed.

Lemma PartA_panels_rest (m : Subject) (n : nat) (ws : list Window) :
  map (fun '(i, w) => PartA.renderWindow w m) (combine (seq (S n) (length ws)) ws) =
  map (fun '(i, w) => PartA_panel m i w) (combine (seq (S n) (length ws)) ws).
Proof.
  revert n. induction ws as [|w ws IH]; intros n; [reflexivity|].
  cbn [length seq combine map]. rewrite IH, PartA_renderWindow_shape.
  unfold PartA_panel. cbn [Nat.eqb]. now rewrite app_nil_r.
Qed.

Lemma PartA_flat_fold (slug tag : string) (attrs : list (string * string))
      (groups : list Group) :
  forall children : list node,
    forEach groups (fun group materiaContainer =>
                      appendChild (PartA.renderGroup group slug) materiaContainer)
            (Elem tag attrs children) =
    Elem tag attrs (children ++ map (fun g => PartA.renderGroup g slug) groups).
Proof.
  induction groups as [|g groups IH]; intros children.
  - simpl. now rewrite app_nil_r.
  - rewrite forEach_cons. cbn [appendChild]. rewrite IH. cbn [map].
    now rewrite <- app_assoc.
Qed.

Lemma PartA_renderMateria_windows (id : string) (m : Subject) (w : Window)
      (ws : list Window) (st : PartA.state) :
  arrayFind (fun x => String.eqb (s_id x) id) (PartA.glossaryData st) = Some m ->
  s_windows m = Some (w :: ws) ->
  PartA.dynamicContent (PartA.renderMateria id st) =
  [Elem "div" [("class", "materia-container")]
        [PartA_header m;
         Elem "div" [("class", "materia__tabs"); ("role", "tablist")]
              (map (fun '(i, w) => PartA_tab i w) (indexed (w :: ws)));
         Elem "div" [("class", "materia__windows")]
              (map (fun '(i, w) => PartA_panel m i w) (indexed (w :: ws)))]].
Proof.
  intros Hfind Hw. unfold PartA.renderMateria. rewrite Hfind, Hw.
  cbn [PartA.dynamicContent PartA.withDynamicContent PartA.updatePageMetadata
       PartA.withMetaContent PartA.withDocumentTitle PartA.withCurrentMateria app].
  change (PartA.createEl "div" [("className", "materia__tabs"); ("role", "tablist")])
    with (Elem "div" [("class", "materia__tabs"); ("role", "tablist")] []).
  change (PartA.createEl "div" [("className", "materia__windows")])
    with (Elem "div" [("class", "materia__windows")] []).
  rewrite PartA_tabs_fold. rewrite indexed_cons. cbn [map app].
  rewrite PartA_panels_rest, PartA_renderWindow_shape. reflexivity.
Qed.

Lemma PartA_renderMateria_flat (id : string) (m : Subject) (st : PartA.state) :
  arrayFind (fun x => String.eqb (s_id x) id) (PartA.glossaryData st) = Some m ->
  s_windows m = None \/ s_windows m = Some [] ->
  PartA.dynamicContent (PartA.renderMateria id st) =
  [Elem "div" [("class", "materia-container")]
        (PartA_header m :: map (fun g => PartA.renderGroup g (s_id m)) (s_groups m))].
Proof.
  intros Hfind Hw. unfold PartA.renderMateria. rewrite Hfind.
  cbn [PartA.dynamicContent PartA.withDynamicContent PartA.updatePageMetadata
       PartA.withMetaContent PartA.withDocumentTitle PartA.withCurrentMateria app].
  destruct Hw as [Hw | Hw]; rewrite Hw;
    change (appendChild _ (PartA.createEl "div" [("className", "materia-container")]))
      with (Elem "div" [("class", "materia-container")] [PartA_header m]);
    now rewrite PartA_flat_fold.
Qed.

Lemma NoDup_map_inj {A B : Type} (f : A -> B) (l : list A) (x y : A) :
  List.NoDup (map f l) -> In x l -> In y l -> f x = f y -> x = y.
Proof.
  induction l as [|a l IH]; simpl; intros Hnd Hx Hy E; [contradiction|].
  inversion Hnd as [|? ? Hnotin Hnd']; subst.
  destruct Hx as [-> | Hx], Hy as [-> | Hy]; auto.
  - exfalso. apply Hnotin. rewrite E. now apply in_map.
  - exfalso. apply Hnotin. rewrite <- E. now apply in_map.
Qed.

Lemma panelGroups_In (m : Subject) (w : Window) (g : Group) :
  In g (panelGroups m w) -> In g (s_groups m) /\ In (g_id g) (w_groups w).
Proof.
  unfold panelGroups, arrayFind. rewrite in_flat_map. intros [gid [Hgid Hg]].
  destruct (List.find _ (s_groups m)) as [g'|] eqn:E; [| contradiction].
  destruct Hg as [<- | []]. apply List.find_some in E as [Hin Heq].
  apply String.eqb_eq in Heq. now rewrite Heq.
Qed.

Lemma panelGroups_complete (m : Subject) (w : Window) (g : Group) :
  List.NoDup (map g_id (s_groups m)) ->
  In g (s_groups m) -> In (g_id g) (w_groups w) -> In g (panelGroups m w).
Proof.
  intros Hnd Hg Hid. unfold panelGroups, arrayFind. rewrite in_flat_map.
  exists (g_id g). split; [exact Hid|].
  destruct (List.find (fun g0 => String.eqb (g_id g0) (g_id g)) (s_groups m)) as [g'|] eqn:E.
  - apply List.find_some in E as [Hin Heq]. apply String.eqb_eq in Heq.
    left. now apply (NoDup_map_inj g_id (s_groups m)).
  - apply (List.find_none _ _ E) in Hg. now rewrite String.eqb_refl in Hg.
Qed.

Lemma groupsInWindow_In (m : Subject) (w : Window) (g : Group) :
  In g (PartB.groupsInWindow m w) <-> In g (s_groups m) /\ In (g_id g) (w_groups w).
Proof.
  unfold PartB.groupsInWindow, JS.arrayIncludes. rewrite List.filter_In, existsb_exists.
  split.
  - intros [Hg [x [Hx E]]]. apply String.eqb_eq in E. subst x. now split.
  - intros [Hg Hid]. split; [exact Hg|]. exists (g_id g). split; [exact Hid|].
    apply String.eqb_refl.
Qed.

(** C6, amended.  The first script of part_000 does as claimed: for a
    subject with a non-empty [windows] array it builds one tab and one panel
    per window, in order; a panel holds the rendered groups its window
    names, the first tab alone is selected and the first panel alone is
    marked as not hidden; for a subject without windows it renders all the
    groups in one flat sequence.  The second script of part_000 builds one
    panel per window whenever the subject has a [windows] array, a panel
    holding the groups of the subject whose id the window names and the
    panel of index 0 alone carrying the active class.  app.js never reads
    [windows]: it renders all the groups of every subject in one flat
    sequence. *)
Theorem C6_windows_partition_groups {platform : JS.Platform} :
  (forall (id : string) (m : Subject) (w : Window) (ws : list Window) (st : PartA.state),
      arrayFind (fun x => String.eqb (s_id x) id) (PartA.glossaryData st) = Some m ->
      s_windows m = Some (w :: ws) ->
      PartA.dynamicContent (PartA.renderMateria id st) =
      [Elem "div" [("class", "materia-container")]
            [PartA_header m;
             Elem "div" [("class", "materia__tabs"); ("role", "tablist")]
                  (map (fun '(i, w) => PartA_tab i w) (indexed (w :: ws)));
             Elem "div" [("class", "materia__windows")]
                  (map (fun '(i, w) => PartA_panel m i w) (indexed (w :: ws)))]]) /\
  (forall (m : Subject) (w : Window) (g : Group),
      (In g (panelGroups m w) -> In g (s_groups m) /\ In (g_id g) (w_groups w)) /\
      (List.NoDup (map g_id (s_groups m)) ->
       In g (s_groups m) -> In (g_id g) (w_groups w) -> In g (panelGroups m w))) /\
  (forall (id : string) (m : Subject) (st : PartA.state),
      arrayFind (fun x => String.eqb (s_id x) id) (PartA.glossaryData st) = Some m ->
      s_windows m = None \/ s_windows m = Some [] ->
      PartA.dynamicContent (PartA.renderMateria id st) =
      [Elem "div" [("class", "materia-container")]
            (PartA_header m :: map (fun g => PartA.renderGroup g (s_id m)) (s_groups m))]) /\
  (forall (id : string) (doc : GlossaryDocument) (m : Subject) (ws : list Window)
          (st : PartB.state),
      PartB.glossaryData st = Some doc ->
      arrayFind (fun x => String.eqb (s_id x) id) doc = Some m ->
      s_windows m = Some ws ->
      renderedMarkup (PartB.renderMateria id st) = Some (PartB.materiaMarkup m ws) /\
      occursIn (JS.join EmptyString
                  (map (fun '(i, w) => PartB.panelMarkup m i w) (indexed ws)))
               (PartB.materiaMarkup m ws)) /\
  (forall (m : Subject) (index : nat) (w : Window) (g : Group),
      PartB.panelMarkup m index w =
        "<div" +:+ attr "id" ("window-" +:+ w_id w) +:+
        attr "class" (if index =? 0 then "materia__window materia__window--active"
                      else "materia__window ") +:+
        attr "role" "tabpanel" +:+ ">" +:+
        JS.join EmptyString (map PartB.renderGroup (PartB.groupsInWindow m w)) +:+ "</div>" /\
      (In g (PartB.groupsInWindow m w) <-> In g (s_groups m) /\ In (g_id g) (w_groups w))) /\
  (forall (htmlText : string -> string) (probe : string -> probeOutcome) (id : string)
          (s : Subject) (st : AppJs.state),
      arrayFind (fun x => String.eqb (s_id x) id) (AppJs.glossaryData st) = Some s ->
      exists groups,
        AppJs.subjectArea (AppJs.renderMateria probe id st) = [subjectElement s groups] /\
        map (textContent htmlText) groups = map groupText (s_groups s)).
Proof.
  split; [| split; [| split; [| split; [| split]]]].
  - apply PartA_renderMateria_windows.
  - intros m w g. split; [apply panelGroups_In | apply panelGroups_complete].
  - apply PartA_renderMateria_flat.
  - intros id doc m ws st Hdoc Hfind Hw. split.
    + unfold PartB.renderMateria. now rewrite Hdoc, Hfind, Hw.
    + unfold PartB.materiaMarkup. cbv zeta. do 32 apply occursIn_append_r.
      apply occursIn_here.
  - intros m index w g. split; [| apply groupsInWindow_In].
    unfold PartB.panelMarkup. now destruct (index =? 0).
  - intros htmlText probe id s st Hfind.
    rewrite (renderMateria_shape probe id s st Hfind). eexists. split; [reflexivity|].
    apply renderAll_map. intros g st'. apply renderGroup_text.
Qed.

Lemma C6_witness :
  PartA.dynamicContent
    (PartA.renderMateria "S1" (PartA.withGlossaryData windowedDoc PartA.initial)) =
    [Elem "div" [("class", "materia-container")]
          [PartA_header windowedSubject;
           Elem "div" [("class", "materia__tabs"); ("role", "tablist")]
                [PartA_tab 0 firstWindow; PartA_tab 1 secondWindow];
           Elem "div" [("class", "materia__windows")]
                [PartA_panel windowedSubject 0 firstWindow;
                 PartA_panel windowedSubject 1 secondWindow]]] /\
  In exampleGroup (panelGroups windowedSubject firstWindow) /\
  PartA.dynamicContent
    (PartA.renderMateria "S1" (PartA.withGlossaryData exampleDoc PartA.initial)) =
    [Elem "div" [("class", "materia-container")]
          [PartA_header exampleSubject; PartA.renderGroup exampleGroup "S1"]] /\
  renderedMarkup
    (PartB.renderMateria "S1" (PartB.withGlossaryData (Some windowedDoc) PartB.initial)) =
    Some (PartB.materiaMarkup windowedSubject [firstWindow; secondWindow]) /\
  (exists groups,
      AppJs.subjectArea
        (AppJs.renderMateria (fun _ => ProbeOk) "S1"
           (AppJs.withGlossaryData windowedDoc (AppJs.initial EmptyString))) =
        [subjectElement windowedSubject groups] /\
      map (textContent (fun m => m)) groups = map groupText [exampleGroup]).
Proof.
  destruct C6_windows_partition_groups as (Hwin & Hmem & Hflat & HB & _ & HA).
  split; [| split; [| split; [| split]]].
  - apply (Hwin "S1" windowedSubject firstWindow [secondWindow]); reflexivity.
  - apply (proj2 (Hmem windowedSubject firstWindow exampleGroup)).
    + vm_compute. constructor; [intros [] | constructor].
    + left. reflexivity.
    + left. reflexivity.
  - apply (Hflat "S1" exampleSubject); [reflexivity | left; reflexivity].
  - apply (HB "S1" windowedDoc windowedSubject [firstWindow; secondWindow]); reflexivity.
  - apply (HA (fun m => m) (fun _ => ProbeOk) "S1" windowedSubject). reflexivity.
Defined.

(* ===================================================================== *)
(** * Further properties of the scripts *)
(* ===================================================================== *)

(** ** The token list of the [class] attribute *)

Lemma noWhiteSpace_snoc (s : string) (c : ascii) :
  noWhiteSpace (s +:+ String c EmptyString) = noWhiteSpace s && negb (JS.isWhiteSpace c).
Proof.
  induction s as [|x s IH].
  - change (EmptyString +:+ String c EmptyString) with (String c EmptyString).
    cbn [noWhiteSpace]. now destruct (JS.isWhiteSpace c).
  - change (negb (JS.isWhiteSpace x) && noWhiteSpace (s +:+ String c EmptyString) =
            negb (JS.isWhiteSpace x) && noWhiteSpace s && negb (JS.isWhiteSpace c)).
    now rewrite IH, andb_assoc.
Qed.

Lemma tokensFrom_token (t : string) :
  noWhiteSpace t = true ->
  forall cur rest, tokensFrom cur (t +:+ rest) = tokensFrom (cur +:+ t) rest.
Proof.
  induction t as [|c t IH]; intros Ht cur rest.
  - now rewrite append_nil_r.
  - cbn in Ht. apply andb_true_iff in Ht as [Hc Ht]. apply negb_true_iff in Hc.
    change (String c t +:+ rest) with (String c (t +:+ rest)).
    cbn [tokensFrom]. rewrite Hc, (IH Ht), append_assoc. reflexivity.
Qed.

Lemma tokensFrom_tokens (s : string) :
  forall cur, noWhiteSpace cur = true -> Forall (fun t => isToken t = true) (tokensFrom cur s).
Proof.
  induction s as [|c s IH]; intros cur Hcur; cbn [tokensFrom].
  - destruct cur; [constructor|]. constructor; [| constructor].
    unfold isToken. now rewrite Hcur.
  - destruct (JS.isWhiteSpace c) eqn:Hc.
    + apply Forall_app. split; [| now apply IH].
      destruct cur; [constructor|]. constructor; [| constructor].
      unfold isToken. now rewrite Hcur.
    + apply IH. now rewrite noWhiteSpace_snoc, Hcur, Hc.
Qed.

Lemma tokensFrom_join (tokens : list string) :
  Forall (fun t => isToken t = true) tokens ->
  tokensFrom EmptyString (JS.join " " tokens) = tokens.
Proof.
  unfold JS.join. induction tokens as [|t ts IH]; intros H; [reflexivity|].
  inversion H as [|? ? Ht Hts]; subst. unfold isToken in Ht.
  apply andb_true_iff in Ht as [Hne Hws].
  destruct ts as [|t2 ts].
  - cbn [String.concat]. rewrite <- (append_nil_r t) at 1.
    rewrite (tokensFrom_token t Hws). cbn [tokensFrom]. change (EmptyString +:+ t) with t.
    now rewrite Hne.
  - change (String.concat " " (t :: t2 :: ts))
      with (t +:+ String " " (String.concat " " (t2 :: ts))).
    rewrite (tokensFrom_token t Hws). change (EmptyString +:+ t) with t.
    cbn [tokensFrom]. change (JS.isWhiteSpace " ") with true. cbv iota.
    rewrite Hne, (IH Hts). reflexivity.
Qed.

Lemma getAttribute_setAttribute (name value : string) (attrs : list (string * string)) :
  getAttribute name (setAttribute name value attrs) = Some value.
Proof.
  unfold getAttribute. induction attrs as [|[k v] attrs IH]; cbn [setAttribute List.find fst].
  - now rewrite String.eqb_refl.
  - destruct (String.eqb k name) eqn:E; cbn [List.find fst]; rewrite E; [reflexivity | exact IH].
Qed.

Lemma getAttribute_setAttribute_other (name other value : string)
      (attrs : list (string * string)) :
  other <> name ->
  getAttribute other (setAttribute name value attrs) = getAttribute other attrs.
Proof.
  intros Hne. unfold getAttribute.
  induction attrs as [|[k v] attrs IH]; cbn [setAttribute List.find fst].
  - destruct (String.eqb_spec name other); [congruence | reflexivity].
  - destruct (String.eqb_spec k name) as [-> | Hk]; cbn [List.find fst].
    + destruct (String.eqb_spec name other); [congruence | reflexivity].
    + destruct (String.eqb k other); [reflexivity | exact IH].
Qed.

Lemma classList_tokens (attrs : list (string * string)) :
  Forall (fun t => isToken t = true) (classList attrs).
Proof.
  unfold classList. destruct (getAttribute "class" attrs); [| constructor].
  now apply tokensFrom_tokens.
Qed.

Lemma classList_updateClass (tokens : list string) (attrs : list (string * string)) :
  Forall (fun t => isToken t = true) tokens ->
  classList (updateClass tokens attrs) = tokens.
Proof.
  intros H. unfold updateClass.
  destruct (getAttribute "class" attrs) eqn:E.
  - unfold classList. rewrite getAttribute_setAttribute. now apply tokensFrom_join.
  - destruct tokens as [|t ts].
    + unfold classList. now rewrite E.
    + unfold classList. rewrite getAttribute_setAttribute. now apply tokensFrom_join.
Qed.

Lemma arrayIncludes_In (l : list string) (x : string) :
  JS.arrayIncludes l x = true <-> In x l.
Proof.
  unfold JS.arrayIncludes. rewrite existsb_exists. split.
  - intros [y [Hy E]]. apply String.eqb_eq in E. now subst.
  - intros H. exists x. split; [exact H | apply String.eqb_refl].
Qed.

Lemma orderedSet_In (l : list string) (x : string) : In x (orderedSet l) <-> In x l.
Proof.
  induction l as [|a l IH]; [reflexivity|]. cbn [orderedSet In].
  rewrite List.filter_In, IH, negb_true_iff, String.eqb_neq.
  destruct (String.eqb_spec a x); intuition congruence.
Qed.

Lemma orderedSet_NoDup (l : list string) : List.NoDup (orderedSet l).
Proof.
  induction l as [|a l IH]; cbn [orderedSet]; constructor.
  - rewrite List.filter_In, String.eqb_refl. intros [_ H]. discriminate H.
  - now apply List.NoDup_filter.
Qed.

Lemma filter_id {A : Type} (p : A -> bool) (l : list A) :
  (forall x, In x l -> p x = true) -> List.filter p l = l.
Proof.
  induction l as [|a l IH]; intros H; [reflexivity|]. cbn [List.filter].
  rewrite (H a (or_introl eq_refl)), IH; [reflexivity|]. intros x Hx. apply H. now right.
Qed.

Lemma orderedSet_id (l : list string) : List.NoDup l -> orderedSet l = l.
Proof.
  induction l as [|a l IH]; intros H; [reflexivity|].
  inversion H as [|? ? Hnotin Hnd]; subst. cbn [orderedSet]. rewrite (IH Hnd).
  f_equal. apply filter_id. intros x Hx. apply negb_true_iff, String.eqb_neq.
  intros ->. contradiction.
Qed.

Lemma orderedSet_tokens (l : list string) :
  Forall (fun t => isToken t = true) l -> Forall (fun t => isToken t = true) (orderedSet l).
Proof.
  intros H. apply List.Forall_forall. intros x Hx.
  apply (proj1 (orderedSet_In l x)) in Hx.
  exact (proj1 (List.Forall_forall _ l) H x Hx).
Qed.

Lemma tokenSet_tokens (attrs : list (string * string)) :
  Forall (fun t => isToken t = true) (tokenSet attrs).
Proof. apply orderedSet_tokens, classList_tokens. Qed.

Lemma hasClass_In (c : string) (attrs : list (string * string)) :
  hasClass c attrs = true <-> In c (tokenSet attrs).
Proof. unfold hasClass, tokenSet. now rewrite arrayIncludes_In, orderedSet_In. Qed.

(** The tokens after [add] and after [remove]. *)
Lemma tokenSet_classListAdd (token : string) (attrs : list (string * string)) :
  isToken token = true ->
  tokenSet (classListAdd token attrs) =
  if JS.arrayIncludes (tokenSet attrs) token then tokenSet attrs else tokenSet attrs ++ [token].
Proof.
  intros Htok. unfold classListAdd.
  destruct (JS.arrayIncludes (tokenSet attrs) token) eqn:E.
  - unfold tokenSet at 1. rewrite classList_updateClass by apply tokenSet_tokens.
    apply orderedSet_id, orderedSet_NoDup.
  - unfold tokenSet at 1. rewrite classList_updateClass.
    + apply orderedSet_id. apply List.NoDup_app.
      * apply orderedSet_NoDup.
      * constructor; [intros [] | constructor].
      * intros x Hx [<- | []]. apply arrayIncludes_In in Hx. congruence.
    + apply Forall_app. split; [apply tokenSet_tokens | now constructor].
Qed.

Lemma tokenSet_classListRemove (token : string) (attrs : list (string * string)) :
  tokenSet (classListRemove token attrs) =
  List.filter (fun t => negb (String.eqb t token)) (tokenSet attrs).
Proof.
  unfold classListRemove. unfold tokenSet at 1. rewrite classList_updateClass.
  - apply orderedSet_id, List.NoDup_filter, orderedSet_NoDup.
  - apply List.Forall_forall. intros x Hx. apply List.filter_In in Hx as [Hx _].
    exact (proj1 (List.Forall_forall _ _) (tokenSet_tokens attrs) x Hx).
Qed.

Lemma tokenSet_toggle_In (token : string) (attrs : list (string * string)) (c : string) :
  isToken token = true ->
  In c (tokenSet (classListToggle token attrs)) <->
  (c <> token /\ In c (tokenSet attrs)) \/ (c = token /\ ~ In token (tokenSet attrs)).
Proof.
  intros Htok. unfold classListToggle.
  destruct (JS.arrayIncludes (tokenSet attrs) token) eqn:E.
  - apply arrayIncludes_In in E.
    rewrite tokenSet_classListRemove, List.filter_In, negb_true_iff, String.eqb_neq.
    intuition congruence.
  - assert (Hnot : ~ In token (tokenSet attrs)).
    { intros H. apply arrayIncludes_In in H. congruence. }
    rewrite (tokenSet_classListAdd token attrs Htok), E, in_app_iff. cbn [In].
    destruct (String.eqb_spec c token) as [-> | Hne]; intuition congruence.
Qed.

Lemma hasClass_toggle (token : string) (attrs : list (string * string)) (c : string) :
  isToken token = true ->
  hasClass c (classListToggle token attrs) =
  if String.eqb c token then negb (hasClass c attrs) else hasClass c attrs.
Proof.
  intros Htok. apply Bool.eq_iff_eq_true.
  rewrite hasClass_In, (tokenSet_toggle_In token attrs c Htok).
  destruct (String.eqb_spec c token) as [-> | Hne].
  - rewrite negb_true_iff, <- not_true_iff_false, hasClass_In. intuition congruence.
  - rewrite hasClass_In. intuition congruence.
Qed.

Lemma hasClass_toggle_twice (token : string) (attrs : list (string * string)) (c : string) :
  isToken token = true ->
  hasClass c (classListToggle token (classListToggle token attrs)) = hasClass c attrs.
Proof.
  intros Htok. rewrite !hasClass_toggle by exact Htok.
  destruct (String.eqb c token); [apply negb_involutive | reflexivity].
Qed.

(** X1.  Flipping a card toggles the class [card--flipped] and no other
    class: after one flip the card is flipped exactly when it was not, every
    other class is kept, and after two flips the card has the classes it had
    before.  This holds for [handleFlip] of app.js, for a click on a flip
    button or on a face in the first script of part_000, and for
    [handleFlip] of the second one; a card app.js has just rendered is not
    flipped. *)
Theorem X1_flip_toggles_and_two_flips_restore :
  forall (tag : string) (attrs : list (string * string)) (children : list node) (c : string),
    let card := Elem tag attrs children in
    hasClass c (attributesOf (AppJs.handleFlip card)) =
      (if String.eqb c "card--flipped" then negb (hasClass c attrs) else hasClass c attrs) /\
    hasClass c (attributesOf (AppJs.handleFlip (AppJs.handleFlip card))) = hasClass c attrs /\
    (forall (target : PartA.clickTarget) (m : PartA.modal),
        target = PartA.OnFlipButton \/ target = PartA.OnFace ->
        PartA.onCardClick target card m = Normal (AppJs.handleFlip card, m)) /\
    hasClass c (PartB.handleFlip attrs) =
      (if String.eqb c "card--flipped" then negb (hasClass c attrs) else hasClass c attrs) /\
    hasClass c (PartB.handleFlip (PartB.handleFlip attrs)) = hasClass c attrs /\
    (forall (probe : string -> probeOutcome) (cardData : Card) (st : AppJs.state),
        hasClass "card--flipped"
                 (attributesOf (fst (AppJs.renderCard probe cardData st))) = false).
Proof.
  intros tag attrs children c card.
  split; [| split; [| split; [| split; [| split]]]].
  - apply hasClass_toggle. reflexivity.
  - apply hasClass_toggle_twice. reflexivity.
  - intros target m [-> | ->]; reflexivity.
  - apply hasClass_toggle. reflexivity.
  - apply hasClass_toggle_twice. reflexivity.
  - intros probe cardData st. rewrite renderCard_shape. reflexivity.
Qed.

Lemma X1_witness :
  PartA.onCardClick PartA.OnFace (PartA.renderCard exampleCard "S1")
                    (PartA.mkModal [] EmptyString false) =
  Normal (AppJs.handleFlip (PartA.renderCard exampleCard "S1"),
          PartA.mkModal [] EmptyString false).
Proof.
  refine (proj1 (proj2 (proj2 (X1_flip_toggles_and_two_flips_restore
            "div" [("class", "card"); ("tabindex", "0");
                   ("data-card-data", Json.card exampleCard)]
            _ "card"))) PartA.OnFace _ _).
  right. reflexivity.
Defined.

(** ** Keyboard navigation of the result list *)

Lemma findIndex_range {A : Type} (p : A -> bool) (l : list A) :
  (-1 <= findIndex p l < Z.of_nat (length l))%Z \/ (l = [] /\ findIndex p l = (-1)%Z).
Proof.
  induction l as [|x l IH]; [right; now split | left].
  cbn [findIndex length]. destruct (p x); [lia|].
  destruct (Z.ltb_spec (findIndex p l) 0); destruct IH as [IH | [-> IH]]; cbn in *; lia.
Qed.

Lemma findIndex_bounds {A : Type} (p : A -> bool) (l : list A) :
  l <> [] -> (-1 <= findIndex p l < Z.of_nat (length l))%Z.
Proof. intros H. destruct (findIndex_range p l) as [Hr | [E _]]; [exact Hr | contradiction]. Qed.

Lemma arrow_down_rem (a n : Z) :
  (-1 <= a < n)%Z -> Z.rem (a + 1) n = arrowTarget true a n.
Proof.
  intros H. unfold arrowTarget. destruct (Z.eqb_spec a (n - 1)) as [-> | Hne].
  - replace (n - 1 + 1)%Z with n by lia.
    destruct (Z.eq_dec n 0%Z) as [-> | Hn]; [reflexivity | now apply Z.rem_same].
  - apply Z.rem_small. lia.
Qed.

Lemma arrow_up_rem (a n : Z) :
  (-1 <= a < n)%Z -> Z.rem (a - 1 + n) n = arrowTarget false a n.
Proof.
  intros H. unfold arrowTarget.
  destruct (Z.eqb_spec a (-1)) as [-> | Hne1].
  - destruct (Z.eqb_spec n 1) as [-> | Hn]; [reflexivity|].
    replace (-1 - 1 + n)%Z with (n - 2)%Z by lia.
    destruct (Z.eq_dec n 0%Z) as [-> | Hn0]; [reflexivity | apply Z.rem_small; lia].
  - destruct (Z.eqb_spec a 0) as [-> | Hne0].
    + replace (0 - 1 + n)%Z with (n - 1)%Z by lia. apply Z.rem_small. lia.
    + replace (a - 1 + n)%Z with (a - 1 + 1 * n)%Z by lia.
      rewrite Z.rem_add by nia. apply Z.rem_small. lia.
Qed.

Lemma arrowTarget_range (down : bool) (a n : Z) :
  (-1 <= a < n)%Z -> (0 < n)%Z -> (0 <= arrowTarget down a n < n)%Z.
Proof.
  intros H Hn. unfold arrowTarget.
  destruct down; repeat match goal with |- context [Z.eqb ?x ?y] => destruct (Z.eqb_spec x y) end;
    lia.
Qed.

(** An arrow down and then an arrow up, or the reverse, lead back to the
    item that was active. *)
Lemma arrowTarget_back (a n : Z) :
  (0 <= a < n)%Z ->
  arrowTarget false (arrowTarget true a n) n = a /\
  arrowTarget true (arrowTarget false a n) n = a.
Proof.
  intros H. unfold arrowTarget.
  destruct (Z.eqb_spec a (n - 1)), (Z.eqb_spec a (-1)), (Z.eqb_spec a 0);
    repeat match goal with |- context [Z.eqb ?x ?y] => destruct (Z.eqb_spec x y) end; lia.
Qed.

Lemma hasClass_setAttribute_other (c name value : string) (attrs : list (string * string)) :
  name <> "class" -> hasClass c (setAttribute name value attrs) = hasClass c attrs.
Proof.
  intros H. unfold hasClass, classList.
  rewrite getAttribute_setAttribute_other; [reflexivity | congruence].
Qed.

Lemma hasClass_toggleForce (token : string) (force : bool) (attrs : list (string * string)) :
  isToken token = true ->
  hasClass token (classListToggleForce token force attrs) = force.
Proof.
  intros Htok. apply Bool.eq_iff_eq_true. rewrite hasClass_In. destruct force; cbn.
  - rewrite (tokenSet_classListAdd token attrs Htok).
    destruct (JS.arrayIncludes (tokenSet attrs) token) eqn:E.
    + apply arrayIncludes_In in E. tauto.
    + rewrite in_app_iff. cbn. tauto.
  - rewrite tokenSet_classListRemove, List.filter_In, String.eqb_refl. cbn.
    intuition discriminate.
Qed.

Lemma findIndex_rewritten {A : Type} (p : node -> bool) (F : nat -> A -> node) (target : Z)
      (items : list A) :
  List.Forall (fun x => forall i, p (F i x) = (Z.of_nat i =? target)%Z) items ->
  forall start : nat,
    findIndex p (map (fun '(i, x) => F i x) (combine (seq start (length items)) items)) =
    if ((Z.of_nat start <=? target) && (target <? Z.of_nat (start + length items)))%Z
    then (target - Z.of_nat start)%Z else (-1)%Z.
Proof.
  induction 1 as [|x items HF _ IH]; intros start.
  - cbn. destruct (Z.leb_spec (Z.of_nat start) target), (Z.ltb_spec target (Z.of_nat (start + 0)));
      cbn; lia.
  - cbn [length seq combine map findIndex]. rewrite HF, IH.
    destruct (Z.eqb_spec (Z.of_nat start) target) as [E | E].
    + destruct (Z.leb_spec (Z.of_nat start) target),
               (Z.ltb_spec target (Z.of_nat (start + S (length items)))); cbn; lia.
    + destruct (Z.leb_spec (Z.of_nat (S start)) target),
               (Z.ltb_spec target (Z.of_nat (S start + length items))),
               (Z.leb_spec (Z.of_nat start) target),
               (Z.ltb_spec target (Z.of_nat (start + S (length items)))); cbn;
        try lia;
        match goal with |- context [Z.ltb ?x ?y] => destruct (Z.ltb_spec x y) end; lia.
Qed.

Lemma nth_error_rewritten {A B : Type} (F : nat -> A -> B) (items : list A) :
  forall (start i : nat),
    nth_error (map (fun '(k, x) => F k x) (combine (seq start (length items)) items)) i =
    option_map (F (start + i)) (nth_error items i).
Proof.
  induction items as [|x items IH]; intros start i.
  - now destruct i.
  - destruct i as [|i]; cbn [length seq combine map nth_error option_map].
    + now rewrite Nat.add_0_r.
    + rewrite IH. now replace (S start + i) with (start + S i) by lia.
Qed.

Lemma length_rewritten {A B : Type} (F : nat -> A -> B) (items : list A) (start : nat) :
  length (map (fun '(k, x) => F k x) (combine (seq start (length items)) items)) = length items.
Proof. rewrite length_map, length_combine, length_seq. lia. Qed.

(** What the listener does to one item. *)
Lemma AppJs_keydown_item (on : bool) (item : node) :
  isElement item ->
  let item' :=
    onAttributes (setAttribute "aria-selected" (if on then "true" else "false"))
      (onAttributes (classListToggleForce "autocomplete__item--active" on) item) in
  isElement item' /\
  AppJs.isActive item' = on /\
  getAttribute "aria-selected" (attributesOf item') = Some (if on then "true" else "false") /\
  getAttribute "id" (attributesOf item') = getAttribute "id" (attributesOf item).
Proof.
  destruct item as [t | h | tag attrs children]; cbn; try contradiction. intros _.
  split; [exact I|]. split; [|split].
  - unfold AppJs.isActive. cbn. rewrite hasClass_setAttribute_other by discriminate.
    now apply hasClass_toggleForce.
  - apply getAttribute_setAttribute.
  - rewrite getAttribute_setAttribute_other by discriminate.
    unfold classListToggleForce, classListAdd, classListRemove, updateClass.
    destruct on;
      repeat match goal with
             | |- context [match ?x with _ => _ end] => destruct x
             end;
      try reflexivity; now rewrite getAttribute_setAttribute_other by discriminate.
Qed.

(** The arrow keys in app.js: the list is rewritten so that exactly the
    item at the target index is active. *)
Lemma AppJs_arrow_key (down : bool) (items : list node) :
  items <> [] -> List.Forall isElement items ->
  let target := arrowTarget down (findIndex AppJs.isActive items) (Z.of_nat (length items)) in
  exists items',
    AppJs.onSearchKeydown (if down then "ArrowDown" else "ArrowUp") items =
      AppJs.Rewritten items' (AppJs.idOf (at_ items target)) /\
    length items' = length items /\
    List.Forall isElement items' /\
    (0 <= target < Z.of_nat (length items))%Z /\
    findIndex AppJs.isActive items' = target /\
    (forall i item', nth_error items' i = Some item' ->
       AppJs.isActive item' = (Z.of_nat i =? target)%Z /\
       getAttribute "aria-selected" (attributesOf item') =
         Some (if (Z.of_nat i =? target)%Z then "true" else "false") /\
       exists item, nth_error items i = Some item /\
         getAttribute "id" (attributesOf item') = getAttribute "id" (attributesOf item)).
Proof.
  intros Hne Hel target.
  pose proof (findIndex_bounds AppJs.isActive items Hne) as Hb.
  assert (Hn : (0 < Z.of_nat (length items))%Z) by (destruct items; [contradiction | cbn; lia]).
  pose proof (arrowTarget_range down _ _ Hb Hn) as Hr. fold target in Hr.
  set (F := fun (index : nat) (item : node) =>
              onAttributes (setAttribute "aria-selected"
                              (if (Z.of_nat index =? target)%Z then "true" else "false"))
                (onAttributes (classListToggleForce "autocomplete__item--active"
                                 (Z.of_nat index =? target)%Z) item)).
  exists (map (fun '(k, x) => F k x) (combine (seq 0 (length items)) items)).
  split; [|split; [|split; [|split; [|split]]]].
  - unfold AppJs.onSearchKeydown.
    destruct (Z.eqb_spec (Z.of_nat (length items)) 0); [lia|].
    destruct down; cbn [String.eqb Ascii.eqb Bool.eqb].
    + rewrite (arrow_down_rem _ _ Hb). reflexivity.
    + rewrite (arrow_up_rem _ _ Hb). reflexivity.
  - apply length_rewritten.
  - apply List.Forall_forall. intros y Hy. apply In_nth_error in Hy as [i Hi].
    rewrite nth_error_rewritten in Hi. destruct (nth_error items i) as [x|] eqn:Ex; [|discriminate].
    injection Hi as <-. apply nth_error_In in Ex.
    exact (proj1 (AppJs_keydown_item _ x (proj1 (List.Forall_forall _ _) Hel x Ex))).
  - exact Hr.
  - rewrite findIndex_rewritten with (target := target).
    + destruct (Z.leb_spec (Z.of_nat 0) target), (Z.ltb_spec target (Z.of_nat (0 + length items)));
        cbn; lia.
    + apply List.Forall_forall. intros x Hx i.
      exact (proj1 (proj2 (AppJs_keydown_item _ x (proj1 (List.Forall_forall _ _) Hel x Hx)))).
  - intros i item' Hi. rewrite nth_error_rewritten in Hi.
    destruct (nth_error items i) as [x|] eqn:Ex; [|discriminate].
    injection Hi as <-. pose proof Ex as Hnth. apply nth_error_In in Ex. cbn [Nat.add].
    pose proof (AppJs_keydown_item (Z.of_nat i =? target)%Z x
                  (proj1 (List.Forall_forall _ _) Hel x Ex)) as (_ & Ha & Hs & Hid).
    split; [exact Ha | split; [exact Hs | now exists x]].
Qed.

(** X2. In app.js an arrow key pressed in the search box over a list of
    items leaves exactly one item active: the one a step below or above
    the item that was active, wrapping around at the ends; its
    [aria-selected] is [true] and that of every other item [false], and no
    item is added or dropped.  An arrow down followed by an arrow up, or the
    reverse, brings back the item that was active. *)
Theorem X2_arrow_keys_keep_one_active_item :
  forall (down : bool) (items : list node),
    items <> [] -> List.Forall isElement items ->
    let key := fun down : bool => if down then "ArrowDown" else "ArrowUp" in
    let active := findIndex AppJs.isActive items in
    let target := arrowTarget down active (Z.of_nat (length items)) in
    exists (items' : list node) (described : string),
      AppJs.onSearchKeydown (key down) items = AppJs.Rewritten items' described /\
      length items' = length items /\
      (0 <= target < Z.of_nat (length items))%Z /\
      (forall (i : nat) (item' : node), nth_error items' i = Some item' ->
         AppJs.isActive item' = (Z.of_nat i =? target)%Z /\
         getAttribute "aria-selected" (attributesOf item') =
           Some (if (Z.of_nat i =? target)%Z then "true" else "false")) /\
      ((0 <= active)%Z ->
       exists (items'' : list node) (described' : string),
         AppJs.onSearchKeydown (key (negb down)) items' = AppJs.Rewritten items'' described' /\
         findIndex AppJs.isActive items'' = active).
Proof.
  intros down items Hne Hel key active target.
  destruct (AppJs_arrow_key down items Hne Hel) as (items' & Hk & Hlen & Hel' & Hr & Hf & Hitems).
  exists items', (AppJs.idOf (at_ items target)).
  split; [exact Hk|]. split; [exact Hlen|]. split; [exact Hr|]. split.
  - intros i item' Hi. destruct (Hitems i item' Hi) as (Ha & Hs & _). now split.
  - intros Hactive.
    assert (Hne' : items' <> []) by (destruct items', items; cbn in Hlen; congruence).
    destruct (AppJs_arrow_key (negb down) items' Hne' Hel') as (items'' & Hk' & _ & _ & _ & Hf' & _).
    exists items'', (AppJs.idOf (at_ items'
                       (arrowTarget (negb down) (findIndex AppJs.isActive items')
                                    (Z.of_nat (length items'))))).
    split; [exact Hk'|]. rewrite Hf', Hf, Hlen.
    pose proof (findIndex_bounds AppJs.isActive items Hne) as Hb.
    assert (Hin : (0 <= findIndex AppJs.isActive items < Z.of_nat (length items))%Z)
      by (fold active; fold active in Hb; lia).
    destruct (arrowTarget_back _ _ Hin) as [Hdu Hud].
    unfold target, active. destruct down; cbn [negb]; assumption.
Qed.

Lemma X2_witness :
  exists (items' : list node) (described : string),
    AppJs.onSearchKeydown "ArrowDown"
      [Elem "li" [("class", "autocomplete__item autocomplete__item--active")] [];
       Elem "li" [("class", "autocomplete__item")] []] =
      AppJs.Rewritten items' described /\
    map AppJs.isActive items' = [false; true].
Proof.
  destruct (X2_arrow_keys_keep_one_active_item true
              [Elem "li" [("class", "autocomplete__item autocomplete__item--active")] [];
               Elem "li" [("class", "autocomplete__item")] []])
    as (items' & described & Hk & _).
  - discriminate.
  - repeat constructor.
  - exists items', described. split; [exact Hk|].
    vm_compute in Hk. injection Hk as <- _. reflexivity.
Defined.

Lemma findIndex_none {A : Type} (p : A -> bool) (l : list A) :
  List.Forall (fun x => p x = false) l -> findIndex p l = (-1)%Z.
Proof.
  induction 1 as [|x l Hx _ IH]; [reflexivity|]. cbn. now rewrite Hx, IH.
Qed.

(** X3. In app.js the list a search has just filled has no active item and
    its items carry no id.  So Enter clicks nothing, the first arrow down
    activates the first item, the first arrow up activates the last item
    but one (the only item when there is one) and not the last, and
    [aria-activedescendant] is set to the empty string. *)
Theorem X3_first_key_on_a_fresh_list {platform : JS.Platform} :
  forall (inputValue : string) (st : AppJs.state) (down : bool),
    AppJs.search inputValue (AppJs.glossaryData st) <> [] ->
    let items := AppJs.autocompleteList (AppJs.handleSearch inputValue st) in
    let n := Z.of_nat (length items) in
    findIndex AppJs.isActive items = (-1)%Z /\
    AppJs.onSearchKeydown "Enter" items = AppJs.EnterClicks None /\
    exists items' : list node,
      AppJs.onSearchKeydown (if down then "ArrowDown" else "ArrowUp") items =
        AppJs.Rewritten items' EmptyString /\
      findIndex AppJs.isActive items' =
        (if down then 0 else if (n =? 1)%Z then 0 else n - 2)%Z.
Proof.
  intros inputValue st down Hne items n.
  assert (Hitems : items = map (fun item => AppJs.createEl "li" "autocomplete__item" EmptyString
                                  (AppJs.displayText item) [("role", "option")] [])
                               (AppJs.search inputValue (AppJs.glossaryData st)))
    by apply AppJs_handleSearch_shows_search.
  assert (Hne' : items <> []).
  { rewrite Hitems. destruct (AppJs.search _ _); [contradiction | discriminate]. }
  assert (Hel : List.Forall isElement items).
  { rewrite Hitems. apply List.Forall_forall. intros x Hx.
    apply in_map_iff in Hx as (r & <- & _). exact I. }
  assert (Hfresh : List.Forall (fun x => AppJs.isActive x = false) items).
  { rewrite Hitems. apply List.Forall_forall. intros x Hx.
    apply in_map_iff in Hx as (r & <- & _). reflexivity. }
  assert (Hnoid : forall i x, nth_error items i = Some x ->
                              getAttribute "id" (attributesOf x) = None).
  { intros i x Hx. apply nth_error_In in Hx. rewrite Hitems in Hx.
    apply in_map_iff in Hx as (r & <- & _). reflexivity. }
  pose proof (findIndex_none _ _ Hfresh) as Hnone.
  split; [exact Hnone|]. split.
  - unfold AppJs.onSearchKeydown. rewrite Hnone.
    destruct (Z.eqb_spec (Z.of_nat (length items)) 0) as [E | _].
    + destruct items; [contradiction | cbn in E; lia].
    + reflexivity.
  - destruct (AppJs_arrow_key down items Hne' Hel) as (items' & Hk & _ & _ & Hr & Hf & _).
    exists items'. rewrite Hnone in *. split.
    + rewrite Hk. f_equal. unfold at_.
      destruct (Z.ltb_spec (arrowTarget down (-1) (Z.of_nat (length items))) 0); [lia|].
      destruct (nth_error items _) as [x|] eqn:Ex; [|reflexivity].
      cbn. now rewrite (Hnoid _ _ Ex).
    + rewrite Hf. unfold arrowTarget, n. destruct down; [|reflexivity].
      destruct (Z.eqb_spec (-1) (Z.of_nat (length items) - 1)); [|reflexivity]. reflexivity.
Qed.

Lemma X3_witness :
  findIndex AppJs.isActive
    (AppJs.autocompleteList
       (AppJs.handleSearch "hola" (AppJs.withGlossaryData exampleDoc (AppJs.initial EmptyString)))) =
    (-1)%Z /\
  AppJs.onSearchKeydown "Enter"
    (AppJs.autocompleteList
       (AppJs.handleSearch "hola" (AppJs.withGlossaryData exampleDoc (AppJs.initial EmptyString)))) =
    AppJs.EnterClicks None.
Proof.
  destruct (X3_first_key_on_a_fresh_list
              "hola" (AppJs.withGlossaryData exampleDoc (AppJs.initial EmptyString)) true)
    as (H1 & H2 & _).
  - vm_compute. discriminate.
  - split; assumption.
Defined.

(** The index on which the loop of lines 813-817 ends, from any start. *)
Lemma PartB_selected_fold (items : list PartB.listItem) :
  forall (start : nat) (acc : Z),
    let r := forEach (combine (seq start (length items)) items)
               (fun '(index, item) activeIndex =>
                  match PartB.li_ariaSelected item with
                  | Some v => if String.eqb v "true" then Z.of_nat index else activeIndex
                  | None => activeIndex
                  end) acc in
    r = acc \/ (Z.of_nat start <= r < Z.of_nat (start + length items))%Z.
Proof.
  induction items as [|x items IH]; intros start acc; [now left|].
  cbn [length seq combine]. rewrite forEach_cons. cbv zeta.
  match goal with |- context [forEach _ ?body ?a] => destruct (IH (S start) a) as [E | E] end.
  - cbv zeta in E. rewrite E.
    destruct (PartB.li_ariaSelected x) as [v|]; [destruct (String.eqb v "true")|];
      [right; lia | now left | now left].
  - right. cbv zeta in E. lia.
Qed.

Lemma PartB_selectedIndex_bounds (items : list PartB.listItem) :
  items <> [] -> (-1 <= PartB.selectedIndex items < Z.of_nat (length items))%Z.
Proof.
  intros Hne. unfold PartB.selectedIndex.
  destruct (PartB_selected_fold items 0 (-1)%Z) as [E | E]; cbv zeta in E.
  - rewrite E. destruct items; [contradiction | cbn; lia].
  - cbn [Nat.add] in E. lia.
Qed.

Lemma PartB_selected_rewritten (target : Z) (items : list PartB.listItem) :
  forall (start : nat) (acc : Z),
    forEach (combine (seq start (length items))
               (map (fun '(index, item) =>
                       PartB.mkListItem
                         (Some (if (Z.of_nat index =? target)%Z then "true" else "false"))
                         (PartB.li_materiaId item) (PartB.li_groupId item))
                    (combine (seq start (length items)) items)))
      (fun '(index, item) activeIndex =>
         match PartB.li_ariaSelected item with
         | Some v => if String.eqb v "true" then Z.of_nat index else activeIndex
         | None => activeIndex
         end) acc =
    if ((Z.of_nat start <=? target) && (target <? Z.of_nat (start + length items)))%Z
    then target else acc.
Proof.
  induction items as [|x items IH]; intros start acc.
  - cbn. destruct (Z.leb_spec (Z.of_nat start) target), (Z.ltb_spec target (Z.of_nat (start + 0)));
      cbn; lia.
  - cbn [length seq combine map]. rewrite forEach_cons, IH. cbn [PartB.li_ariaSelected].
    destruct (Z.eqb_spec (Z.of_nat start) target) as [E | E]; cbn [String.eqb Ascii.eqb Bool.eqb];
      destruct (Z.leb_spec (Z.of_nat (S start)) target),
               (Z.ltb_spec target (Z.of_nat (S start + length items))),
               (Z.leb_spec (Z.of_nat start) target),
               (Z.ltb_spec target (Z.of_nat (start + S (length items)))); cbn; lia.
Qed.

(** The arrow keys in the second script of part_000. *)
Lemma PartB_arrow_key {platform : JS.Platform}
      (down : bool) (items : list PartB.listItem) (st : PartB.state) :
  items <> [] ->
  let target := arrowTarget down (PartB.selectedIndex items) (Z.of_nat (length items)) in
  exists items',
    PartB.handleSearchKeystrokes (if down then "ArrowDown" else "ArrowUp") items st =
      Normal (items', st) /\
    length items' = length items /\
    (0 <= target < Z.of_nat (length items))%Z /\
    PartB.selectedIndex items' = target /\
    (forall i item', nth_error items' i = Some item' ->
       PartB.li_ariaSelected item' =
         Some (if (Z.of_nat i =? target)%Z then "true" else "false") /\
       exists item, nth_error items i = Some item /\
         PartB.li_materiaId item' = PartB.li_materiaId item /\
         PartB.li_groupId item' = PartB.li_groupId item).
Proof.
  intros Hne target.
  pose proof (PartB_selectedIndex_bounds items Hne) as Hb.
  assert (Hn : (0 < Z.of_nat (length items))%Z) by (destruct items; [contradiction | cbn; lia]).
  pose proof (arrowTarget_range down _ _ Hb Hn) as Hr. fold target in Hr.
  set (F := fun (index : nat) (item : PartB.listItem) =>
              PartB.mkListItem (Some (if (Z.of_nat index =? target)%Z then "true" else "false"))
                               (PartB.li_materiaId item) (PartB.li_groupId item)).
  exists (map (fun '(k, x) => F k x) (combine (seq 0 (length items)) items)).
  split; [|split; [|split; [|split]]].
  - unfold PartB.handleSearchKeystrokes.
    destruct (Z.eqb_spec (Z.of_nat (length items)) 0); [lia|].
    destruct down; cbn [String.eqb Ascii.eqb Bool.eqb orb].
    + rewrite (arrow_down_rem _ _ Hb). reflexivity.
    + rewrite (arrow_up_rem _ _ Hb). reflexivity.
  - apply length_rewritten.
  - exact Hr.
  - unfold PartB.selectedIndex. rewrite length_rewritten.
    unfold F. rewrite (PartB_selected_rewritten target items 0 (-1)%Z).
    destruct (Z.leb_spec (Z.of_nat 0) target), (Z.ltb_spec target (Z.of_nat (0 + length items)));
      cbn; lia.
  - intros i item' Hi. rewrite nth_error_rewritten in Hi.
    destruct (nth_error items i) as [x|] eqn:Ex; [|discriminate].
    injection Hi as <-. cbn [Nat.add]. split; [reflexivity|]. now exists x.
Qed.

(** X4. In the second script of part_000 an arrow key pressed over a
    non-empty list of results leaves exactly one item with [aria-selected]
    equal to [true]: the one a step below or above the last item that had
    it, wrapping around at the ends; with none selected an arrow up selects
    the last item but one.  The data of the items and the state are left as
    they were, and an arrow down followed by an arrow up, or the reverse,
    brings back the selection. *)
Theorem X4_arrow_keys_keep_one_selected_item {platform : JS.Platform} :
  forall (down : bool) (items : list PartB.listItem) (st : PartB.state),
    items <> [] ->
    let key := fun down : bool => if down then "ArrowDown" else "ArrowUp" in
    let selected := PartB.selectedIndex items in
    let target := arrowTarget down selected (Z.of_nat (length items)) in
    exists items' : list PartB.listItem,
      PartB.handleSearchKeystrokes (key down) items st = Normal (items', st) /\
      length items' = length items /\
      (0 <= target < Z.of_nat (length items))%Z /\
      (forall (i : nat) (item' : PartB.listItem), nth_error items' i = Some item' ->
         PartB.li_ariaSelected item' =
           Some (if (Z.of_nat i =? target)%Z then "true" else "false") /\
         exists item : PartB.listItem, nth_error items i = Some item /\
           PartB.li_materiaId item' = PartB.li_materiaId item /\
           PartB.li_groupId item' = PartB.li_groupId item) /\
      ((0 <= selected)%Z ->
       exists items'' : list PartB.listItem,
         PartB.handleSearchKeystrokes (key (negb down)) items' st = Normal (items'', st) /\
         PartB.selectedIndex items'' = selected).
Proof.
  intros down items st Hne key selected target.
  destruct (PartB_arrow_key down items st Hne) as (items' & Hk & Hlen & Hr & Hf & Hitems).
  exists items'.
  split; [exact Hk|]. split; [exact Hlen|]. split; [exact Hr|]. split; [exact Hitems|].
  intros Hsel.
  assert (Hne' : items' <> []) by (destruct items', items; cbn in Hlen; congruence).
  destruct (PartB_arrow_key (negb down) items' st Hne') as (items'' & Hk' & _ & _ & Hf' & _).
  exists items''. split; [exact Hk'|]. rewrite Hf', Hf, Hlen.
  pose proof (PartB_selectedIndex_bounds items Hne) as Hb.
  assert (Hin : (0 <= PartB.selectedIndex items < Z.of_nat (length items))%Z)
    by (fold selected; fold selected in Hb; lia).
  destruct (arrowTarget_back _ _ Hin) as [Hdu Hud].
  unfold target, selected. destruct down; cbn [negb]; assumption.
Qed.

Lemma X4_witness :
  exists items' : list PartB.listItem,
    PartB.handleSearchKeystrokes "ArrowUp"
      [PartB.mkListItem None (Some "S1") (Some EmptyString);
       PartB.mkListItem None (Some "S1") (Some "G1");
       PartB.mkListItem None (Some "S1") (Some "G1")] PartB.initial =
      Normal (items', PartB.initial) /\
    map PartB.li_ariaSelected items' = [Some "false"; Some "true"; Some "false"].
Proof.
  destruct (X4_arrow_keys_keep_one_selected_item false
              [PartB.mkListItem None (Some "S1") (Some EmptyString);
               PartB.mkListItem None (Some "S1") (Some "G1");
               PartB.mkListItem None (Some "S1") (Some "G1")] PartB.initial)
    as (items' & Hk & _).
  - discriminate.
  - exists items'. split; [exact Hk|].
    vm_compute in Hk. injection Hk as <-. reflexivity.
Defined.

(** ** [debounce] *)

Lemma burst_calls {A : Type} (ms : nat) (steps : list (A * nat)) :
  List.Forall (fun step => snd step < ms) steps ->
  forall d : AppJs.debounced A, AppJs.calls (burst ms steps d) = AppJs.calls d.
Proof.
  unfold burst. induction 1 as [|[args gap] steps Hgap _ IH]; intros d; [reflexivity|].
  rewrite forEach_cons, IH. unfold AppJs.elapse, AppJs.debouncedCall. cbn in *.
  destruct (Nat.leb_spec (AppJs.now d + ms) (AppJs.now d + gap)); [lia | reflexivity].
Qed.

(** X5. A debounced function called any number of times, each call less
    than [ms] milliseconds after the one before, and then left alone for
    [ms] milliseconds or more, runs the function exactly once, with the
    arguments of the last call; a timer pending before the burst is
    dropped, and time passing afterwards runs nothing more. *)
Theorem X5_debounce_runs_once_with_last_arguments :
  forall (A : Type) (ms : nat) (steps : list (A * nat)) (last : A) (wait later : nat)
         (d : AppJs.debounced A),
    List.Forall (fun step => snd step < ms) steps ->
    ms <= wait ->
    let d' := AppJs.elapse wait (AppJs.debouncedCall ms last (burst ms steps d)) in
    AppJs.calls d' = AppJs.calls d ++ [last] /\
    AppJs.timer d' = None /\
    AppJs.calls (AppJs.elapse later d') = AppJs.calls d ++ [last].
Proof.
  intros A ms steps last wait later d Hgaps Hwait d'.
  assert (Hd' : d' = AppJs.mkDebounced (AppJs.now (burst ms steps d) + wait) None
                                       (AppJs.calls d ++ [last])).
  { unfold d', AppJs.elapse, AppJs.debouncedCall. cbn.
    destruct (Nat.leb_spec (AppJs.now (burst ms steps d) + ms)
                           (AppJs.now (burst ms steps d) + wait)); [|lia].
    now rewrite burst_calls. }
  rewrite Hd'. repeat split.
Qed.

Lemma X5_witness :
  AppJs.calls
    (AppJs.elapse 300
       (AppJs.debouncedCall 300 "hol"
          (burst 300 [("h", 120); ("ho", 299)] (AppJs.mkDebounced 0 (Some (10, "old")) [])))) =
  ["hol"].
Proof.
  apply (X5_debounce_runs_once_with_last_arguments string 300 [("h", 120); ("ho", 299)]
           "hol" 300 0 (AppJs.mkDebounced 0 (Some (10, "old")) [])).
  - repeat constructor; cbn; lia.
  - lia.
Defined.

(** ** The search finds every match *)

Lemma forEach_reaches {A S : Type} (P : S -> Prop) (body : A -> S -> S) (l : list A) (x0 : A) :
  In x0 l ->
  (forall x acc, In x l -> P acc -> P (body x acc)) ->
  (forall acc, P (body x0 acc)) ->
  forall s, P (forEach l body s).
Proof.
  induction l as [|a l IH]; intros Hin Hmono Hx0 s; [destruct Hin|].
  rewrite forEach_cons. destruct Hin as [-> | Hin].
  - apply forEach_ind; [apply Hx0|]. intros x acc Hx. apply Hmono. now right.
  - apply IH; [exact Hin | | exact Hx0]. intros x acc Hx. apply Hmono. now right.
Qed.

Lemma In_push_if_old {R : Type} (b : bool) (x r : R) (acc : list R) :
  In r acc -> In r (if b then push x acc else acc).
Proof. intros H. destruct b; [|exact H]. unfold push. apply in_or_app. now left. Qed.

Lemma In_push_if_new {R : Type} (b : bool) (x : R) (acc : list R) :
  b = true -> In x (if b then push x acc else acc).
Proof. intros ->. unfold push. apply in_or_app. right. now left. Qed.

Lemma includes_or_intro (a b q : string) :
  occursIn q a \/ occursIn q b -> JS.includes a q || JS.includes b q = true.
Proof. rewrite orb_true_iff, !includes_spec. tauto. Qed.

(** A match once pushed stays to the end of the scan. *)
Ltac scan_keeps :=
  repeat first
    [ assumption
    | apply In_push_if_old
    | apply forEach_ind; [| intros ] ].

Lemma AppJs_collect_complete {platform : JS.Platform}
      (q : string) (doc : GlossaryDocument) (src : source) :
  sourceIn doc src -> sourceMatches q src ->
  In (AppJs_resultOf src) (AppJs.collectResults q doc).
Proof.
  unfold AppJs.collectResults. destruct src as [s | s g | s g c]; cbn.
  - intros Hs Hm. apply (forEach_reaches _ _ doc s Hs); intros; [scan_keeps|].
    apply forEach_ind; [| intros; scan_keeps].
    apply In_push_if_new. now apply includes_or_intro.
  - intros [Hs Hg] Hm. apply (forEach_reaches _ _ doc s Hs); intros; [scan_keeps|].
    apply (forEach_reaches _ _ (s_groups s) g Hg); intros; [scan_keeps|].
    apply forEach_ind; [| intros; scan_keeps].
    apply In_push_if_new. now apply includes_spec.
  - intros (Hs & Hg & Hc) Hm. apply (forEach_reaches _ _ doc s Hs); intros; [scan_keeps|].
    apply (forEach_reaches _ _ (s_groups s) g Hg); intros; [scan_keeps|].
    apply (forEach_reaches _ _ (g_cards g) c Hc); intros; [scan_keeps|].
    apply In_push_if_new. now apply includes_or_intro.
Qed.

Lemma PartA_collect_complete {platform : JS.Platform}
      (q : string) (doc : GlossaryDocument) (src : source) :
  sourceIn doc src -> sourceMatches q src ->
  In (PartA_resultOf src) (PartA.collectResults q doc).
Proof.
  unfold PartA.collectResults. destruct src as [s | s g | s g c]; cbn.
  - intros Hs Hm. apply (forEach_reaches _ _ doc s Hs); intros; [scan_keeps|].
    apply forEach_ind; [| intros; scan_keeps].
    apply In_push_if_new. apply includes_or_intro. tauto.
  - intros [Hs Hg] Hm. apply (forEach_reaches _ _ doc s Hs); intros; [scan_keeps|].
    apply (forEach_reaches _ _ (s_groups s) g Hg); intros; [scan_keeps|].
    apply forEach_ind; [| intros; scan_keeps].
    apply In_push_if_new. now apply includes_spec.
  - intros (Hs & Hg & Hc) Hm. apply (forEach_reaches _ _ doc s Hs); intros; [scan_keeps|].
    apply (forEach_reaches _ _ (s_groups s) g Hg); intros; [scan_keeps|].
    apply (forEach_reaches _ _ (g_cards g) c Hc); intros; [scan_keeps|].
    apply In_push_if_new. now apply includes_or_intro.
Qed.

Lemma listedOrGuarded_push_if (src : source) (b : bool) (x : PartB.result)
      (acc : list PartB.result) :
  listedOrGuarded src acc -> listedOrGuarded src (if b then push x acc else acc).
Proof.
  intros [H | (text & r & Ht & Hr & E)].
  - left. now apply In_push_if_old.
  - right. exists text, r. repeat split; [exact Ht | now apply In_push_if_old | exact E].
Qed.

Lemma listedOrGuarded_guard (src : source) (text : string) (m : bool)
      (acc : list PartB.result) :
  guardText src = Some text -> m = true ->
  listedOrGuarded src
    (if m && negb (existsb (fun r => String.eqb (PartB.r_text r) text) acc)
     then push (PartB_resultOf src) acc else acc).
Proof.
  intros Ht ->. cbn [andb].
  destruct (existsb _ acc) eqn:E; cbn [negb].
  - apply existsb_exists in E as (r & Hr & Heq). apply String.eqb_eq in Heq.
    right. now exists text, r.
  - left. unfold push. apply in_or_app. right. now left.
Qed.

Ltac guarded_scan_keeps :=
  repeat first
    [ assumption
    | apply listedOrGuarded_push_if
    | apply forEach_ind; [| intros ] ].

Lemma PartB_collect_complete {platform : JS.Platform}
      (q : string) (doc : GlossaryDocument) (src : source) :
  sourceIn doc src -> sourceMatches q src ->
  listedOrGuarded src (PartB.collectResults q doc).
Proof.
  unfold PartB.collectResults. destruct src as [s | s g | s g c]; cbn [sourceIn sourceMatches].
  - intros Hs Hm.
    apply (forEach_reaches _ _ doc s Hs); intros; [guarded_scan_keeps|].
    apply forEach_ind; [| intros; guarded_scan_keeps].
    left. apply In_push_if_new. now apply includes_or_intro.
  - intros [Hs Hg] Hm.
    apply (forEach_reaches _ _ doc s Hs); intros; [guarded_scan_keeps|].
    apply (forEach_reaches _ _ (s_groups s) g Hg); intros; [guarded_scan_keeps|].
    apply forEach_ind; [| intros; guarded_scan_keeps].
    apply (listedOrGuarded_guard (FromGroup s g)); [reflexivity | now apply includes_spec].
  - intros (Hs & Hg & Hc) Hm.
    apply (forEach_reaches _ _ doc s Hs); intros; [guarded_scan_keeps|].
    apply (forEach_reaches _ _ (s_groups s) g Hg); intros; [guarded_scan_keeps|].
    apply (forEach_reaches _ _ (g_cards g) c Hc); intros; [guarded_scan_keeps|].
    apply (listedOrGuarded_guard (FromCard s g c)); [reflexivity | now apply includes_or_intro].
Qed.

Lemma slice0_all {A : Type} (n : nat) (l : list A) : length l <= n -> slice0 n l = l.
Proof. apply firstn_all2. Qed.

(** X6. In app.js the search misses no match: when the lower-cased input
    is not empty, every subject, group or card of the document one of whose
    source fields, lower-cased, contains the lower-cased input is among the
    matches shown, up to the serialisation by which duplicates are told
    apart; and its text is in the list the handler fills. *)
Theorem X6_search_misses_no_match {platform : JS.Platform} :
  forall (inputValue : string) (st : AppJs.state) (src : source),
    0 < JS.stringLength (JS.toLowerCase inputValue) ->
    sourceIn (AppJs.glossaryData st) src ->
    sourceMatches (JS.toLowerCase inputValue) src ->
    exists r : AppJs.result,
      In r (AppJs.search inputValue (AppJs.glossaryData st)) /\
      AppJs.stringify r = AppJs.stringify (AppJs_resultOf src) /\
      In (AppJs.createEl "li" "autocomplete__item" EmptyString (AppJs.displayText r)
                         [("role", "option")] [])
         (AppJs.autocompleteList (AppJs.handleSearch inputValue st)).
Proof.
  intros v st src Hv Hsrc Hm.
  pose proof (AppJs_collect_complete _ _ _ Hsrc Hm) as Hin.
  destruct (AppJs_uniqueResults_complete _ _ Hin) as (r & Hr & E).
  assert (Hs : In r (AppJs.search v (AppJs.glossaryData st))).
  { unfold AppJs.search.
    destruct (Nat.eqb_spec (JS.stringLength (JS.toLowerCase v)) 0); [lia | exact Hr]. }
  exists r. split; [exact Hs|]. split; [exact E|].
  rewrite AppJs_handleSearch_shows_search.
  apply (in_map (fun item => AppJs.createEl "li" "autocomplete__item" EmptyString
                               (AppJs.displayText item) [("role", "option")] [])).
  exact Hs.
Qed.

Lemma X6_witness :
  exists r : AppJs.result,
    In r (AppJs.search "HOL" exampleDoc) /\
    AppJs.stringify r = AppJs.stringify (AppJs.CardResult exampleCard "S1" "G1").
Proof.
  destruct (X6_search_misses_no_match
              "HOL" (AppJs.withGlossaryData exampleDoc (AppJs.initial EmptyString))
              (FromCard exampleSubject exampleGroup exampleCard))
    as (r & Hr & E & _).
  - vm_compute. lia.
  - cbn. auto.
  - left. exists EmptyString, "a". reflexivity.
  - exists r. split; [exact Hr | exact E].
Defined.

(** X7. In the first script of part_000 the scan misses no match either:
    for an input of more than two UTF-16 code units once trimmed, every
    subject, group or card one of whose source fields, lower-cased,
    contains the lower-cased trimmed input has its match in the scan; the
    list shown is the first ten matches of the scan, so it holds the match
    whenever the scan finds no more than ten. *)
Theorem X7_scan_misses_no_match_PartA {platform : JS.Platform} :
  forall (inputValue : string) (doc : GlossaryDocument) (src : source),
    2 < JS.stringLength (JS.trim inputValue) ->
    sourceIn doc src ->
    sourceMatches (JS.toLowerCase (JS.trim inputValue)) src ->
    let scan := PartA.collectResults (JS.toLowerCase (JS.trim inputValue)) doc in
    In (PartA_resultOf src) scan /\
    PartA.search inputValue doc = slice0 10 scan /\
    (length scan <= 10 -> In (PartA_resultOf src) (PartA.search inputValue doc)).
Proof.
  intros v doc src Hlen Hsrc Hm scan.
  pose proof (PartA_collect_complete _ _ _ Hsrc Hm) as Hin.
  assert (Hs : PartA.search v doc = slice0 10 scan).
  { unfold PartA.search, PartA.searchGlossary.
    destruct (Nat.ltb_spec 2 (JS.stringLength (JS.trim v))); [reflexivity | lia]. }
  split; [exact Hin|]. split; [exact Hs|].
  intros Hscan. rewrite Hs, slice0_all by exact Hscan. exact Hin.
Qed.

Lemma X7_witness :
  In (PartA.mkResult "grupo" "S1" ("Grupo: " +:+ JS.quoted "Basics" +:+ " en 101"))
     (PartA.search " basic " exampleDoc).
Proof.
  apply (X7_scan_misses_no_match_PartA " basic " exampleDoc
           (FromGroup exampleSubject exampleGroup)).
  - vm_compute. lia.
  - cbn. auto.
  - exists EmptyString, "s". reflexivity.
  - vm_compute. lia.
Defined.

(** X8. In the second script of part_000, for an input of two UTF-16 code
    units or more once lower-cased and trimmed, every subject whose title or
    code, lower-cased, contains that query is in the scan.  A group or a
    card whose lower-cased source field contains it is in the scan unless
    the scan holds a result whose text is exactly the title of the group,
    or the Spanish term of the card: the guard against duplicates drops
    such a match.  The list shown is the first ten results of the scan. *)
Theorem X8_scan_misses_only_guarded_matches_PartB {platform : JS.Platform} :
  forall (inputValue : string) (doc : GlossaryDocument) (src : source),
    2 <= JS.stringLength (JS.trim (JS.toLowerCase inputValue)) ->
    sourceIn doc src ->
    sourceMatches (JS.trim (JS.toLowerCase inputValue)) src ->
    let scan := PartB.collectResults (JS.trim (JS.toLowerCase inputValue)) doc in
    listedOrGuarded src scan /\
    (guardText src = None -> In (PartB_resultOf src) scan) /\
    PartB.search inputValue doc = slice0 10 scan.
Proof.
  intros v doc src Hlen Hsrc Hm scan.
  pose proof (PartB_collect_complete _ _ _ Hsrc Hm) as Hin.
  split; [exact Hin|]. split.
  - intros Hnone. destruct Hin as [H | (text & r & Ht & _)]; [exact H | congruence].
  - unfold PartB.search.
    destruct (Nat.ltb_spec (JS.stringLength (JS.trim (JS.toLowerCase v))) 2) as [H | H];
      [lia | reflexivity].
Qed.

Lemma X8_witness :
  In (PartB.mkResult "materia" "101 - Intro" (Some "S1") None None None)
     (PartB.collectResults (JS.trim (JS.toLowerCase " Intro ")) exampleDoc).
Proof.
  destruct (X8_scan_misses_only_guarded_matches_PartB " Intro " exampleDoc
              (FromSubject exampleSubject)) as (_ & H & _).
  - vm_compute. lia.
  - cbn. auto.
  - left. exists EmptyString, EmptyString. reflexivity.
  - exact (H eq_refl).
Defined.

(** ** A click on a search result *)

Lemma find_distinct_ids (doc : GlossaryDocument) (s0 s : Subject) :
  List.NoDup (map s_id doc) -> In s0 doc ->
  arrayFind (fun x => String.eqb (s_id x) (s_id s0)) doc = Some s -> s = s0.
Proof.
  unfold arrayFind. induction doc as [|a doc IH]; cbn; intros Hnd Hin Hf; [contradiction|].
  inversion Hnd as [|? ? Hnotin Hnd']; subst.
  destruct (String.eqb_spec (s_id a) (s_id s0)) as [E | Hne].
  - injection Hf as <-. destruct Hin as [-> | Hin]; [reflexivity|].
    exfalso. apply Hnotin. rewrite E. now apply in_map.
  - destruct Hin as [-> | Hin]; [contradiction | now apply IH].
Qed.



Lemma sourceIn_subject (doc : GlossaryDocument) (src : source) :
  sourceIn doc src -> In (subjectOf src) doc.
Proof. destruct src; cbn; tauto. Qed.





Lemma PartB_selected_none (items : list PartB.listItem) :
  List.Forall (fun item => PartB.li_ariaSelected item = None) items ->
  PartB.selectedIndex items = (-1)%Z.
Proof.
  unfold PartB.selectedIndex. generalize 0, (-1)%Z.
  induction items as [|x items IH]; intros start acc Hall; [reflexivity|].
  inversion Hall as [|? ? Hx Hrest]; subst.
  cbn [length seq combine]. rewrite forEach_cons, Hx. now apply IH.
Qed.

Lemma PartB_listItemsOf_fresh (results : list PartB.result) :
  List.Forall (fun item => PartB.li_ariaSelected item = None) (PartB.listItemsOf results).
Proof.
  unfold PartB.listItemsOf. destruct (length results =? 0).
  - repeat constructor.
  - apply List.Forall_forall. intros item Hin. apply in_map_iff in Hin as (r & <- & _). reflexivity.
Qed.

(** X11. In the second script of part_000, on the list a search has just
    written, an arrow down selects the first item and Enter then clicks it:
    the click runs the handler of the results on the first item and the
    list ends up empty and closed, also when the handler raises.  When the
    list shows the message that nothing was found, that item is selected
    and clicked like a result: the script logs that the subject [undefined]
    is unknown and empties the list. *)
Theorem X11_arrow_down_then_enter_PartB {platform : JS.Platform} :
  forall (results : list PartB.result) (doc : GlossaryDocument) (st : PartB.state),
    PartB.glossaryData st = Some doc ->
    exists (items' : list PartB.listItem) (first : PartB.listItem),
      PartB.handleSearchKeystrokes "ArrowDown" (PartB.listItemsOf results) st =
        Normal (items', st) /\
      nth_error items' 0 = Some first /\
      PartB.li_ariaSelected first = Some "true" /\
      PartB.handleSearchKeystrokes "Enter" items' st =
        match PartB.handleSearchResultClick first st with
        | Normal (_, st') => Normal ([], PartB.clearSearchResults st')
        | Throw error (_, st') => Throw error ([], PartB.clearSearchResults st')
        end /\
      fst (stateOf (PartB.handleSearchKeystrokes "Enter" items' st)) = [] /\
      PartB.searchResults (snd (stateOf (PartB.handleSearchKeystrokes "Enter" items' st))) =
        EmptyString /\
      PartB.comboboxAriaExpanded
        (snd (stateOf (PartB.handleSearchKeystrokes "Enter" items' st))) = Some false /\
      match results with
      | [] =>
          PartB.handleSearchKeystrokes "Enter" items' st =
            Normal ([], PartB.clearSearchResults
                          (PartB.consoleError
                             ("Materia con id " +:+ JS.quoted "undefined" +:+ " no encontrada.")
                             st))
      | r :: _ => carries r first
      end.
Proof.
  intros results doc st Hdoc.
  set (items := PartB.listItemsOf results).
  assert (Hne : items <> []).
  { unfold items, PartB.listItemsOf. destruct results; cbn; discriminate. }
  destruct (PartB_arrow_key true items st Hne) as (items' & Hk & Hlen & _ & Hsel & Hitems).
  rewrite (PartB_selected_none items (PartB_listItemsOf_fresh results)) in Hsel, Hitems.
  assert (Htarget : arrowTarget true (-1) (Z.of_nat (length items)) = 0%Z).
  { unfold arrowTarget. destruct (Z.eqb_spec (-1) (Z.of_nat (length items) - 1)); [|reflexivity].
    destruct items; [contradiction | cbn in *; lia]. }
  rewrite Htarget in Hsel, Hitems.
  destruct items' as [|first rest] eqn:Eitems'.
  { destruct items; [contradiction | discriminate Hlen]. }
  destruct (Hitems 0 first eq_refl) as (Haria & item0 & Hitem0 & Hmid & Hgid).
  assert (Henter : PartB.handleSearchKeystrokes "Enter" (first :: rest) st =
                   match PartB.handleSearchResultClick first st with
                   | Normal (_, st') => Normal ([], PartB.clearSearchResults st')
                   | Throw error (_, st') => Throw error ([], PartB.clearSearchResults st')
                   end).
  { unfold PartB.handleSearchKeystrokes. rewrite Hsel.
    destruct (Z.eqb_spec (Z.of_nat (length (first :: rest))) 0) as [E | _]; [cbn in E; lia|].
    reflexivity. }
  exists (first :: rest), first.
  split; [exact Hk|]. split; [reflexivity|]. split; [exact Haria|]. split; [exact Henter|].
  split; [|split; [|split]];
    try (rewrite Henter;
         destruct (PartB.handleSearchResultClick first st) as [[scroll st'] | error [scroll st']];
         reflexivity).
  destruct results as [|r results].
  - rewrite Henter. cbn in Hitem0. injection Hitem0 as <-. cbn in Hmid, Hgid.
    unfold PartB.handleSearchResultClick, PartB.renderMateriaOf.
    rewrite Hmid, Hgid, Hdoc. reflexivity.
  - cbn in Hitem0. injection Hitem0 as <-. split; [exact Hmid | exact Hgid].
Qed.

Lemma X11_witness :
  exists (items' : list PartB.listItem) (first : PartB.listItem),
    PartB.handleSearchKeystrokes "ArrowDown" (PartB.listItemsOf [])
      (PartB.withGlossaryData (Some exampleDoc) PartB.initial) =
      Normal (items', PartB.withGlossaryData (Some exampleDoc) PartB.initial) /\
    nth_error items' 0 = Some first /\
    PartB.li_ariaSelected first = Some "true".
Proof.
  destruct (X11_arrow_down_then_enter_PartB
              [] exampleDoc (PartB.withGlossaryData (Some exampleDoc) PartB.initial))
    as (items' & first & Hk & Hn & Ha & _).
  - reflexivity.
  - exists items', first. repeat split; assumption.
Defined.

Lemma PartA_list_fold (rs : list (nat * PartA.result)) :
  forall st : PartA.state,
    forEach rs (fun '(index, result) st =>
                  let li := PartA.createEl "li" [("role", "option");
                                                 ("id", "result-" +:+ natToString index);
                                                 ("textContent", PartA.r_text result);
                                                 ("data-id", PartA.r_id result)] in
                  PartA.withAutocompleteList (PartA.autocompleteList st ++ [li]) st) st =
    PartA.withAutocompleteList
      (PartA.autocompleteList st ++ map (fun '(i, r) => PartA_listItem i r) rs) st.
Proof.
  induction rs as [|[i r] rs IH]; intros st.
  - cbn. rewrite app_nil_r. now destruct st.
  - rewrite forEach_cons, IH. cbn [map PartA.autocompleteList PartA.withAutocompleteList].
    rewrite <- app_assoc. reflexivity.
Qed.

Lemma PartA_updateAutocompleteList_shape (rs : list PartA.result) (st : PartA.state) :
  PartA.updateAutocompleteList rs st =
  PartA.withListAriaExpanded (Some (negb (length rs =? 0)))
    (PartA.withAutocompleteList (map (fun '(i, r) => PartA_listItem i r) (indexed rs)) st).
Proof.
  unfold PartA.updateAutocompleteList. destruct rs as [|r rs]; [reflexivity|].
  cbn [length Nat.eqb negb]. rewrite PartA_list_fold. reflexivity.
Qed.

(** X12. In the first script of part_000 the list item of every result
    shown carries the id of the subject the result stands for, and pressing
    the mouse on it renders a subject of the document with that id (the
    subject of the entity itself when ids are distinct), also when the id
    is the empty string: that subject becomes the current one, the page
    title is made of its title, nothing is logged, the list is marked as
    closed and the text of the item is written to the search box. *)
Theorem X12_mousedown_on_a_result_renders_its_subject_PartA {platform : JS.Platform} :
  forall (inputValue : string) (st : PartA.state) (index : nat) (r : PartA.result),
    nth_error (PartA.search inputValue (PartA.glossaryData st)) index = Some r ->
    let shown := PartA.debouncedSearch inputValue st in
    nth_error (PartA.autocompleteList shown) index = Some (PartA_listItem index r) /\
    getAttribute "data-id" (attributesOf (PartA_listItem index r)) = Some (PartA.r_id r) /\
    exists (src : source) (s : Subject),
      sourceIn (PartA.glossaryData st) src /\ r = PartA_resultOf src /\
      In s (PartA.glossaryData st) /\ s_id s = s_id (subjectOf src) /\
      (List.NoDup (map s_id (PartA.glossaryData st)) -> s = subjectOf src) /\
      exists st' : PartA.state,
        PartA.onListMousedown (attributesOf (PartA_listItem index r)) (PartA.r_text r) shown =
          (PartA.r_text r, st') /\
        PartA.currentMateria st' = Some s /\
        PartA.documentTitle st' = s_title s +:+ " | Portal Académico" /\
        PartA.listAriaExpanded st' = Some false /\
        PartA.console st' = PartA.console st.
Proof.
  intros v st index r Hnth shown.
  assert (Hshown : shown =
            PartA.withListAriaExpanded
              (Some (negb (length (PartA.search v (PartA.glossaryData st)) =? 0)))
              (PartA.withAutocompleteList
                 (map (fun '(i, r) => PartA_listItem i r)
                      (indexed (PartA.search v (PartA.glossaryData st)))) st)).
  { unfold shown. rewrite PartA_debouncedSearch_shows_search.
    apply PartA_updateAutocompleteList_shape. }
  split.
  { rewrite Hshown. cbn [PartA.autocompleteList PartA.withListAriaExpanded
                         PartA.withAutocompleteList].
    unfold indexed. rewrite (nth_error_rewritten PartA_listItem), Hnth. reflexivity. }
  split; [reflexivity|].
  assert (Hin : In r (PartA.search v (PartA.glossaryData st))) by (eapply nth_error_In; eauto).
  assert (Hj : justified PartA_resultOf (JS.toLowerCase (JS.trim v)) (PartA.glossaryData st) r).
  { unfold PartA.search, PartA.searchGlossary in Hin.
    destruct (2 <? JS.stringLength (JS.trim v)); [|destruct Hin].
    apply slice0_In in Hin.
    exact (proj1 (List.Forall_forall _ _) (PartA_collect_justified _ _) r Hin). }
  destruct Hj as (src & Hsrc & -> & _).
  pose proof (sourceIn_subject _ _ Hsrc) as Hs0.
  destruct (find_known_id (s_id (subjectOf src)) (PartA.glossaryData st)) as (s & Hf & Hs & E);
    [now apply in_map|].
  exists src, s. split; [exact Hsrc|]. split; [reflexivity|]. split; [exact Hs|].
  split; [exact E|]. split.
  { intros Hnd. exact (find_distinct_ids _ _ _ Hnd Hs0 Hf). }
  assert (Hid : PartA.r_id (PartA_resultOf src) = s_id (subjectOf src)) by (now destruct src).
  assert (Hf' : arrayFind (fun x => String.eqb (s_id x) (s_id (subjectOf src)))
                          (PartA.glossaryData shown) = Some s).
  { rewrite Hshown. exact Hf. }
  exists (PartA.withListAriaExpanded (Some false)
            (PartA.renderMateria (s_id (subjectOf src)) shown)).
  split.
  { unfold PartA.onListMousedown.
    change (getAttribute "data-id" (attributesOf (PartA_listItem index (PartA_resultOf src))))
      with (Some (PartA.r_id (PartA_resultOf src))).
    now rewrite Hid. }
  unfold PartA.renderMateria. rewrite Hf'. rewrite Hshown. repeat split.
Qed.

Lemma X12_witness :
  nth_error
    (PartA.autocompleteList
       (PartA.debouncedSearch "hola" (PartA.withGlossaryData exampleDoc PartA.initial))) 0 =
  Some (PartA_listItem 0
          (PartA.mkResult "tarjeta" "S1" ("Término: " +:+ JS.quoted "hola" +:+ " en 101"))).
Proof.
  apply (X12_mousedown_on_a_result_renders_its_subject_PartA
           "hola" (PartA.withGlossaryData exampleDoc PartA.initial) 0
           (PartA.mkResult "tarjeta" "S1" ("Término: " +:+ JS.quoted "hola" +:+ " en 101"))).
  reflexivity.
Defined.

(** ** The modal *)

Lemma hasClass_classListAdd (c token : string) (attrs : list (string * string)) :
  isToken token = true ->
  hasClass c (classListAdd token attrs) = String.eqb c token || hasClass c attrs.
Proof.
  intros Htok. apply Bool.eq_iff_eq_true.
  rewrite orb_true_iff, !hasClass_In, (tokenSet_classListAdd token attrs Htok), String.eqb_eq.
  destruct (JS.arrayIncludes (tokenSet attrs) token) eqn:E.
  - apply arrayIncludes_In in E. intuition congruence.
  - rewrite in_app_iff. cbn. intuition congruence.
Qed.

Lemma hasClass_classListRemove (c token : string) (attrs : list (string * string)) :
  hasClass c (classListRemove token attrs) = negb (String.eqb c token) && hasClass c attrs.
Proof.
  apply Bool.eq_iff_eq_true.
  rewrite andb_true_iff, !hasClass_In, tokenSet_classListRemove, List.filter_In. tauto.
Qed.

Lemma getAttribute_updateClass_other (name : string) (tokens : list string)
      (attrs : list (string * string)) :
  name <> "class" ->
  getAttribute name (updateClass tokens attrs) = getAttribute name attrs.
Proof.
  intros Hne. unfold updateClass.
  destruct (getAttribute "class" attrs), tokens; try reflexivity;
    now apply getAttribute_setAttribute_other.
Qed.

Lemma getAttribute_removeAttribute (name : string) (attrs : list (string * string)) :
  getAttribute name (AppJs.removeAttribute name attrs) = None.
Proof.
  unfold getAttribute, AppJs.removeAttribute.
  induction attrs as [|[k v] attrs IH]; [reflexivity|]. cbn [List.filter fst].
  destruct (String.eqb k name) eqn:E; cbn [negb]; [exact IH|].
  cbn [List.find fst]. now rewrite E.
Qed.

Lemma getAttribute_removeAttribute_other (name other : string)
      (attrs : list (string * string)) :
  other <> name ->
  getAttribute other (AppJs.removeAttribute name attrs) = getAttribute other attrs.
Proof.
  intros Hne. unfold getAttribute, AppJs.removeAttribute.
  induction attrs as [|[k v] attrs IH]; [reflexivity|]. cbn [List.filter List.find fst].
  destruct (String.eqb_spec k name) as [-> | Hk]; cbn [negb List.find fst].
  - destruct (String.eqb_spec name other); [congruence | exact IH].
  - destruct (String.eqb k other); [reflexivity | exact IH].
Qed.

Lemma hasClass_removeAttribute_other (c name : string) (attrs : list (string * string)) :
  name <> "class" -> hasClass c (AppJs.removeAttribute name attrs) = hasClass c attrs.
Proof.
  intros Hne. unfold hasClass, classList.
  rewrite getAttribute_removeAttribute_other; [reflexivity | congruence].
Qed.

(** What [handleExpand] of app.js leaves, in one piece. *)
Lemma AppJs_handleExpand_shape (probe : string -> probeOutcome) (cardData : Card)
      (st : AppJs.state) (m : AppJs.modal) :
  let imageSrc := AppJs.baseURI st +:+ "assets/images/" +:+ c_img cardData in
  AppJs.handleExpand probe cardData st m =
  (snd (AppJs.safeImageUrl imageSrc (probe imageSrc) st),
   AppJs.mkModal
     (AppJs.removeAttribute "hidden" (classListAdd "modal--visible" (AppJs.cardModal m)))
     (AppJs.modalContent (fst (AppJs.safeImageUrl imageSrc (probe imageSrc) st)) cardData)
     true).
Proof.
  intros imageSrc. unfold AppJs.handleExpand. fold imageSrc.
  destruct (AppJs.safeImageUrl imageSrc (probe imageSrc) st) as [url st']. reflexivity.
Qed.

(** X13. In app.js expanding a card opens the modal and closing it hides
    it again.  After [handleExpand] the modal has the class
    [modal--visible] and no [hidden] attribute, holds the focus, keeps its
    other classes, and its body holds the six elements of that card and
    nothing of what it held before, the image being the cached address, the
    image itself or the placeholder.  After [handleModalClose] the class is
    gone and [hidden] is set, with the body left in place.  Escape closes
    an open modal and does nothing to a closed one; no other key does
    anything.  When a second card is expanded while the image of the first
    is still being probed, the body ends with the elements of both. *)
Theorem X13_modal_opens_and_closes :
  forall (probe : string -> probeOutcome) (cardData : Card) (st : AppJs.state)
         (m : AppJs.modal) (c key : string),
    let imageSrc := AppJs.baseURI st +:+ "assets/images/" +:+ c_img cardData in
    let opened := snd (AppJs.handleExpand probe cardData st m) in
    let closed := AppJs.handleModalClose opened in
    (hasClass c (AppJs.cardModal opened) =
       String.eqb c "modal--visible" || hasClass c (AppJs.cardModal m)) /\
    getAttribute "hidden" (AppJs.cardModal opened) = None /\
    AppJs.modalFocused opened = true /\
    (exists url : string,
       AppJs.modalBody opened = AppJs.modalContent url cardData /\
       length (AppJs.modalBody opened) = 6 /\
       match AppJs.imageCache st !! imageSrc with
       | Some cached => url = cached
       | None => url = imageSrc \/ url = AppJs.placeholder
       end) /\
    (hasClass c (AppJs.cardModal closed) =
       negb (String.eqb c "modal--visible") && hasClass c (AppJs.cardModal m)) /\
    getAttribute "hidden" (AppJs.cardModal closed) = Some EmptyString /\
    AppJs.modalBody closed = AppJs.modalBody opened /\
    AppJs.onWindowKeydown "Escape" opened = closed /\
    AppJs.onWindowKeydown "Escape" closed = closed /\
    (key <> "Escape" -> AppJs.onWindowKeydown key opened = opened) /\
    (forall (url1 url2 : string) (other : Card),
        AppJs.modalBody
          (AppJs.renderModalContentFinish url2 other
             (AppJs.renderModalContentFinish url1 cardData
                (AppJs.renderModalContentStart (AppJs.renderModalContentStart m)))) =
        AppJs.modalContent url1 cardData ++ AppJs.modalContent url2 other).
Proof.
  intros probe cardData st m c key imageSrc opened closed.
  assert (Hopened : opened =
            AppJs.mkModal
              (AppJs.removeAttribute "hidden" (classListAdd "modal--visible" (AppJs.cardModal m)))
              (AppJs.modalContent (fst (AppJs.safeImageUrl imageSrc (probe imageSrc) st)) cardData)
              true).
  { unfold opened. now rewrite AppJs_handleExpand_shape. }
  assert (Hvis : forall x, hasClass x (AppJs.cardModal opened) =
                           String.eqb x "modal--visible" || hasClass x (AppJs.cardModal m)).
  { intros x. rewrite Hopened. cbn [AppJs.cardModal].
    rewrite hasClass_removeAttribute_other by discriminate.
    now apply hasClass_classListAdd. }
  assert (Hcl : forall x, hasClass x (AppJs.cardModal closed) =
                          negb (String.eqb x "modal--visible") && hasClass x (AppJs.cardModal m)).
  { intros x. unfold closed, AppJs.handleModalClose. cbn [AppJs.cardModal].
    rewrite hasClass_setAttribute_other by discriminate.
    rewrite hasClass_classListRemove, Hvis.
    destruct (String.eqb x "modal--visible"); reflexivity. }
  split; [apply Hvis|]. split.
  { rewrite Hopened. apply getAttribute_removeAttribute. }
  split; [now rewrite Hopened|]. split.
  { exists (fst (AppJs.safeImageUrl imageSrc (probe imageSrc) st)).
    split; [now rewrite Hopened|]. split; [now rewrite Hopened|].
    unfold AppJs.safeImageUrl. destruct (AppJs.imageCache st !! imageSrc); [reflexivity|].
    destruct (probe imageSrc); cbn; auto. }
  split; [apply Hcl|]. split.
  { unfold closed, AppJs.handleModalClose. cbn [AppJs.cardModal].
    apply getAttribute_setAttribute. }
  split; [reflexivity|]. split.
  { unfold AppJs.onWindowKeydown. rewrite Hvis. reflexivity. }
  split.
  { unfold AppJs.onWindowKeydown. rewrite Hcl. reflexivity. }
  split.
  { intros Hkey. unfold AppJs.onWindowKeydown.
    destruct (String.eqb_spec key "Escape"); [contradiction | reflexivity]. }
  reflexivity.
Qed.

Lemma X13_witness :
  AppJs.onWindowKeydown "Enter"
    (snd (AppJs.handleExpand (fun _ => ProbeOk) exampleCard (AppJs.initial EmptyString)
            (AppJs.mkModal [("class", "modal"); ("hidden", EmptyString)] [] false))) =
  snd (AppJs.handleExpand (fun _ => ProbeOk) exampleCard (AppJs.initial EmptyString)
         (AppJs.mkModal [("class", "modal"); ("hidden", EmptyString)] [] false)).
Proof.
  apply (X13_modal_opens_and_closes (fun _ => ProbeOk) exampleCard (AppJs.initial EmptyString)
           (AppJs.mkModal [("class", "modal"); ("hidden", EmptyString)] [] false)
           "modal" "Enter").
  discriminate.
Defined.

(** ** [JSON.parse] reads back what [JSON.stringify] wrote *)

Lemma readString_escapeChar (c : ascii) (rest : string) :
  Decode.readString (JS.jsonEscapeChar c +:+ rest) =
  match Decode.readString rest with
  | Some (v, r) => Some (String c v, r)
  | None => None
  end.
Proof. destruct c as [[] [] [] [] [] [] [] []]; reflexivity. Qed.

Lemma readString_jsonEscape (s rest : string) :
  Decode.readString (JS.jsonEscape s +:+ JS.dq +:+ rest) = Some (s, rest).
Proof.
  induction s as [|c s IH]; [reflexivity|].
  cbn [JS.jsonEscape]. rewrite append_assoc, readString_escapeChar, IH. reflexivity.
Qed.

Lemma decode_encode_char (c : ascii) (rest : string) :
  Decode.decodeURIComponent
    ((if JS.isUnreserved c then String c EmptyString else "%" +:+ JS.hex2 true c) +:+ rest) =
  option_map (String c) (Decode.decodeURIComponent rest).
Proof. destruct c as [[] [] [] [] [] [] [] []]; reflexivity. Qed.

Lemma decodeURIComponent_encodeURIComponent (s : string) :
  Decode.decodeURIComponent (JS.encodeURIComponent s) = Some s.
Proof.
  induction s as [|c s IH]; [reflexivity|].
  cbn [JS.encodeURIComponent]. rewrite decode_encode_char, IH. reflexivity.
Qed.

Lemma readMembers_more (fuel : nat) (k v rest : string) :
  Decode.readMembers (S fuel)
    (JS.jsonString k +:+ ":" +:+ JS.jsonString v +:+ "," +:+ rest) =
  match Decode.readMembers fuel rest with
  | Some (members, r) => Some ((k, v) :: members, r)
  | None => None
  end.
Proof.
  unfold JS.jsonString, JS.quoted. rewrite !append_assoc.
  change (Decode.readMembers (S fuel)
            (String (ascii_of_nat 34)
               (JS.jsonEscape k +:+ JS.dq +:+
                String ":" (String (ascii_of_nat 34)
                              (JS.jsonEscape v +:+ JS.dq +:+ String "," rest)))) = 
          match Decode.readMembers fuel rest with
  | Some (members, r) => Some ((k, v) :: members, r)
  | None => None
  end).
  cbn [Decode.readMembers].
  lazy -[Decode.readString Decode.readMembers JS.jsonEscape String.append JS.dq].
  rewrite readString_jsonEscape.
  lazy -[Decode.readString Decode.readMembers JS.jsonEscape String.append JS.dq].
  rewrite readString_jsonEscape.
  lazy -[Decode.readString Decode.readMembers JS.jsonEscape String.append JS.dq].
  reflexivity.
Qed.

Lemma readMembers_last (fuel : nat) (k v rest : string) :
  Decode.readMembers (S fuel)
    (JS.jsonString k +:+ ":" +:+ JS.jsonString v +:+ "}" +:+ rest) =
  Some ([(k, v)], rest).
Proof.
  unfold JS.jsonString, JS.quoted. rewrite !append_assoc.
  change (Decode.readMembers (S fuel)
            (String (ascii_of_nat 34)
               (JS.jsonEscape k +:+ JS.dq +:+
                String ":" (String (ascii_of_nat 34)
                              (JS.jsonEscape v +:+ JS.dq +:+ String "}" rest)))) =
          Some ([(k, v)], rest)).
  cbn [Decode.readMembers].
  lazy -[Decode.readString Decode.readMembers JS.jsonEscape String.append JS.dq].
  rewrite readString_jsonEscape.
  lazy -[Decode.readString Decode.readMembers JS.jsonEscape String.append JS.dq].
  rewrite readString_jsonEscape.
  reflexivity.
Qed.

Lemma parseObject_members (k rest : string) :
  Decode.parseObject ("{" +:+ JS.jsonString k +:+ ":" +:+ rest) =
  match Decode.readMembers (String.length ("{" +:+ JS.jsonString k +:+ ":" +:+ rest))
                           (JS.jsonString k +:+ ":" +:+ rest) with
  | Some (members, r) =>
      match Decode.skipWs r with EmptyString => Some members | _ => None end
  | None => None
  end.
Proof. reflexivity. Qed.

(** [JSON.parse(JSON.stringify(card))] is the card. *)
Lemma parseCard_card (c : Card) : Decode.parseCard (Json.card c) = Some c.
Proof.
  unfold Decode.parseCard.
  assert (E : Json.card c =
              "{" +:+ JS.jsonString "id" +:+ ":" +:+ JS.jsonString (c_id c) +:+ "," +:+
              JS.jsonString "es" +:+ ":" +:+ JS.jsonString (c_es c) +:+ "," +:+
              JS.jsonString "en" +:+ ":" +:+ JS.jsonString (c_en c) +:+ "," +:+
              JS.jsonString "def_es" +:+ ":" +:+ JS.jsonString (c_def_es c) +:+ "," +:+
              JS.jsonString "def_en" +:+ ":" +:+ JS.jsonString (c_def_en c) +:+ "," +:+
              JS.jsonString "img" +:+ ":" +:+ JS.jsonString (c_img c) +:+ "}" +:+ EmptyString).
  { unfold Json.card, JS.jsonObject, JS.join.
    cbn [map fst snd String.concat]. rewrite !append_assoc. reflexivity. }
  rewrite E, parseObject_members.
  match goal with |- context [Decode.readMembers ?f _] =>
    assert (Hfuel : exists n, f = S (S (S (S (S (S n)))))) by (eexists; reflexivity)
  end.
  destruct Hfuel as [n ->].
  rewrite !readMembers_more, readMembers_last.
  destruct c; reflexivity.
Qed.

Lemma getAttribute_classListToggle_other (name token : string)
      (attrs : list (string * string)) :
  name <> "class" ->
  getAttribute name (classListToggle token attrs) = getAttribute name attrs.
Proof.
  intros Hne. unfold classListToggle, classListAdd, classListRemove.
  destruct (JS.arrayIncludes (tokenSet attrs) token);
    now apply getAttribute_updateClass_other.
Qed.

(** X14. In the first script of part_000 the expand button of a rendered
    card shows that card: the card element carries the serialised card in
    [data-card-data], parsing it gives the card back, and the click writes
    the markup of that card to the modal and opens it, whether the card is
    flipped or not.  Opening adds the class [modal--open] and hiding
    removes it, the other classes and the body being left as they are. *)
Theorem X14_expand_shows_the_card_PartA :
  forall (card : Card) (slug : string) (m : PartA.modal) (c : string),
    let rendered := PartA.renderCard card slug in
    let flipped := AppJs.handleFlip rendered in
    let shown := PartA.showModal card m in
    getAttribute "data-card-data" (attributesOf rendered) = Some (Json.card card) /\
    Decode.parseCard (Json.card card) = Some card /\
    PartA.onCardClick PartA.OnExpandButton rendered m = Normal (rendered, shown) /\
    PartA.onCardClick PartA.OnExpandButton flipped m = Normal (flipped, shown) /\
    PartA.modalBody shown = PartA.modalMarkup card /\
    PartA.modalFocused shown = true /\
    (hasClass c (PartA.modalAttrs shown) =
       String.eqb c "modal--open" || hasClass c (PartA.modalAttrs m)) /\
    (hasClass c (PartA.modalAttrs (PartA.hideModal shown)) =
       negb (String.eqb c "modal--open") && hasClass c (PartA.modalAttrs m)) /\
    PartA.modalBody (PartA.hideModal shown) = PartA.modalMarkup card.
Proof.
  intros card slug m c rendered flipped shown.
  assert (Hdata : getAttribute "data-card-data" (attributesOf rendered) = Some (Json.card card))
    by reflexivity.
  assert (Hopen : hasClass c (PartA.modalAttrs shown) =
                  String.eqb c "modal--open" || hasClass c (PartA.modalAttrs m)).
  { unfold shown, PartA.showModal. cbn [PartA.modalAttrs]. now apply hasClass_classListAdd. }
  split; [exact Hdata|]. split; [apply parseCard_card|]. split.
  { unfold PartA.onCardClick. rewrite Hdata, parseCard_card. reflexivity. }
  split.
  { unfold PartA.onCardClick, flipped, AppJs.handleFlip.
    assert (Hel : exists t a ch, rendered = Elem t a ch) by (do 3 eexists; reflexivity).
    destruct Hel as (t & a & ch & Hel). rewrite Hel in Hdata |- *.
    cbn [onAttributes attributesOf] in Hdata |- *.
    rewrite getAttribute_classListToggle_other by discriminate.
    rewrite Hdata, parseCard_card. reflexivity. }
  split; [reflexivity|]. split; [reflexivity|]. split; [exact Hopen|]. split; [|reflexivity].
  unfold PartA.hideModal. cbn [PartA.modalAttrs].
  rewrite hasClass_classListRemove. fold shown. rewrite Hopen.
  destruct (String.eqb c "modal--open"); reflexivity.
Qed.

Lemma occursIn_append_l (q a b : string) : occursIn q a -> occursIn q (a +:+ b).
Proof.
  intros [pre [post ->]]. exists pre, (post +:+ b). now rewrite !append_assoc.
Qed.

Lemma includes_encode_char (c : ascii) (rest : string) :
  JS.includes ((if JS.isUnreserved c then String c EmptyString else "%" +:+ JS.hex2 true c)
               +:+ rest) "'" =
  Ascii.eqb c "'" || JS.includes rest "'".
Proof. destruct c as [[] [] [] [] [] [] [] []]; reflexivity. Qed.

Lemma includes_apostrophe_cons (c : ascii) (rest : string) :
  JS.includes (String c rest) "'" = Ascii.eqb c "'" || JS.includes rest "'".
Proof.
  cbn [JS.includes JS.startsWith]. rewrite andb_true_r.
  now rewrite (Ascii.eqb_sym "'"%char c).
Qed.

Lemma includes_encodeURIComponent (s : string) :
  JS.includes (JS.encodeURIComponent s) "'" = JS.includes s "'".
Proof.
  induction s as [|c s IH]; [reflexivity|].
  cbn [JS.encodeURIComponent]. now rewrite includes_encode_char, includes_apostrophe_cons, IH.
Qed.

Lemma includes_apostrophe_app (a b : string) :
  JS.includes (a +:+ b) "'" = JS.includes a "'" || JS.includes b "'".
Proof.
  induction a as [|c a IH].
  - destruct b; reflexivity.
  - change (String c a +:+ b) with (String c (a +:+ b)).
    rewrite !includes_apostrophe_cons, IH. apply orb_assoc.
Qed.

Lemma includes_escapeChar (c : ascii) (rest : string) :
  JS.includes (JS.jsonEscapeChar c +:+ rest) "'" = Ascii.eqb c "'" || JS.includes rest "'".
Proof. destruct c as [[] [] [] [] [] [] [] []]; reflexivity. Qed.

Lemma includes_jsonEscape (s : string) :
  JS.includes (JS.jsonEscape s) "'" = JS.includes s "'".
Proof.
  induction s as [|c s IH]; [reflexivity|].
  cbn [JS.jsonEscape]. now rewrite includes_escapeChar, includes_apostrophe_cons, IH.
Qed.

Lemma jsonEscape_app (a b : string) :
  JS.jsonEscape (a +:+ b) = JS.jsonEscape a +:+ JS.jsonEscape b.
Proof.
  induction a as [|c a IH]; [reflexivity|].
  change (String c a +:+ b) with (String c (a +:+ b)).
  cbn [JS.jsonEscape]. now rewrite IH, append_assoc.
Qed.

Lemma encodeURIComponent_app (a b : string) :
  JS.encodeURIComponent (a +:+ b) = JS.encodeURIComponent a +:+ JS.encodeURIComponent b.
Proof.
  induction a as [|c a IH]; [reflexivity|].
  change (String c a +:+ b) with (String c (a +:+ b)).
  cbn [JS.encodeURIComponent]. now rewrite IH, append_assoc.
Qed.

(** A text that holds an apostrophe, cut at the first one. *)
Lemma first_apostrophe (s : string) :
  JS.includes s "'" = true ->
  exists a b, s = a +:+ String "'" b /\ JS.includes a "'" = false.
Proof.
  induction s as [|c s IH]; [discriminate|].
  rewrite includes_apostrophe_cons. destruct (Ascii.eqb_spec c "'") as [-> | Hc].
  - intros _. now exists EmptyString, s.
  - intros H. destruct (IH H) as (a & b & -> & Ha).
    exists (String c a), b. split; [reflexivity|].
    rewrite includes_apostrophe_cons, Ha.
    now destruct (Ascii.eqb_spec c "'").
Qed.

Lemma clean_prefix (head x pre post : string) :
  JS.includes head "'" = false ->
  head +:+ x = pre +:+ String "'" post ->
  exists pre', pre = head +:+ pre' /\ x = pre' +:+ String "'" post.
Proof.
  revert pre. induction head as [|c head IH]; intros pre Hc E.
  - now exists pre.
  - rewrite includes_apostrophe_cons in Hc. apply orb_false_iff in Hc as [Hc Hh].
    destruct pre as [|c' pre].
    + injection E as -> _. now rewrite Ascii.eqb_refl in Hc.
    + injection E as <- E. destruct (IH pre Hh E) as (pre' & -> & Hx).
      now exists pre'.
Qed.

Lemma clean_prefix_all (head y pre post : string) :
  JS.includes head "'" = false -> JS.includes pre "'" = false ->
  head +:+ String "'" y = pre +:+ String "'" post ->
  pre = head.
Proof.
  intros Hh Hp E. destruct (clean_prefix _ _ _ _ Hh E) as (pre' & -> & Hx).
  rewrite includes_apostrophe_app, Hh in Hp.
  destruct pre' as [|c pre']; [now rewrite append_nil_r|].
  injection Hx as <- _. discriminate Hp.
Qed.

Lemma singleQuotedValue_clean (x rest : string) :
  JS.includes x "'" = false -> singleQuotedValue (x +:+ String "'" rest) = x.
Proof.
  induction x as [|c x IH]; [reflexivity|].
  rewrite includes_apostrophe_cons. intros H. apply orb_false_iff in H as [Hc Hx].
  change (String c x +:+ String "'" rest) with (String c (x +:+ String "'" rest)).
  cbn [singleQuotedValue]. now rewrite Hc, IH.
Qed.

Lemma readString_unterminated (s : string) : Decode.readString (JS.jsonEscape s) = None.
Proof.
  induction s as [|c s IH]; [reflexivity|].
  cbn [JS.jsonEscape]. now rewrite readString_escapeChar, IH.
Qed.

Lemma readMembers_cut (fuel : nat) (k v : string) :
  Decode.readMembers fuel (JS.jsonString k +:+ ":" +:+ JS.dq +:+ JS.jsonEscape v) = None.
Proof.
  destruct fuel as [|fuel]; [reflexivity|].
  unfold JS.jsonString, JS.quoted. rewrite !append_assoc.
  change (Decode.readMembers (S fuel)
            (String (ascii_of_nat 34)
               (JS.jsonEscape k +:+ JS.dq +:+
                String ":" (String (ascii_of_nat 34) (JS.jsonEscape v)))) = None).
  cbn [Decode.readMembers].
  lazy -[Decode.readString Decode.readMembers JS.jsonEscape String.append JS.dq].
  rewrite readString_jsonEscape.
  lazy -[Decode.readString Decode.readMembers JS.jsonEscape String.append JS.dq].
  now rewrite readString_unterminated.
Qed.

Lemma jsonString_clean (s : string) :
  JS.includes (JS.jsonString s) "'" = JS.includes s "'".
Proof.
  unfold JS.jsonString, JS.quoted.
  rewrite !includes_apostrophe_app, includes_jsonEscape.
  change (JS.includes JS.dq "'") with false. now rewrite orb_false_r.
Qed.

(** The members of an object cut at an apostrophe do not parse: the cut
    falls inside a string literal. *)
Lemma readMembers_truncated (members : list (string * string)) :
  Forall (fun kv => JS.includes (fst kv) "'" = false) members ->
  forall (fuel : nat) (pre post : string),
    membersText members = pre +:+ String "'" post ->
    JS.includes pre "'" = false ->
    Decode.readMembers fuel pre = None.
Proof.
  induction members as [|[k v] members IH]; intros Hkeys fuel pre post E Hpre.
  - cbn in E. destruct pre as [|c pre]; [discriminate E|].
    injection E as <- E. destruct pre; discriminate E.
  - inversion Hkeys as [|? ? Hk Hkeys']; subst. cbn [fst] in Hk.
    cbn [membersText fst snd] in E.
    destruct (JS.includes v "'") eqn:Hv.
    + destruct (first_apostrophe v Hv) as (a & b & -> & Ha).
      assert (Hhead : JS.includes (JS.jsonString k +:+ ":" +:+ JS.dq +:+ JS.jsonEscape a) "'"
                      = false).
      { rewrite !includes_apostrophe_app, jsonString_clean, Hk, includes_jsonEscape, Ha.
        reflexivity. }
      assert (Hcut : pre = JS.jsonString k +:+ ":" +:+ JS.dq +:+ JS.jsonEscape a).
      { apply (clean_prefix_all _ (JS.jsonEscape b +:+ JS.dq +:+
                                   match members with
                                   | [] => "}"
                                   | _ :: _ => "," +:+ membersText members
                                   end) _ post Hhead Hpre).
        rewrite <- E. unfold JS.jsonString, JS.quoted.
        rewrite (jsonEscape_app a). cbn [JS.jsonEscape].
        change (JS.jsonEscapeChar "'") with (String "'" EmptyString).
        rewrite !append_assoc. reflexivity. }
      rewrite Hcut. apply readMembers_cut.
    + assert (Hhead : JS.includes (JS.jsonString k +:+ ":" +:+ JS.jsonString v) "'" = false).
      { rewrite !includes_apostrophe_app, !jsonString_clean, Hk, Hv. reflexivity. }
      destruct members as [|m members].
      * exfalso.
        assert (Hall : JS.includes (JS.jsonString k +:+ ":" +:+ JS.jsonString v +:+ "}") "'"
                       = false).
        { rewrite !includes_apostrophe_app, !jsonString_clean, Hk, Hv. reflexivity. }
        rewrite E, includes_apostrophe_app, includes_apostrophe_cons in Hall.
        rewrite Ascii.eqb_refl, orb_true_r in Hall. discriminate Hall.
      * assert (Hh2 : JS.includes (JS.jsonString k +:+ ":" +:+ JS.jsonString v +:+ ",") "'"
                      = false).
        { rewrite !includes_apostrophe_app, !jsonString_clean, Hk, Hv. reflexivity. }
        rewrite <- !append_assoc in E. rewrite <- !append_assoc in Hh2.
        destruct (clean_prefix _ _ _ _ Hh2 E) as (pre' & -> & E').
        rewrite includes_apostrophe_app, Hh2 in Hpre. cbn [orb] in Hpre.
        destruct fuel as [|fuel]; [reflexivity|].
        rewrite !append_assoc, readMembers_more.
        now rewrite (IH Hkeys' fuel pre' post E' Hpre).
Qed.

Lemma card_membersText (c : Card) :
  Json.card c =
  "{" +:+ membersText [("id", c_id c); ("es", c_es c); ("en", c_en c);
                       ("def_es", c_def_es c); ("def_en", c_def_en c); ("img", c_img c)].
Proof.
  unfold Json.card, JS.jsonObject, JS.join.
  cbn [map fst snd String.concat membersText]. rewrite !append_assoc. reflexivity.
Qed.

(** [JSON.parse] rejects the serialised card cut at its first
    apostrophe. *)
Lemma parseCard_truncated (c : Card) (pre post : string) :
  Json.card c = pre +:+ String "'" post -> JS.includes pre "'" = false ->
  Decode.parseCard pre = None.
Proof.
  rewrite card_membersText. intros E Hpre.
  destruct (clean_prefix "{" _ pre post eq_refl E) as (pre' & -> & E').
  rewrite includes_apostrophe_app in Hpre. cbn [orb] in Hpre.
  change (JS.includes "{" "'") with false in Hpre. cbn [orb] in Hpre.
  assert (Hnone : forall fuel, Decode.readMembers fuel pre' = None).
  { intros fuel. eapply readMembers_truncated; [| exact E' | exact Hpre].
    repeat constructor. }
  cbn [membersText fst snd] in E'.
  rewrite <- (append_assoc (JS.jsonString "id") ":") in E'.
  destruct (clean_prefix (JS.jsonString "id" +:+ ":") _ pre' post eq_refl E')
    as (rest & Hrest & _).
  rewrite append_assoc in Hrest.
  unfold Decode.parseCard. rewrite Hrest, parseObject_members, <- Hrest.
  now rewrite Hnone.
Qed.

Lemma datasetCard_clean (s : string) :
  JS.includes s "'" = false ->
  PartB.datasetCard (JS.encodeURIComponent s) = JS.encodeURIComponent s.
Proof.
  intros H. unfold PartB.datasetCard.
  change ("'>Ampliar</button>" +:+ "</div>") with (String "'" (">Ampliar</button>" +:+ "</div>")).
  apply singleQuotedValue_clean. now rewrite includes_encodeURIComponent.
Qed.

Lemma datasetCard_cut (pre post : string) :
  JS.includes pre "'" = false ->
  PartB.datasetCard (JS.encodeURIComponent (pre +:+ String "'" post)) =
  JS.encodeURIComponent pre.
Proof.
  intros H. unfold PartB.datasetCard.
  rewrite encodeURIComponent_app, append_assoc.
  change (JS.encodeURIComponent (String "'" post))
    with (String "'" (JS.encodeURIComponent post)).
  change (String "'" (JS.encodeURIComponent post) +:+ "'>Ampliar</button>" +:+ "</div>")
    with (String "'" (JS.encodeURIComponent post +:+ "'>Ampliar</button>" +:+ "</div>")).
  apply singleQuotedValue_clean. now rewrite includes_encodeURIComponent.
Qed.

(** X15. In the second script of part_000 the expand buttons of a card
    carry the card, serialised and percent-encoded, in [data-card] between
    apostrophes, and the encoding leaves an apostrophe as it is.  When the
    serialised card holds no apostrophe the parser reads the whole encoded
    text as the value, and [handleExpand] decodes and parses it back to the
    card: it writes the markup of that card to the modal, shows the modal
    and focuses its close button, and [closeModal] hides it with the body
    left in place.  When the serialised card holds an apostrophe the value
    the parser reads stops there, and [handleExpand] raises the SyntaxError
    of [JSON.parse] and leaves the modal as it is. *)
Theorem X15_expand_shows_the_card_PartB {platform : JS.Platform} :
  forall (card : Card) (group : Group) (m : PartB.modal),
    let encoded := JS.encodeURIComponent (Json.card card) in
    let shown := PartB.mkModal false (PartB.modalMarkup card) true in
    occursIn (" data-card='" +:+ encoded +:+ "'>Ampliar</button>")
             (PartB.renderCard card group) /\
    (JS.includes (Json.card card) "'" = false ->
     PartB.datasetCard encoded = encoded /\
     PartB.handleExpand (Some (PartB.datasetCard encoded)) m = Normal shown /\
     PartB.closeModal shown = PartB.mkModal true (PartB.modalMarkup card) true) /\
    (JS.includes (Json.card card) "'" = true ->
     PartB.datasetCard encoded <> encoded /\
     PartB.handleExpand (Some (PartB.datasetCard encoded)) m =
       Throw "SyntaxError: JSON.parse" m).
Proof.
  intros card group m encoded shown.
  split; [|split].
  - assert (Hact : occursIn (" data-card='" +:+ encoded +:+ "'>Ampliar</button>")
                            (PartB.actionsMarkup encoded)).
    { unfold PartB.actionsMarkup. do 10 apply occursIn_append_r.
      exists EmptyString, "</div>". now rewrite !append_assoc. }
    unfold PartB.renderCard. cbv zeta. fold encoded.
    repeat first [ apply occursIn_append_l; exact Hact | apply occursIn_append_r ].
  - intros Hclean. unfold encoded. rewrite (datasetCard_clean _ Hclean).
    split; [reflexivity|]. split; [|reflexivity].
    unfold PartB.handleExpand.
    now rewrite decodeURIComponent_encodeURIComponent, parseCard_card.
  - intros Hap. destruct (first_apostrophe _ Hap) as (pre & post & E & Hpre).
    unfold encoded. rewrite E, (datasetCard_cut _ _ Hpre). split.
    + intros Heq.
      assert (H : JS.includes (JS.encodeURIComponent pre) "'" = true).
      { rewrite Heq, includes_encodeURIComponent, <- E. exact Hap. }
      rewrite includes_encodeURIComponent, Hpre in H. discriminate H.
    + unfold PartB.handleExpand.
      now rewrite decodeURIComponent_encodeURIComponent, (parseCard_truncated card pre post E Hpre).
Qed.

Lemma X15_witness :
  PartB.handleExpand
    (Some (PartB.datasetCard (JS.encodeURIComponent (Json.card exampleCard))))
    (PartB.mkModal true EmptyString false) =
  Normal (PartB.mkModal false (PartB.modalMarkup exampleCard) true) /\
  PartB.handleExpand
    (Some (PartB.datasetCard (JS.encodeURIComponent (Json.card apostropheCard))))
    (PartB.mkModal true EmptyString false) =
  Throw "SyntaxError: JSON.parse" (PartB.mkModal true EmptyString false).
Proof.
  split.
  - apply (X15_expand_shows_the_card_PartB exampleCard exampleGroup
             (PartB.mkModal true EmptyString false)).
    reflexivity.
  - apply (X15_expand_shows_the_card_PartB apostropheCard exampleGroup
             (PartB.mkModal true EmptyString false)).
    reflexivity.
Defined.

(** The value the parser reads for the card with the apostrophe: the
    encoded text up to [Dijkstra]. *)
Example apostrophe_cuts_the_value :
  PartB.datasetCard (JS.encodeURIComponent (Json.card apostropheCard)) =
  "%7B%22id%22%3A%22c2%22%2C%22es%22%3A%22algoritmo%20de%20Dijkstra%22%2C%22en%22%3A%22Dijkstra".
Proof. vm_compute. reflexivity. Qed.

(** ** Rendering a subject again *)

Lemma safeImageUrl_hit (path cached : string) (probe : probeOutcome) (st : AppJs.state) :
  AppJs.imageCache st !! path = Some cached ->
  AppJs.safeImageUrl path probe st = (cached, st).
Proof. intros E. unfold AppJs.safeImageUrl. now rewrite E. Qed.

Lemma renderAll_unchanged {A : Type}
      (render render' : A -> AppJs.state -> node * AppJs.state)
      (l : list A) (st : AppJs.state) :
  (forall x, In x l -> render x st = render' x st /\ snd (render x st) = st) ->
  renderAll render l st = renderAll render' l st /\ snd (renderAll render l st) = st.
Proof.
  induction l as [|x l IH]; intros H; [split; reflexivity|].
  cbn [renderAll]. destruct (H x (or_introl eq_refl)) as [E Hst]. rewrite <- E.
  destruct (render x st) as [n st1]. cbn [snd] in Hst. subst st1.
  destruct IH as [IH1 IH2]; [intros y Hy; apply H; now right|].
  rewrite <- IH1. destruct (renderAll render l st) as [ns st2]. cbn [snd] in IH2. subst st2.
  split; reflexivity.
Qed.

Lemma renderCard_unchanged (probe probe' : string -> probeOutcome) (c : Card)
      (st : AppJs.state) :
  is_Some (AppJs.imageCache st !! (AppJs.baseURI st +:+ "assets/images/" +:+ c_img c)) ->
  AppJs.renderCard probe c st = AppJs.renderCard probe' c st /\
  snd (AppJs.renderCard probe c st) = st.
Proof.
  intros [v Hv]. rewrite !renderCard_shape, !(safeImageUrl_hit _ v _ st Hv).
  split; reflexivity.
Qed.

Lemma renderGroup_unchanged (probe probe' : string -> probeOutcome) (g : Group)
      (st : AppJs.state) :
  (forall c, In c (g_cards g) ->
     is_Some (AppJs.imageCache st !! (AppJs.baseURI st +:+ "assets/images/" +:+ c_img c))) ->
  AppJs.renderGroup probe g st = AppJs.renderGroup probe' g st /\
  snd (AppJs.renderGroup probe g st) = st.
Proof.
  intros H. rewrite !renderGroup_shape. cbn [snd].
  destruct (renderAll_unchanged (AppJs.renderCard probe) (AppJs.renderCard probe')
              (g_cards g) st) as [E Hst].
  { intros c Hc. now apply renderCard_unchanged, H. }
  rewrite E in *. split; [reflexivity | exact Hst].
Qed.

Lemma renderMateria_resolved (probe probe' : string -> probeOutcome) (id : string)
      (s : Subject) (st : AppJs.state) :
  arrayFind (fun x => String.eqb (s_id x) id) (AppJs.glossaryData st) = Some s ->
  imagesResolved s st ->
  let st0 := AppJs.withSubjectArea [] (AppJs.withCurrentSubjectId (Some id) st) in
  AppJs.renderMateria probe id st =
    AppJs.withSubjectArea
      [subjectElement s (fst (renderAll (AppJs.renderGroup probe') (s_groups s) st0))] st0.
Proof.
  intros Hf Hres st0. rewrite (renderMateria_shape probe id s st Hf). fold st0.
  destruct (renderAll_unchanged (AppJs.renderGroup probe) (AppJs.renderGroup probe')
              (s_groups s) st0) as [E Hst].
  { intros g Hg. apply renderGroup_unchanged. intros c Hc. exact (Hres g c Hg Hc). }
  now rewrite Hst, E.
Qed.

(** X16. In app.js, rendering a subject whose images have all been
    resolved, as they are once the probes of an earlier rendering have been
    answered, sends no HEAD request and leaves the image cache as it is:
    every image address of the subject is answered from the cache.  The
    page it builds does not depend on what the probes would answer now, and
    rendering the subject once more changes nothing. *)
Theorem X16_rendering_again_changes_nothing :
  forall (probe probe' : string -> probeOutcome) (id : string) (s : Subject)
         (st : AppJs.state),
    arrayFind (fun x => String.eqb (s_id x) id) (AppJs.glossaryData st) = Some s ->
    imagesResolved s st ->
    let rendered := AppJs.renderMateria probe id st in
    AppJs.requests rendered = AppJs.requests st /\
    AppJs.imageCache rendered = AppJs.imageCache st /\
    AppJs.renderMateria probe' id st = rendered /\
    AppJs.renderMateria probe' id rendered = rendered.
Proof.
  intros probe probe' id s st Hf Hres rendered.
  pose proof (renderMateria_resolved probe probe id s st Hf Hres) as E. cbv zeta in E.
  pose proof (renderMateria_resolved probe' probe id s st Hf Hres) as E'. cbv zeta in E'.
  assert (Hf2 : arrayFind (fun x => String.eqb (s_id x) id) (AppJs.glossaryData rendered)
                = Some s).
  { unfold rendered. now rewrite renderMateria_glossaryData. }
  assert (Hres2 : imagesResolved s rendered).
  { unfold rendered. rewrite E. exact Hres. }
  pose proof (renderMateria_resolved probe' probe id s rendered Hf2 Hres2) as E2.
  cbv zeta in E2.
  split; [| split; [| split]].
  - unfold rendered. now rewrite E.
  - unfold rendered. now rewrite E.
  - unfold rendered. now rewrite E, E'.
  - rewrite E2. unfold rendered. rewrite E. destruct st; reflexivity.
Qed.

Lemma X16_witness :
  AppJs.requests (AppJs.renderMateria (fun _ => ProbeOk) "S1" AppJs_exampleResolved) =
    AppJs.requests AppJs_exampleResolved /\
  AppJs.renderMateria (fun _ => ProbeRejects) "S1" AppJs_exampleResolved =
    AppJs.renderMateria (fun _ => ProbeOk) "S1" AppJs_exampleResolved.
Proof.
  destruct (X16_rendering_again_changes_nothing (fun _ => ProbeOk) (fun _ => ProbeRejects)
              "S1" exampleSubject AppJs_exampleResolved) as (Hreq & _ & Hsame & _).
  - reflexivity.
  - intros g c [<- | []] [<- | []]. eexists. vm_compute. reflexivity.
  - split; [exact Hreq | exact Hsame].
Defined.

